(** * hue-cli: a shallow embedding of [hue-cli.js]

    The command-line tool parses its options, loads a JSON configuration
    file, and then interprets one command.  The [lights] command resolves a
    selector into a list of light ids and an action, and issues one request
    to the bridge per selected light; the answers are handled by callbacks.

    The embedding follows the source function by function.  JavaScript values
    are modelled with the types the program really manipulates:

    - strings are [string]s (sequences of code units below 256);
    - numbers are integers or [NaN]: every number on the modelled paths is an
      integer, the product [num * (254 / 100)] is rounded at once by
      [Math.round] (the rounding of the exact product is compared with the
      double-precision one in [percent_agrees_with_binary64]), and magnitudes
      too large for a double are clamped to the same bound as their exact
      value;
    - the tables read by name (aliases, colors, lights) are their own
      members, and a read finds, after them, the members every object
      inherits from [Object.prototype];
    - the process (files, standard input, program globals, output, pending
      callbacks) is an explicit state threaded through a small monad with
      [process.exit] and exceptions;
    - asynchronous bridge calls are queued with their callback and answered
      in the order in which they were issued. *)

From Stdlib Require Import ZArith String Ascii List DecimalString DecimalZ Lia.
From Stdlib Require Import PrimFloat FloatOps SpecFloat Uint63.
From stdpp Require Import base strings gmap list.

Open Scope string_scope.
Open Scope Z_scope.

(** ** JavaScript primitives *)

Module JS.

(** Numbers: an integer, or [NaN]. *)
Inductive number :=
| Int (z : Z)
| NaN.

(** [Math.max(a, b)] and [Math.min(a, b)]: [NaN] as soon as an argument is. *)
Definition Math_max (a b : number) : number :=
  match a, b with
  | Int x, Int y => Int (Z.max x y)
  | _, _ => NaN
  end.

Definition Math_min (a b : number) : number :=
  match a, b with
  | Int x, Int y => Int (Z.min x y)
  | _, _ => NaN
  end.

(** A string is truthy when it is not empty. *)
Definition truthy (s : string) : bool :=
  match s with
  | EmptyString => false
  | String _ _ => true
  end.

(** [a || b] on possibly undefined strings. *)
Definition or_else (a : option string) (b : string) : string :=
  match a with
  | Some s => if truthy s then s else b
  | None => b
  end.

Definition truthy_opt (a : option string) : bool :=
  match a with
  | Some s => truthy s
  | None => false
  end.

Definition char_code (c : ascii) : Z := Z.of_N (N_of_ascii c).

Definition is_digit (c : ascii) : bool :=
  (48 <=? char_code c) && (char_code c <=? 57).

Definition digit_value (c : ascii) : Z := char_code c - 48.

(** Value of a string of decimal digits read from the left, continuing from
    [acc]; [None] when a character is not a digit. *)
Fixpoint digits_acc (acc : Z) (s : string) : option Z :=
  match s with
  | EmptyString => Some acc
  | String c s' =>
      if is_digit c then digits_acc (10 * acc + digit_value c) s' else None
  end.

(** [Number(s)] for the strings this program converts: the empty string is
    [0], an optionally negated run of decimal digits is its value, and the
    rest is [NaN].  (The other literals [Number] accepts, such as
    ["0x10"], ["1e3"] or padded strings, never reach the conversion: the
    converted strings are runs of digits, possibly prefixed by a printed
    integer.) *)
Definition StringToNumber (s : string) : number :=
  match s with
  | EmptyString => Int 0
  | String c s' =>
      if Ascii.eqb c "-" then
        match s' with
        | EmptyString => NaN
        | _ => match digits_acc 0 s' with
               | Some v => Int (- v)
               | None => NaN
               end
        end
      else
        match digits_acc 0 s with
        | Some v => Int v
        | None => NaN
        end
  end.

(** [String(z)] for an integer. *)
Definition ToString (z : Z) : string := NilZero.string_of_int (Z.to_int z).

(** A value that is a number or a string, as the variable [bri] is. *)
Inductive value :=
| VNum (n : number)
| VStr (s : string).

Definition ToNumber (v : value) : number :=
  match v with
  | VNum n => n
  | VStr s => StringToNumber s
  end.

(** [a + b]: concatenation as soon as one side is a string. *)
Definition num_to_string (n : number) : string :=
  match n with
  | Int z => ToString z
  | NaN => "NaN"
  end.

Definition value_to_string (v : value) : string :=
  match v with
  | VNum n => num_to_string n
  | VStr s => s
  end.

Definition num_add (a b : number) : number :=
  match a, b with
  | Int x, Int y => Int (x + y)
  | _, _ => NaN
  end.

Definition num_sub (a b : number) : number :=
  match a, b with
  | Int x, Int y => Int (x - y)
  | _, _ => NaN
  end.

Definition plus (a b : value) : value :=
  match a, b with
  | VNum x, VNum y => VNum (num_add x y)
  | _, _ => VStr (value_to_string a ++ value_to_string b)
  end.

(** [a - b]: always numeric. *)
Definition minus (a b : value) : value :=
  VNum (num_sub (ToNumber a) (ToNumber b)).

(** [Math.round(x)] for the rational [p / 100]: the nearest integer, a tie
    going up. *)
Definition round_hundredths (p : Z) : Z := (p + 50) / 100.

(** [s.split(sep)] for a one-character separator. *)
Fixpoint split (sep : ascii) (s : string) : list string :=
  match s with
  | EmptyString => [EmptyString]
  | String c s' =>
      if Ascii.eqb c sep then EmptyString :: split sep s'
      else match split sep s' with
           | h :: t => String c h :: t
           | [] => [String c EmptyString]
           end
  end.

(** [l.join(sep)], which is also what [String(l)] gives with [sep = ","]. *)
Fixpoint join (sep : ascii) (l : list string) : string :=
  match l with
  | [] => EmptyString
  | [x] => x
  | x :: rest => x ++ String sep (join sep rest)
  end.

(** The white space [parseInt] skips, among the code units below 256. *)
Definition is_space (c : ascii) : bool :=
  let n := char_code c in
  ((9 <=? n) && (n <=? 13)) || (n =? 32) || (n =? 160).

Fixpoint trim_start (s : string) : string :=
  match s with
  | EmptyString => EmptyString
  | String c s' => if is_space c then trim_start s' else s
  end.

Definition hex_digit (c : ascii) : option Z :=
  let n := char_code c in
  if (48 <=? n) && (n <=? 57) then Some (n - 48)
  else if (97 <=? n) && (n <=? 102) then Some (n - 87)
  else if (65 <=? n) && (n <=? 70) then Some (n - 55)
  else None.

Definition is_hex_digit (c : ascii) : bool :=
  match hex_digit c with
  | Some _ => true
  | None => false
  end.

(** Value of the longest prefix of hexadecimal digits, continuing [acc]. *)
Fixpoint hex_prefix (acc : Z) (s : string) : Z :=
  match s with
  | EmptyString => acc
  | String c s' =>
      match hex_digit c with
      | Some d => hex_prefix (16 * acc + d) s'
      | None => acc
      end
  end.

(** [parseInt(s, 16)]: skip white space, read a sign, drop a [0x] prefix,
    then read the longest run of hexadecimal digits; [NaN] if it is empty. *)
Definition parseInt16 (s : string) : number :=
  let s1 := trim_start s in
  let '(sign, s2) :=
    match s1 with
    | String c r =>
        if Ascii.eqb c "-" then (-1, r)
        else if Ascii.eqb c "+" then (1, r)
        else (1, s1)
    | EmptyString => (1, s1)
    end in
  let s3 :=
    match s2 with
    | String z (String x r) =>
        if Ascii.eqb z "0" && (Ascii.eqb x "x" || Ascii.eqb x "X") then r
        else s2
    | _ => s2
    end in
  match s3 with
  | String c _ => if is_hex_digit c then Int (sign * hex_prefix 0 s3) else NaN
  | EmptyString => NaN
  end.

(** [s[i]]: a one-character string, or [undefined]. *)
Definition char_at (s : string) (i : nat) : option ascii := String.get i s.

(** The text a character read by [s[i]] contributes to a concatenation. *)
Definition char_text (c : option ascii) : string :=
  match c with
  | Some a => String a EmptyString
  | None => "undefined"
  end.

(** [s.slice(1)]. *)
Definition slice1 (s : string) : string :=
  match s with
  | EmptyString => EmptyString
  | String _ r => r
  end.

(** [a[i] = x] on an array: past the end the array is extended (the holes
    read back as the empty string, falsy like [undefined]). *)
Fixpoint array_set (l : list string) (i : nat) (x : string) : list string :=
  match i, l with
  | O, [] => [x]
  | O, _ :: t => x :: t
  | S j, [] => EmptyString :: array_set [] j x
  | S j, h :: t => h :: array_set t j x
  end.

(** The members every object inherits from [Object.prototype]. *)
Definition prototype_members : list string :=
  ["constructor"; "hasOwnProperty"; "isPrototypeOf"; "propertyIsEnumerable";
   "toLocaleString"; "toString"; "valueOf"; "__proto__";
   "__defineGetter__"; "__defineSetter__"; "__lookupGetter__";
   "__lookupSetter__"].

Definition is_prototype_member (key : string) : bool :=
  existsb (String.eqb key) prototype_members.

(** What [o[key]] reads on a plain object whose own members are strings: the
    own member, else the member inherited from [Object.prototype] (a function,
    or for [__proto__] the prototype itself: truthy, and no string), else
    [undefined]. *)
Inductive member :=
| Own (s : string)
| Inherited
| Absent.

Definition get_member (o : gmap string string) (key : string) : member :=
  match o !! key with
  | Some s => Own s
  | None => if is_prototype_member key then Inherited else Absent
  end.

(** [o[key] = v] for a string [v]: an own member is replaced or created,
    except that [__proto__], when it is not an own member, is the setter of
    the prototype, which ignores a string. *)
Definition set_member (o : gmap string string) (key v : string)
  : gmap string string :=
  match o !! key with
  | Some _ => <[key := v]> o
  | None => if String.eqb key "__proto__" then o else <[key := v]> o
  end.

(** [`${f.name}`] for the member [key] inherited from [Object.prototype]:
    the functions are named after their key, but for [constructor], which is
    [Object]; the prototype itself has no [name]. *)
Definition inherited_name (key : string) : string :=
  if String.eqb key "constructor" then "Object"
  else if String.eqb key "__proto__" then "undefined"
  else key.

(** The text holds a [%], which starts a conversion of [sprintf]. *)
Fixpoint has_percent (s : string) : bool :=
  match s with
  | EmptyString => false
  | String c r => Ascii.eqb c "%" || has_percent r
  end.

(** The segments of a normalized path, from the segments of the path, the
    segments kept so far being [stack], last first: empty segments and [.]
    are dropped, [..] removes the segment before it, and is kept when there
    is none to remove and the path is relative. *)
Fixpoint normalize_segments (absolute : bool) (stack segs : list string)
  : list string :=
  match segs with
  | [] => rev stack
  | seg :: rest =>
      if String.eqb seg EmptyString || String.eqb seg "." then
        normalize_segments absolute stack rest
      else if String.eqb seg ".." then
        match stack with
        | top :: below =>
            if String.eqb top ".." then
              normalize_segments absolute (seg :: stack) rest
            else normalize_segments absolute below rest
        | [] =>
            if absolute then normalize_segments absolute [] rest
            else normalize_segments absolute [seg] rest
        end
      else normalize_segments absolute (seg :: stack) rest
  end.

Fixpoint ends_with_slash (s : string) : bool :=
  match s with
  | EmptyString => false
  | String c EmptyString => Ascii.eqb c "/"
  | String _ r => ends_with_slash r
  end.

(** [path.normalize(path)] of the POSIX flavour. *)
Definition path_normalize (path : string) : string :=
  match path with
  | EmptyString => "."
  | String c _ =>
      let absolute := Ascii.eqb c "/" in
      let trailing := ends_with_slash path in
      match join "/" (normalize_segments absolute [] (split "/" path)) with
      | EmptyString =>
          if absolute then "/" else if trailing then "./" else "."
      | body =>
          (if absolute then "/" else EmptyString)
            ++ body ++ (if trailing then "/" else EmptyString)
      end
  end.

(** [path.join(a, b)]: the arguments that are not empty, joined by [/] and
    normalized. *)
Definition path_join (a b : string) : string :=
  path_normalize
    (match a, b with
     | EmptyString, _ => b
     | _, EmptyString => a
     | _, _ => a ++ "/" ++ b
     end).

End JS.


Import JS.

(** ** Data model *)

(** JSON documents: state patches, and what [-j] prints. *)
#[local] Set Warnings "-register-all".
Inductive jsonval :=
| JNull
| JBool (b : bool)
| JNumber (n : number)
| JString (s : string)
| JArray (l : list jsonval)
| JObject (fields : list (string * jsonval)).

(** An error object of the bridge: [err.type] and [err.description]. *)
Record bridge_error := { type : Z; description : string }.

(** What the program reads of a light: [name], [state.on], [state.bri]. *)
Record LightState := { on : bool; bri : Z }.
Record Light := { name : string; state : LightState }.

(** The object [client.lights] answers with, in the order of its keys. *)
Abbreviation LightMap := (list (string * Light)).

Fixpoint lookup_light (lights : LightMap) (id : string) : option Light :=
  match lights with
  | [] => None
  | (k, l) :: rest => if String.eqb k id then Some l else lookup_light rest id
  end.

(** [Object.keys(lights)]. *)
Definition keys (lights : LightMap) : list string := map fst lights.

(** The configuration document: [{host, username, colors, alias}].  The two
    tables hold the own members of their objects, names mapped to strings (a
    color in hexadecimal, a comma list of ids); what the objects inherit is
    accounted for where they are read, with [get_member]. *)
Record Config := {
  host : option string;
  username : option string;
  colors : option (gmap string string);
  alias : option (gmap string string)
}.

Definition empty_config : Config :=
  {| host := None; username := None; colors := None; alias := None |}.

(** The copy [deepmerge] makes of a table from version 4.2.2 on: the members
    named like those every object inherits are left out (the guard against
    prototype poisoning).  Earlier versions keep the table as it is. *)
Definition clone_table (t : gmap string string) : gmap string string :=
  filter (fun kv => is_prototype_member (fst kv) = false) t.

Definition json_of_error (e : bridge_error) : jsonval :=
  JObject [("description", JString (description e));
           ("type", JNumber (Int (type e)))].

Definition json_of_light (l : Light) : list (string * jsonval) :=
  [("name", JString (name l));
   ("state", JObject [("on", JBool (on (state l)));
                      ("bri", JNumber (Int (bri (state l))))])].

Definition json_of_lights (lights : LightMap) : jsonval :=
  JObject (map (fun kl => (fst kl, JObject (json_of_light (snd kl)))) lights).

Definition json_of_strings (m : gmap string string) : jsonval :=
  JObject (map (fun kv => (fst kv, JString (snd kv))) (map_to_list m)).

(** What a callback receives next to [err]. *)
Inductive payload :=
| Undefined
| Document (j : jsonval)
| LightsData (lights : LightMap)
| LightData (l : Light)
| Registered (username : string)
| Stations (names : list string).

(** The requests sent to the bridge (and the update check of [-u]). *)
Inductive request :=
| ClientConfig
| ClientLights
| ClientLight (id : string)
| ClientOn (id : string)
| ClientOff (id : string)
| ClientState (id : string) (patch : jsonval)
| ClientRgb (id : string) (r g b : number)
| ClientRegister
| ClientRename (id name : option string)
| HueDiscover
| CheckUpdate.

(** The arguments a callback is called with. *)
Inductive response :=
| Reply (err : option bridge_error) (data : payload)
| Checked (ret : Z) (msg : string)
| Resolved.

(** One line of output: a string, [JSON.stringify(v, null, 2)], or a string
    followed by an inspected object ([console.log(s, v)]). *)
Inductive output :=
| Text (s : string)
| Dump (v : jsonval)
| Inspect (s : string) (v : jsonval).

Inductive event :=
| Stdout (o : output)
| Stderr (o : output)
| CreateClient (stationIp : string) (user : option string)
| Send (r : request).

(** The function literals passed as callbacks, with what they capture. *)
Inductive kont :=
| KImport
| KUpdate
| KConfig
| KGetLights
| KInfo (id : string)
| KBriLight (id op num perc : string)
| KBriState (id : string) (oldbri : Z) (bri : number)
| KBriLights (id : string) (oldbri : Z) (bri : number)
| KCallback (id : string)
| KCallbackLights (id : string)
| KRegister
| KSearch
| KRename.

(** What a path names: a regular file or a directory, or something else
    that can be opened (a FIFO, a device, a socket).  The content is what
    reading gives, [None] when reading is not permitted. *)
Inductive node :=
| RegularFile (content : option string)
| Directory
| Special (content : option string).

(** The process: the file system and standard input it sees, the globals of
    the script, what it wrote, and the callbacks waiting for an answer. *)
Record proc := {
  files : gmap string node;
  stdin : option string;
  config : Config;
  configfile : option string;
  json : bool;
  args : list string;
  csscolors : gmap string string;
  out : list event;
  issued : list request;
  pending : list (kont * response)
}.

(** What lies outside the script: the environment, [package.json], the
    [css-color-names] table, the JSON codec and the bridge, which answers a
    request knowing the requests sent before it; what [deepmerge] leaves of
    a table of the configuration file, which depends on its version; what
    [extsprintf] makes of a format that holds a conversion and comes without
    arguments (the text, or the message of the error thrown); and the error,
    if any, of writing to a path that is no directory ([EACCES], [EROFS],
    ...). *)
Record platform := {
  homedir : string;
  pkg_version : string;
  css_color_names : gmap string string;
  JSON_parse_config : string -> string + Config;
  JSON_parse : string -> string + jsonval;
  JSON_stringify_config : Config -> string;
  bridge : list request -> request -> response;
  deepmerge_table : gmap string string -> gmap string string;
  extsprintf : string -> string + string;
  write_error : string -> option string
}.

(** ** The process monad *)

(** What [throw] carries: an error object of the bridge, or an [Error] of the
    runtime with its [message]. *)
Inductive exn :=
| BridgeError (e : bridge_error)
| Error (message : string).

Definition message (e : exn) : string :=
  match e with
  | BridgeError b => "undefined"
  | Error m => m
  end.

(** A computation returns, ends the process ([process.exit]) or throws. *)
Inductive result (A : Type) :=
| Ok (a : A)
| Exit (code : Z)
| Throw (e : exn).

Arguments Ok {A} a.
Arguments Exit {A} code.
Arguments Throw {A} e.

Definition M (A : Type) : Type := proc -> result A * proc.

Definition ret {A} (a : A) : M A := fun p => (Ok a, p).

Definition bind {A B} (m : M A) (f : A -> M B) : M B :=
  fun p =>
    match m p with
    | (Ok a, p') => f a p'
    | (Exit c, p') => (Exit c, p')
    | (Throw e, p') => (Throw e, p')
    end.

Declare Scope proc_scope.
Delimit Scope proc_scope with proc.
Notation "x <- m ;; k" := (bind m (fun x => k))
  (at level 100, m at next level, right associativity) : proc_scope.
Notation "m ;; k" := (bind m (fun _ => k))
  (at level 100, right associativity) : proc_scope.
Open Scope proc_scope.

Definition process_exit {A} (code : Z) : M A := fun p => (Exit code, p).

Definition throw {A} (e : exn) : M A := fun p => (Throw e, p).

(** [try { body } catch (e) { handler }]: [process.exit] is not caught. *)
Definition try_catch {A} (body : M A) (handler : exn -> M A) : M A :=
  fun p =>
    match body p with
    | (Throw e, p') => handler e p'
    | other => other
    end.

Definition get {A} (f : proc -> A) : M A := fun p => (Ok (f p), p).

Definition emit (e : event) : M unit :=
  fun p =>
    (Ok tt,
     {| files := files p; stdin := stdin p; config := config p;
        configfile := configfile p; json := json p; args := args p;
        csscolors := csscolors p; out := out p ++ [e];
        issued := issued p; pending := pending p |}).

Definition set_files (f : gmap string node) : M unit :=
  fun p =>
    (Ok tt,
     {| files := f; stdin := stdin p; config := config p;
        configfile := configfile p; json := json p; args := args p;
        csscolors := csscolors p; out := out p;
        issued := issued p; pending := pending p |}).

Definition set_config (c : Config) : M unit :=
  fun p =>
    (Ok tt,
     {| files := files p; stdin := stdin p; config := c;
        configfile := configfile p; json := json p; args := args p;
        csscolors := csscolors p; out := out p;
        issued := issued p; pending := pending p |}).

Definition set_configfile (c : option string) : M unit :=
  fun p =>
    (Ok tt,
     {| files := files p; stdin := stdin p; config := config p;
        configfile := c; json := json p; args := args p;
        csscolors := csscolors p; out := out p;
        issued := issued p; pending := pending p |}).

Definition set_json (b : bool) : M unit :=
  fun p =>
    (Ok tt,
     {| files := files p; stdin := stdin p; config := config p;
        configfile := configfile p; json := b; args := args p;
        csscolors := csscolors p; out := out p;
        issued := issued p; pending := pending p |}).

Definition set_args (a : list string) : M unit :=
  fun p =>
    (Ok tt,
     {| files := files p; stdin := stdin p; config := config p;
        configfile := configfile p; json := json p; args := a;
        csscolors := csscolors p; out := out p;
        issued := issued p; pending := pending p |}).

Definition set_csscolors (c : gmap string string) : M unit :=
  fun p =>
    (Ok tt,
     {| files := files p; stdin := stdin p; config := config p;
        configfile := configfile p; json := json p; args := args p;
        csscolors := c; out := out p;
        issued := issued p; pending := pending p |}).

(** Queue a callback with the arguments it will be called with. *)
Definition enqueue (k : kont) (r : response) : M unit :=
  fun p =>
    (Ok tt,
     {| files := files p; stdin := stdin p; config := config p;
        configfile := configfile p; json := json p; args := args p;
        csscolors := csscolors p; out := out p;
        issued := issued p; pending := pending p ++ [(k, r)] |}).

Definition record_request (r : request) : M unit :=
  fun p =>
    (Ok tt,
     {| files := files p; stdin := stdin p; config := config p;
        configfile := configfile p; json := json p; args := args p;
        csscolors := csscolors p; out := out p ++ [Send r];
        issued := issued p ++ [r]; pending := pending p |}).

Definition console_log (o : output) : M unit := emit (Stdout o).
Definition console_info (o : output) : M unit := emit (Stdout o).
Definition console_error (o : output) : M unit := emit (Stderr o).

(** [l.forEach(f)]. *)
Fixpoint forEach {A} (l : list A) (f : A -> M unit) : M unit :=
  match l with
  | [] => ret tt
  | x :: rest => f x ;; forEach rest f
  end.

(** [`${x}`] for a possibly undefined string. *)
Definition opt_text (x : option string) : string :=
  match x with
  | Some s => s
  | None => "undefined"
  end.

Definition newline : string := String "010"%char EmptyString.
Definition dquote : string := String "034"%char EmptyString.

(** [lines.join("\n")]. *)
Definition unlines (l : list string) : string := join "010"%char l.

(** The [TypeError] of a property read on [undefined]. *)
Definition not_an_object {A} (what : string) : M A :=
  throw (Error ("Cannot read properties of undefined (reading '" ++ what ++ "')")).

(** ** The script *)

Section Script.

Context (pf : platform).

(** [sprintf(fmt)] with no argument after the format: a format without [%]
    is returned as it is; one with a [%] is rewritten or refused by the
    library. *)
Definition sprintf (fmt : string) : string + string :=
  if has_percent fmt then extsprintf pf fmt else inr fmt.

(** [printf(s)] is [console.log(sprintf(s))]: the script passes a finished
    template string as the format. *)
Definition printf (s : string) : M unit :=
  match sprintf s with
  | inr text => console_log (Text text)
  | inl msg => throw (Error msg)
  end.

(** [path.join(homedir, ".hue.json")]. *)
Definition defaultconfigfile : string := path_join (homedir pf) ".hue.json".

Definition app : string := "node-hue-cli".

Definition usage : string :=
  unlines [
    "Usage: hue [-c config] [-H host] [--json] [command]";
    EmptyString;
    "control philips hue over the command line";
    EmptyString;
    "examples";
    "  hue config                  # view the hue config";
    "  hue lights                  # get a list of lights";
    "  hue lights 5                # get information about light 5";
    "  hue lights 5,6,7 on         # turn lights 5 6 and 7 on";
    "  hue lights on               # turn all lights on";
    "  hue lights 1 ff0000         # turn light 1 red";
    "  hue lights 1 red            # same as above";
    "  hue lights 1 +10            # increase the brightness by 10 (out of 254)";
    "  hue lights 1 -10            # decrease the brightness by 10 (out of 254)";
    "  hue lights 1 =100           # set the brightness to 100 (out of 254)";
    "  hue lights 1 +10%           # increase the brightness by 10%";
    "  hue lights 1 -10%           # decrease the brightness by 10";
    "  hue lights 1 =100%          # set the brightness to 100%";
    "  hue lights 4,5 colorloop    # enable the colorloop effect on lights 4 and 5";
    "  hue lights 4,5 alert        # blink lights 4 and 5 for 30 seconds";
    "  hue lights 4,5 clear        # clear any effects on lights 4 and 5";
    "  hue lights 1 state          # set the state on light 1 as passed in as JSON over stdin";
    "  hue rename 1 light-name     # set light 1's name to the given string";
    "  hue lights reset            # Reset lamps to default (on, as if just switched)";
    "  hue lights 1,2 reset        # reset just bulbs 1 and 2";
    "  hue help                    # this message";
    "  hue register                # register this app to hue";
    "  hue search                  # search for hue base stations";
    "  hue alias                   # shows all the defined aliases";
    "  hue alias bedroom 8,9,10    # creates an alias allowing `hue lights bedroom on` and so on";
    EmptyString;
    "commands";
    "  config, lights, help, register, search";
    EmptyString;
    "options";
    "  -c, --config <file>    config file, defaults to ~/.hue.json";
    "  -h, --help             print this message and exit";
    "  -H, --host             the hostname or ip of the bridge to control";
    "  -j, --json             force output to be in json";
    "  -u, --updates          check for available updates";
    "  -v, --version          print the version number and exit"
  ].

(** *** File system *)

(** [fs.readFileSync(file, "utf-8")]. *)
Definition readFileSync (file : string) : M string :=
  fs <- get files ;;
  match fs !! file with
  | Some (RegularFile (Some text)) => ret text
  | Some (RegularFile None) =>
      throw (Error ("EACCES: permission denied, open '" ++ file ++ "'"))
  | Some Directory =>
      throw (Error "EISDIR: illegal operation on a directory, read")
  | Some (Special (Some text)) => ret text
  | Some (Special None) =>
      throw (Error ("EACCES: permission denied, open '" ++ file ++ "'"))
  | None =>
      throw (Error ("ENOENT: no such file or directory, open '" ++ file ++ "'"))
  end.

(** [fs.readFileSync("/dev/stdin", "utf-8")]. *)
Definition readStdin : M string :=
  i <- get stdin ;;
  match i with
  | Some text => ret text
  | None => throw (Error "EAGAIN: resource temporarily unavailable, read")
  end.

(** [fs.writeFileSync(file, data)]: a regular file is created or replaced;
    what is written to a FIFO or a device is not kept at the path. *)
Definition writeFileSync (file : option string) (data : string) : M unit :=
  match file with
  | None =>
      throw (Error "The path argument must be of type string")
  | Some f =>
      fs <- get files ;;
      match fs !! f with
      | Some Directory =>
          throw (Error ("EISDIR: illegal operation on a directory, open '"
                        ++ f ++ "'"))
      | other =>
          match write_error pf f with
          | Some msg => throw (Error msg)
          | None =>
              match other with
              | Some (Special _) => ret tt
              | _ => set_files (<[f := RegularFile (Some data)]> fs)
              end
          end
      end
  end.

(** [statPath(path)]: [Some isFile] for the stats of an existing path,
    [None] for [false]. *)
Definition statPath (path : option string) : M (option bool) :=
  fs <- get files ;;
  try_catch
    (match path with
     | None => throw (Error "The path argument must be of type string")
     | Some f =>
         match fs !! f with
         | Some (RegularFile _) => ret (Some true)
         | Some Directory | Some (Special _) => ret (Some false)
         | None =>
             throw (Error ("ENOENT: no such file or directory, stat '"
                           ++ f ++ "'"))
         end
     end)
    (fun ex => ret None).

(** *** Options (lines 85-120) *)

(** What [parser.getopt()] returns: [option.option] and [option.optarg]. *)
Record getopt_option := { option_name : string; optarg : option string }.

(** Send a request: the bridge answers it from the requests it received
    before, and the callback waits for its turn. *)
Definition call (r : request) (k : kont) : M unit :=
  sent <- get issued ;;
  record_request r ;;
  enqueue k (bridge pf sent r).

(** The [while ((option = parser.getopt()) !== undefined)] loop; what the
    parser itself writes about an option it does not know is not the
    script's, and is not recorded. *)
Fixpoint parse_options (opts : list getopt_option) : M unit :=
  match opts with
  | [] => ret tt
  | option :: rest =>
      (let o := option_name option in
       if String.eqb o "c" then set_configfile (optarg option)
       else if String.eqb o "h" then
         console_log (Text usage) ;; process_exit 0
       else if String.eqb o "H" then
         c <- get config ;;
         set_config {| host := optarg option; username := username c;
                       colors := colors c; alias := alias c |}
       else if String.eqb o "j" then set_json true
       else if String.eqb o "u" then enqueue KImport Resolved
       else if String.eqb o "v" then
         console_log (Text (pkg_version pf)) ;; process_exit 0
       else
         console_error (Text usage) ;; process_exit 1) ;;
      parse_options rest
  end.

(** *** Configuration (lines 124-141) *)

(** [deepmerge(readConfig, config)], [config] holding at most the host given
    with [-H]: the keys of the second argument win. *)
Definition deepmerge (readConfig config : Config) : Config :=
  {| host := match host config with Some h => Some h | None => host readConfig end;
     username := match username config with
                 | Some u => Some u
                 | None => username readConfig
                 end;
     colors := match colors config, colors readConfig with
               | Some c, Some r => Some (c ∪ r)
               | Some c, None => Some c
               | None, r => option_map (deepmerge_table pf) r
               end;
     alias := match alias config, alias readConfig with
              | Some c, Some r => Some (c ∪ r)
              | Some c, None => Some c
              | None, r => option_map (deepmerge_table pf) r
              end |}.

Definition parse_config (text : string) : M Config :=
  match JSON_parse_config pf text with
  | inr c => ret c
  | inl msg => throw (Error msg)
  end.

Definition load_config : M unit :=
  try_catch
    (cf <- get configfile ;;
     let file := or_else cf defaultconfigfile in
     set_configfile (Some file) ;;
     text <- readFileSync file ;;
     readConfig <- parse_config text ;;
     c <- get config ;;
     set_config (deepmerge readConfig c))
    (fun e =>
       cf <- get configfile ;;
       if truthy_opt cf then
         console_error
           (Text ("failed to read config " ++ opt_text cf ++ ": " ++ message e)) ;;
         process_exit 1
       else ret tt).

(** Each name of [config.colors] is assigned into [csscolors], one after
    the other. *)
Definition load_colors : M unit :=
  c <- get config ;;
  match colors c with
  | Some cs =>
      table <- get csscolors ;;
      set_csscolors
        (map_fold (fun name hex table => set_member table name hex) table cs)
  | None => ret tt
  end.

(** *** Colors and brightness (lines 278-333 and 479-499) *)

(** [todec(h, i)]: the two characters are concatenated and read in base 16;
    an index past the end of the string reads [undefined]. *)
Definition todec (h i : option ascii) : number :=
  parseInt16 (char_text h ++ char_text i).

(** convert a 3 or 6 character hex string to rgb *)
Definition hex2rgb (hex : string) : number * number * number :=
  let hex :=
    match char_at hex 0 with
    | Some c => if Ascii.eqb c "#" then slice1 hex else hex
    | None => hex
    end in
  if Nat.eqb (String.length hex) 3 then
    (todec (char_at hex 0) (char_at hex 0),
     todec (char_at hex 1) (char_at hex 1),
     todec (char_at hex 2) (char_at hex 2))
  else
    (todec (char_at hex 0) (char_at hex 1),
     todec (char_at hex 2) (char_at hex 3),
     todec (char_at hex 4) (char_at hex 5)).

(** [hex2rgb] of a value that is no string but a function or an object with
    no indexed member: every [hex[i]] is [undefined], whatever its [length]
    selects. *)
Definition hex2rgb_inherited : number * number * number :=
  (todec None None, todec None None, todec None None).

(** The longest run of decimal digits at the start of [s], and the rest. *)
Fixpoint span_digits (s : string) : string * string :=
  match s with
  | EmptyString => (EmptyString, EmptyString)
  | String c r =>
      if is_digit c then
        let '(d, t) := span_digits r in (String c d, t)
      else (EmptyString, s)
  end.

(** [s.match(/^([-+=])([0-9]+)(%?)$/)]: the three groups. *)
Definition brightness_match (s : string) : option (string * string * string) :=
  match s with
  | EmptyString => None
  | String c r =>
      if Ascii.eqb c "-" || Ascii.eqb c "+" || Ascii.eqb c "=" then
        let '(num, perc) := span_digits r in
        if truthy num && (String.eqb perc EmptyString || String.eqb perc "%")
        then Some (String c EmptyString, num, perc)
        else None
      else None
  end.

(** [Math.round(num * (254 / 100))], [num] being the string of digits. *)
Definition percent (num : string) : number :=
  match StringToNumber num with
  | Int n => Int (round_hundredths (n * 254))
  | NaN => NaN
  end.

(** The [switch (op)] of lines 296-309, from the current [bri]. *)
Definition apply_op (op num perc : string) (bri : value) : value :=
  if String.eqb op "=" then
    if truthy perc then VNum (percent num) else VStr num
  else if String.eqb op "+" then
    if truthy perc then plus bri (VNum (percent num)) else plus bri (VStr num)
  else if String.eqb op "-" then
    if truthy perc then minus bri (VNum (percent num)) else minus bri (VStr num)
  else bri.

(** [Math.min(254, Math.max(1, bri))]. *)
Definition clamp (bri : value) : number :=
  Math_min (Int 254) (Math_max (Int 1) (ToNumber bri)).

(** The brightness sent for a light whose current brightness is [current]. *)
Definition new_brightness (op num perc : string) (current : Z) : number :=
  clamp (apply_op op num perc (VNum (Int current))).

(** *** Selection (lines 171-210) *)

Definition is_case (x : option string) (label : string) : bool :=
  match x with
  | Some s => String.eqb s label
  | None => false
  end.

(** The [TypeError] of [config.alias[l].split(",")] when the member read is
    no string. *)
Definition split_is_not_a_function : exn :=
  Error "config.alias[l].split is not a function".

(** The [switch (l[0])]: the new [l] and the new [args], or the exception of
    its default case.  The key of [config.alias[l]] is the list as a string,
    its elements joined by commas. *)
Definition shortcut_switch (keys l args : list string) (cfg : Config)
  : exn + list string * list string :=
  let l0 := l !! 0%nat in
  if is_case l0 "all" then inr (keys, args)
  else if is_case l0 "on" then inr (keys, array_set args 2 "on")
  else if is_case l0 "off" then inr (keys, array_set args 2 "off")
  else if is_case l0 "colorloop" then inr (keys, array_set args 2 "colorloop")
  else if is_case l0 "alert" then inr (keys, array_set args 2 "alert")
  else if is_case l0 "clear" then inr (keys, array_set args 2 "clear")
  else if is_case l0 "reset" then inr (keys, array_set args 2 "reset")
  else if is_case l0 "state" then inr (keys, array_set args 2 "state")
  else
    match alias cfg with
    | Some a =>
        match get_member a (join "," l) with
        | Own ids =>
            if truthy ids then inr (split "," ids, args) else inr (l, args)
        | Inherited => inl split_is_not_a_function
        | Absent => inr (l, args)
        end
    | None => inr (l, args)
    end.

(** *** Clients (lines 437-477) *)

(** wrapper around get client to error on failure *)
Definition getclient : M unit :=
  c <- get config ;;
  (if negb (truthy_opt (host c)) then
     console_error
       (Text (unlines ["error: host not set";
                       EmptyString;
                       "search for hosts with `hue search`";
                       "then run with `-H <host>`"])) ;;
     process_exit 1
   else ret tt) ;;
  emit (CreateClient (opt_text (host c)) (username c)).

(** wrapper around get lights to error on failure: the callback is
    [KGetLights]. *)
Definition getlights : M unit := call ClientLights KGetLights.

(** *** The lights command (lines 159-363) *)

Definition patch_colorloop : jsonval :=
  JObject [("effect", JString "colorloop")].
Definition patch_alert : jsonval :=
  JObject [("alert", JString "lselect")].
Definition patch_clear : jsonval :=
  JObject [("effect", JString "none"); ("alert", JString "none")].
Definition patch_reset : jsonval :=
  JObject [("on", JBool true); ("bri", JNumber (Int 254));
           ("effect", JString "none"); ("alert", JString "none");
           ("ct", JNumber (Int 370))].
Definition patch_bri (bri : number) : jsonval :=
  JObject [("bri", JNumber bri)].

Definition parse_json (text : string) : M jsonval :=
  match JSON_parse pf text with
  | inr v => ret v
  | inl msg => throw (Error msg)
  end.

(** The [switch (args[2])] of lines 229-334. *)
Definition action_switch (l : list string) (action : string) : M unit :=
  if String.eqb action "off" then
    forEach l (fun id => call (ClientOff id) (KCallback id))
  else if String.eqb action "on" then
    forEach l (fun id => call (ClientOn id) (KCallback id))
  else if String.eqb action "colorloop" then
    forEach l (fun id => call (ClientState id patch_colorloop) (KCallback id))
  else if String.eqb action "alert" then
    forEach l (fun id => call (ClientState id patch_alert) (KCallback id))
  else if String.eqb action "clear" then
    forEach l (fun id => call (ClientState id patch_clear) (KCallback id))
  else if String.eqb action "reset" then
    forEach l (fun id => call (ClientState id patch_reset) (KCallback id))
  else if String.eqb action "state" then
    try_catch
      (console_log (Text "Reading state data from stdin...") ;;
       text <- readStdin ;;
       data <- parse_json text ;;
       console_log (Inspect "State data read from stdin:" data) ;;
       forEach l (fun id =>
         console_log
           (Inspect ("Setting state for light " ++ id ++ " with data:") data) ;;
         call (ClientState id data) (KCallback id)))
      (fun e =>
         console_error
           (Text ("Failed to read or parse state data from stdin: "
                  ++ message e)) ;;
         process_exit 1)
  else
    let s := action in
    match brightness_match s with
    | Some (op, num, perc) =>
        forEach l (fun id => call (ClientLight id) (KBriLight id op num perc))
    | None =>
        table <- get csscolors ;;
        let '(r, g, b) :=
          match get_member table s with
          | Own hex => hex2rgb (if truthy hex then hex else s)
          | Inherited => hex2rgb_inherited
          | Absent => hex2rgb s
          end in
        forEach l (fun id => call (ClientRgb id r g b) (KCallback id))
    end.

(** The callback of [getlights] in the lights command. *)
Definition lights_command (lights : LightMap) : M unit :=
  let keys := keys lights in
  a <- get args ;;
  j <- get json ;;
  if negb (truthy_opt (a !! 1%nat)) then
    if j then console_log (Dump (json_of_lights lights))
    else
      forEach keys (fun key =>
        match lookup_light lights key with
        | Some light => printf (key ++ ", " ++ name light)
        | None => not_an_object "name"
        end)
  else
    c <- get config ;;
    match shortcut_switch keys (split "," (opt_text (a !! 1%nat))) a c with
    | inl e => throw e
    | inr (l, a') =>
        set_args a' ;;
        if negb (truthy_opt (a' !! 2%nat)) then
          forEach l (fun id => call (ClientLight id) (KInfo id))
        else action_switch l (opt_text (a' !! 2%nat))
    end.

(** *** Callbacks *)

Definition err_of (r : response) : option bridge_error :=
  match r with
  | Reply err _ => err
  | _ => None
  end.

Definition data_of (r : response) : payload :=
  match r with
  | Reply _ data => data
  | _ => Undefined
  end.

Definition json_of_payload (d : payload) : option jsonval :=
  match d with
  | Undefined => None
  | Document j => Some j
  | LightsData lights => Some (json_of_lights lights)
  | LightData l => Some (JObject (json_of_light l))
  | Registered u =>
      Some (JArray [JObject [("success", JObject [("username", JString u)])]])
  | Stations names => Some (JArray (map JString names))
  end.

(** [err || data], as [JSON.stringify] sees it. *)
Definition err_or (err : option bridge_error) (data : option jsonval)
  : option jsonval :=
  match err with
  | Some e => Some (json_of_error e)
  | None => data
  end.

(** [console.log(JSON.stringify(v, null, 2))]; [undefined] is printed as
    the word. *)
Definition log_json (v : option jsonval) : M unit :=
  match v with
  | Some j => console_log (Dump j)
  | None => console_log (Text "undefined")
  end.

(** [`${id} "error" ${err.description} (type ${err.type})`]. *)
Definition error_line (id : string) (err : bridge_error) : string :=
  id ++ " " ++ dquote ++ "error" ++ dquote ++ " " ++ description err
     ++ " (type " ++ ToString (type err) ++ ")".

(** [lights[id] ? lights[id].name : `light ${id}`], as the template strings
    print it: an id that names a member inherited from [Object.prototype]
    finds that member. *)
Definition lightName_of (lights : LightMap) (id : string) : string :=
  match lookup_light lights id with
  | Some l => name l
  | None =>
      if is_prototype_member id then inherited_name id else "light " ++ id
  end.

(** [lightState.on], [lightState] being [lights[id].state] or a string;
    [None] when it is [undefined], the state of an inherited member. *)
Definition lightState_on (lights : LightMap) (id : string) : option bool :=
  match lookup_light lights id with
  | Some l => Some (on (state l))
  | None => if is_prototype_member id then None else Some false
  end.

(** The body of the function literal named by [k], called with [r]. *)
Definition handle (k : kont) (r : response) : M unit :=
  let err := err_of r in
  let data := data_of r in
  match k with
  | KImport => call CheckUpdate KUpdate
  | KUpdate =>
      match r with
      | Checked code msg => console_log (Text msg) ;; process_exit code
      | _ => not_an_object "then"
      end
  | KConfig => log_json (err_or err (json_of_payload data))
  | KGetLights =>
      match err with
      | Some e =>
          if type e =? 1 then
            console_error
              (Text "error: application not registered, run `hue register` first") ;;
            process_exit 1
          else
            console_info (Text "Service unavailable. Please try again later.") ;;
            process_exit 1
      | None =>
          match data with
          | LightsData lights => lights_command lights
          | _ => throw (Error "Cannot convert undefined or null to object")
          end
      end
  | KInfo id =>
      j <- get json ;;
      let data_id :=
        match data with
        | LightData l => Some (JObject (json_of_light l ++ [("id", JString id)]))
        | other => json_of_payload other
        end in
      if j then log_json (err_or err data_id)
      else
        match err with
        | Some e => printf (error_line id e)
        | None =>
            match data with
            | LightData l =>
                printf (id ++ " " ++ (if on (state l) then "on" else "off")
                           ++ " " ++ ToString (bri (state l)) ++ " " ++ name l)
            | _ => not_an_object "state"
            end
        end
  | KBriLight id op num perc =>
      j <- get json ;;
      match err with
      | Some e =>
          if j then log_json (err_or err (json_of_payload data))
          else printf (error_line id e)
      | None =>
          match data with
          | LightData l =>
              let oldbri := bri (state l) in
              let bri := new_brightness op num perc oldbri in
              call (ClientState id (patch_bri bri)) (KBriState id oldbri bri)
          | _ => not_an_object "state"
          end
      end
  | KBriState id oldbri bri =>
      j <- get json ;;
      if j then log_json (err_or err (json_of_payload data))
      else
        match err with
        | Some e => printf (error_line id e)
        | None => call ClientLights (KBriLights id oldbri bri)
        end
  | KBriLights id oldbri bri =>
      match data with
      | LightsData lights =>
          console_log
            (Text ("💡 " ++ lightName_of lights id ++ " Brightness Updated: "
                   ++ ToString oldbri ++ " → " ++ num_to_string bri))
      | _ => not_an_object id
      end
  | KCallback id =>
      (* function (err): the argument is shadowed by the one of the callback
         of client.lights below *)
      call ClientLights (KCallbackLights id)
  | KCallbackLights id =>
      match err with
      | Some e => throw (BridgeError e)
      | None => ret tt
      end ;;
      match data with
      | LightsData lights =>
          let lightName := lightName_of lights id in
          let lightOn := lightState_on lights id in
          j <- get json ;;
          a <- get args ;;
          if j then
            log_json (Some (match err with
                            | Some e => json_of_error e
                            | None => JNull
                            end))
          else
            match err with
            | Some e =>
                console_error (Text (lightName ++ " failed: " ++ description e))
            | None =>
                let act := a !! 2%nat in
                if is_case act "on" || is_case act "off" then
                  match lightOn with
                  | Some lit =>
                      console_log
                        (Text ((if lit then "💡" else "🌑") ++ " " ++ lightName
                               ++ " was turned " ++ (if lit then "on" else "off")))
                  | None => not_an_object "on"
                  end
                else if is_case act "reset" then
                  console_log (Text (lightName ++ " reset to default state"))
                else if is_case act "colorloop" then
                  console_log (Text (lightName ++ " color loop started"))
                else if is_case act "alert" then
                  console_log (Text (lightName ++ " alert started"))
                else if is_case act "clear" then
                  console_log (Text (lightName ++ " effects cleared"))
                else if is_case act "state" then
                  console_log (Text (lightName ++ " state changed"))
                else
                  console_log (Text (lightName ++ " color changed"))
            end
      | _ => not_an_object id
      end
  | KRegister =>
      match err with
      | Some e =>
          c <- get config ;;
          console_error
            (Text ("failed to pair to Hue Base Station " ++ opt_text (host c))) ;;
          throw (BridgeError e)
      | None =>
          console_log (Text "Hue Base Station paired!") ;;
          match data with
          | Registered u =>
              console_log (Text ("username: " ++ u)) ;;
              c <- get config ;;
              let c' := {| host := host c; username := Some u;
                           colors := colors c; alias := alias c |} in
              set_config c' ;;
              (* writing config file *)
              let s := JSON_stringify_config pf c' in
              cf <- get configfile ;;
              writeFileSync cf (s ++ newline) ;;
              console_log (Text ("config file written to " ++ opt_text cf))
          | _ => not_an_object "0"
          end
      end
  | KSearch =>
      j <- get json ;;
      match data with
      | Stations stations =>
          if j then log_json (json_of_payload data)
          else
            match stations with
            | [] =>
                console_log
                  (Text "No stations found. Check your network connection.")
            | [station] => console_log (Text ("1 station found: " ++ station))
            | _ =>
                console_log
                  (Text (ToString (Z.of_nat (length stations))
                         ++ " stations found: " ++ newline)) ;;
                forEach (imap (fun i nm => (i, nm)) stations) (fun inm =>
                  console_log
                    (Text (ToString (Z.of_nat (fst inm) + 1) ++ ": " ++ snd inm)))
            end
      | _ => if j then log_json (json_of_payload data) else not_an_object "length"
      end
  | KRename =>
      (* function (reply) *)
      match err with
      | Some reply =>
          console_log (Text ("problem renaming light: " ++ description reply))
      | None =>
          a <- get args ;;
          console_log (Text ("light " ++ opt_text (a !! 1%nat) ++ " renamed"))
      end
  end.

(** *** The command switch (lines 143-435) *)

Definition command_register : M unit :=
  (* Check for existing config *)
  cf <- get configfile ;;
  existingconfig <- statPath cf ;;
  (match existingconfig with
   | Some true =>
       console_log (Text ("A config file already exists at " ++ opt_text cf)) ;;
       console_log
         (Text "please remove it before attempting to register a new hub") ;;
       process_exit 1
   | _ => ret tt
   end) ;;
  (* Attempt to pair with hue hub *)
  getclient ;;
  console_log (Text "Please go and press the link button on your base station") ;;
  call ClientRegister KRegister.

Definition command_alias : M unit :=
  c <- get config ;;
  let a := match alias c with Some a => a | None => ∅ end in
  let c := {| host := host c; username := username c;
              colors := colors c; alias := Some a |} in
  set_config c ;;
  av <- get args ;;
  if Nat.eqb (length av) 1 then console_log (Dump (json_of_strings a))
  else if Nat.eqb (length av) 3 then
    let c' := {| host := host c; username := username c; colors := colors c;
                 alias := Some (set_member a (opt_text (av !! 1%nat))
                                           (opt_text (av !! 2%nat))) |} in
    set_config c' ;;
    (* writing config file *)
    let s := JSON_stringify_config pf c' in
    cf <- get configfile ;;
    writeFileSync cf (s ++ newline) ;;
    console_log (Text ("config in " ++ opt_text cf ++ " updated"))
  else
    console_error (Text "wrong usage of alias, run `hue help`") ;;
    process_exit 1.

Definition command : M unit :=
  a <- get args ;;
  let c := a !! 0%nat in
  if is_case c "config" then
    getclient ;; call ClientConfig KConfig
  else if is_case c "help" then console_log (Text usage)
  else if is_case c "lights" || is_case c "light" || is_case c "list" then
    getclient ;; getlights
  else if is_case c "register" then command_register
  else if is_case c "alias" then command_alias
  else if is_case c "search" then call HueDiscover KSearch
  else if is_case c "rename" then
    getclient ;; call (ClientRename (a !! 1%nat) (a !! 2%nat)) KRename
  else
    console_error
      (Text "unknown command: run `hue help` for more information") ;;
    process_exit 1.

(** The script from its first statement to its last. *)
Definition main (opts : list getopt_option) : M unit :=
  parse_options opts ;;
  load_config ;;
  load_colors ;;
  command.

(** *** The event loop *)

Fixpoint run_callbacks (q : list (kont * response)) : M unit :=
  match q with
  | [] => ret tt
  | (k, r) :: rest => handle k r ;; run_callbacks rest
  end.

Definition take_pending : M (list (kont * response)) :=
  fun p =>
    (Ok (pending p),
     {| files := files p; stdin := stdin p; config := config p;
        configfile := configfile p; json := json p; args := args p;
        csscolors := csscolors p; out := out p;
        issued := issued p; pending := [] |}).

(** The callbacks run in the order in which their requests were sent; those
    they queue run after the ones already waiting. *)
Fixpoint event_loop (rounds : nat) : M unit :=
  match rounds with
  | O => ret tt
  | S n =>
      q <- take_pending ;;
      match q with
      | [] => ret tt
      | _ => run_callbacks q ;; event_loop n
      end
  end.

(** No chain of callbacks is longer than four. *)
Definition max_rounds : nat := 5.

Definition start (fs : gmap string node) (input : option string)
    (argv : list string) : proc :=
  {| files := fs; stdin := input; config := empty_config;
     configfile := None; json := false; args := argv;
     csscolors := css_color_names pf; out := [];
     issued := []; pending := [] |}.

(** [hue] run on the options and operands of its command line. *)
Definition hue (opts : list getopt_option) (argv : list string)
    (fs : gmap string node) (input : option string) : result unit * proc :=
  (main opts ;; event_loop max_rounds) (start fs input argv).

End Script.

(** The exit status of the process: an uncaught exception ends it with 1. *)
Definition exit_code (r : result unit) : Z :=
  match r with
  | Ok _ => 0
  | Exit c => c
  | Throw _ => 1
  end.

Definition stdout_of (p : proc) : list output :=
  omap (fun e => match e with Stdout o => Some o | _ => None end) (out p).

Definition stderr_of (p : proc) : list output :=
  omap (fun e => match e with Stderr o => Some o | _ => None end) (out p).

Definition sent_of (p : proc) : list request :=
  omap (fun e => match e with Send r => Some r | _ => None end) (out p).

(** ** Vocabulary of the properties *)

Fixpoint all_digits (s : string) : bool :=
  match s with
  | EmptyString => true
  | String c r => is_digit c && all_digits r
  end.

(** The clamp to the range of a brightness, on integers. *)
Definition clampZ (z : Z) : Z := Z.min 254 (Z.max 1 z).

(** The brightness the specification describes: the operator applied to the
    magnitude [n], converted first when it is a percentage, then clamped. *)
Module Spec.

Definition magnitude (n : Z) (percentage : bool) : Z :=
  if percentage then round_hundredths (n * 254) else n.

Definition brightness (op : string) (n : Z) (percentage : bool) (current : Z)
  : Z :=
  let m := magnitude n percentage in
  clampZ (if String.eqb op "=" then m
          else if String.eqb op "+" then current + m
          else current - m).

End Spec.

(** The keywords the selector switch knows. *)
Definition shortcuts : list string :=
  ["all"; "on"; "off"; "colorloop"; "alert"; "clear"; "reset"; "state"].

Definition is_shortcut (s : string) : bool := existsb (String.eqb s) shortcuts.

(** [config.alias || {}]: the aliases that are configured. *)
Definition aliases (cfg : Config) : gmap string string :=
  match alias cfg with
  | Some a => a
  | None => ∅
  end.

(** The ids a selector that is no shortcut stands for: those of the alias it
    names, when there is one with a list that is not empty, and else its own
    elements. *)
Definition selection_of (cfg : Config) (selector : string) : list string :=
  match aliases cfg !! selector with
  | Some ids => if truthy ids then split "," ids else split "," selector
  | None => split "," selector
  end.

(** The selector is looked up without an exception: there is no alias
    table, or the table defines the name, or the name is not one that objects
    inherit. *)
Definition looked_up (cfg : Config) (selector : string) : Prop :=
  alias cfg = None \/ aliases cfg !! selector <> None \/
  is_prototype_member selector = false.

(** The actions with a case of their own in the action switch. *)
Definition action_keywords : list string :=
  ["off"; "on"; "colorloop"; "alert"; "clear"; "reset"; "state"].

Definition is_action_keyword (s : string) : bool :=
  existsb (String.eqb s) action_keywords.

(** The line of a light in the listing: [`${key}, ${lights[key].name}`]. *)
Definition listing_line (kl : string * Light) : string :=
  fst kl ++ ", " ++ name (snd kl).

(** What the bridge answers a listing of the lights with: the lights, or
    nothing when it reports an error. *)
Definition listing_answer (d : payload) : Prop :=
  match d with
  | Undefined | LightsData _ => True
  | _ => False
  end.

(** The RGB requests the color branch sends to the lights [l]. *)
Definition rgb_requests (rgb : number * number * number) (l : list string)
  : list event :=
  map (fun id => Send (ClientRgb id (fst (fst rgb)) (snd (fst rgb)) (snd rgb)))
      l.

(** The outcome of reading and parsing the file at a path: the message of
    the error, or the configuration. *)
Definition config_at (pf : platform) (fs : gmap string node) (file : string)
  : string + Config :=
  match fs !! file with
  | Some (RegularFile (Some text)) => JSON_parse_config pf text
  | Some (RegularFile None) =>
      inl ("EACCES: permission denied, open '" ++ file ++ "'")
  | Some Directory => inl "EISDIR: illegal operation on a directory, read"
  | Some (Special (Some text)) => JSON_parse_config pf text
  | Some (Special None) =>
      inl ("EACCES: permission denied, open '" ++ file ++ "'")
  | None => inl ("ENOENT: no such file or directory, open '" ++ file ++ "'")
  end.

(** The lines [register] ends on: the refusal when the file at the path of
    the configuration is a configuration, the failure to read it otherwise. *)
Definition register_lines (pf : platform) (fs : gmap string node)
    (file : string) : list event :=
  match config_at pf fs file with
  | inr _ =>
      [Stdout (Text ("A config file already exists at " ++ file));
       Stdout (Text "please remove it before attempting to register a new hub")]
  | inl msg =>
      [Stderr (Text ("failed to read config " ++ file ++ ": " ++ msg))]
  end.

(** The double-precision computation of [Math.round(num * (254 / 100))],
    to compare with [percent]: [Math.round] of a finite double is the floor
    of the double plus one half, computed exactly from its mantissa and
    exponent. *)
Module Binary64.

Definition Math_round (x : float) : option Z :=
  match Prim2SF x with
  | S754_zero _ => Some 0
  | S754_finite s m e =>
      let v := if s then Z.neg m else Z.pos m in
      Some (if 0 <=? e then v * 2 ^ e
            else (2 * v + 2 ^ (- e)) / (2 * 2 ^ (- e)))
  | _ => None
  end.

Definition of_Z (n : Z) : float := PrimFloat.of_uint63 (Uint63.of_Z n).

Definition percent (n : Z) : option Z :=
  Math_round (PrimFloat.mul (of_Z n) (PrimFloat.div (of_Z 254) (of_Z 100))).

Definition agrees (n : Z) : bool :=
  match percent n with
  | Some v => v =? round_hundredths (n * 254)
  | None => false
  end.

End Binary64.

(** Network activity: creating the client, and sending a request. *)
Definition is_network (e : event) : bool :=
  match e with
  | CreateClient _ _ | Send _ => true
  | Stdout _ | Stderr _ => false
  end.

Definition network_of (p : proc) : list event := List.filter is_network (out p).

(** A necessary condition for a text to be a JSON document: its first
    character that is not white space starts a JSON value. *)
Definition starts_json_value (s : string) : bool :=
  match trim_start s with
  | String c _ =>
      is_digit c
      || existsb (Ascii.eqb c) ["{"; "["; "034"; "-"; "t"; "f"; "n"]%char
  | EmptyString => false
  end.

Definition may_be_json (o : output) : bool :=
  match o with
  | Dump _ => true
  | Text s => starts_json_value s
  | Inspect s _ => starts_json_value s
  end.

(** How many callbacks can still follow the one named by [k]. *)
Definition rank (k : kont) : nat :=
  match k with
  | KGetLights => 3
  | KBriLight _ _ _ _ => 2
  | KImport | KBriState _ _ _ | KCallback _ => 1
  | _ => 0
  end.

(** The callbacks a computation queues all have a rank below [n]. *)
Definition queues_below (n : nat) (p q : proc) : Prop :=
  exists added,
    pending q = (pending p ++ added)%list /\
    Forall (fun kr => (rank (fst kr) < n)%nat) added.

(** Files, operands and network activity are left as they were. *)
Definition untouched (p q : proc) : Prop :=
  files q = files p /\ args q = args p /\ network_of q = network_of p.

(** The output is only ever extended. *)
Definition appends (p q : proc) : Prop :=
  exists added, out q = (out p ++ added)%list.

(** [m] relates every state to the state it leaves. *)
Definition keeps (R : proc -> proc -> Prop) {A} (m : M A) : Prop :=
  forall p, R p (snd (m p)).

(** A channel value a byte can hold. *)
Definition is_byte (n : number) : Prop :=
  match n with
  | Int z => 0 <= z <= 255
  | NaN => False
  end.

(** The string made of six characters. *)
Definition six (a b c d e f : ascii) : string :=
  String a (String b (String c (String d (String e (String f EmptyString))))).

(** [hex[0] === "#"]. *)
Definition starts_with_sharp (hex : string) : bool :=
  match char_at hex 0 with
  | Some c => Ascii.eqb c "#"
  | None => false
  end.

Definition red (rgb : number * number * number) : number := fst (fst rgb).
Definition green (rgb : number * number * number) : number := snd (fst rgb).
Definition blue (rgb : number * number * number) : number := snd rgb.

(** The commands that need a client. *)
Definition client_commands : list string :=
  ["config"; "lights"; "light"; "list"; "rename"].

(** The commands the command switch has a case for. *)
Definition commands : list string :=
  ["config"; "help"; "lights"; "light"; "list"; "register"; "alias";
   "search"; "rename"].

(** The first operand names a command. *)
Definition known_command (c : option string) : bool :=
  match c with
  | Some s => existsb (String.eqb s) commands
  | None => false
  end.

Definition host_not_set : event :=
  Stderr (Text (unlines ["error: host not set";
                         EmptyString;
                         "search for hosts with `hue search`";
                         "then run with `-H <host>`"])).

Definition unknown_command : event :=
  Stderr (Text "unknown command: run `hue help` for more information").

(** The line the listing ends on when the bridge refuses it. *)
Definition listing_failure (e : bridge_error) : event :=
  if type e =? 1 then
    Stderr (Text "error: application not registered, run `hue register` first")
  else Stdout (Text "Service unavailable. Please try again later.").

(** A command followed by the callbacks it queues. *)
Definition run (pf : platform) (m : M unit) : M unit :=
  bind m (fun _ => event_loop pf max_rounds).

(** The first element of the comma list of a selector is a shortcut. *)
Definition selector_is_shortcut (selector : string) : bool :=
  match split "," selector with
  | kw :: _ => is_shortcut kw
  | [] => false
  end.

(** The outcome of reading and parsing standard input: the message of the
    error, or the document. *)
Definition document_at (pf : platform) (input : option string)
  : string + jsonval :=
  match input with
  | Some text => JSON_parse pf text
  | None => inl "EAGAIN: resource temporarily unavailable, read"
  end.

(** What the [state] action writes and sends for one light. *)
Definition state_events (data : jsonval) (id : string) : list event :=
  [Stdout (Inspect ("Setting state for light " ++ id ++ " with data:") data);
   Send (ClientState id data)].

(** What [getopt] returns for [-H host]. *)
Definition option_H (h : string) : getopt_option :=
  {| option_name := "H"; optarg := Some h |}.

(** What [getopt] returns for [-c file]. *)
Definition option_c (file : string) : getopt_option :=
  {| option_name := "c"; optarg := Some file |}.

(** What an option does to the process when it ends it: the status and the
    line written; [None] for the options that let the script go on. *)
Definition option_exit (pf : platform) (o : getopt_option)
  : option (Z * event) :=
  let n := option_name o in
  if String.eqb n "h" then Some (0, Stdout (Text usage))
  else if String.eqb n "v" then Some (0, Stdout (Text (pkg_version pf)))
  else if String.eqb n "c" || String.eqb n "H" || String.eqb n "j"
          || String.eqb n "u" then None
  else Some (1, Stderr (Text usage)).

Definition goes_on (pf : platform) (o : getopt_option) : bool :=
  match option_exit pf o with
  | None => true
  | Some _ => false
  end.

(** The lines [search] prints for the stations found. *)
Definition search_lines (stations : list string) : list string :=
  match stations with
  | [] => ["No stations found. Check your network connection."]
  | [station] => ["1 station found: " ++ station]
  | _ =>
      (ToString (Z.of_nat (length stations)) ++ " stations found: " ++ newline)
      :: imap (fun i nm => ToString (Z.of_nat i + 1) ++ ": " ++ nm) stations
  end.

(** The request of the keyword actions (lines 230-262): [client.off],
    [client.on], or [client.state] with the patch of the keyword. *)
Definition switch_keywords : list string :=
  ["on"; "off"; "colorloop"; "alert"; "clear"; "reset"].

Definition keyword_request (kw id : string) : request :=
  if String.eqb kw "off" then ClientOff id
  else if String.eqb kw "on" then ClientOn id
  else if String.eqb kw "colorloop" then ClientState id patch_colorloop
  else if String.eqb kw "alert" then ClientState id patch_alert
  else if String.eqb kw "clear" then ClientState id patch_clear
  else ClientState id patch_reset.

(** ** A household to run the script on *)

Module Home.

Definition desk : Light :=
  {| name := "desk"; state := {| on := true; bri := 5 |} |}.
Definition bed : Light :=
  {| name := "bed"; state := {| on := false; bri := 200 |} |}.

Definition lamps : LightMap := [("1", desk); ("2", bed)].

Definition unreachable : bridge_error :=
  {| type := 201; description := "parameter, on, is not modifiable" |}.

(** A bridge whose light 1 refuses to be switched, and which is otherwise
    well. *)
Definition hub (sent : list request) (r : request) : response :=
  match r with
  | ClientLights => Reply None (LightsData lamps)
  | ClientLight id =>
      match lookup_light lamps id with
      | Some l => Reply None (LightData l)
      | None =>
          Reply (Some {| type := 3; description := "resource not available" |})
                Undefined
      end
  | ClientOn id | ClientOff id =>
      if String.eqb id "1" then Reply (Some unreachable) Undefined
      else Reply None Undefined
  | HueDiscover => Reply None (Stations ["192.168.1.2"])
  | CheckUpdate => Checked 0 "you are up to date"
  | _ => Reply None Undefined
  end.

Definition settings : Config :=
  {| host := Some "192.168.1.2"; username := Some "newdeveloper";
     colors := None; alias := None |}.

Definition quoted (s : string) : string := dquote ++ s ++ dquote.

Definition settings_text : string :=
  "{" ++ quoted "host" ++ ":" ++ quoted "192.168.1.2" ++ ","
      ++ quoted "username" ++ ":" ++ quoted "newdeveloper" ++ "}".

Definition power_on_text : string := "{" ++ quoted "on" ++ ":true}".

Definition pf : platform :=
  {| homedir := "/home/hue";
     pkg_version := "1.2.0";
     css_color_names := {[ "red" := "#ff0000" ]};
     JSON_parse_config := fun text =>
       if String.eqb text settings_text then inr settings
       else inl "Unexpected token in JSON";
     JSON_parse := fun text =>
       if String.eqb text power_on_text then inr (JObject [("on", JBool true)])
       else inl "Unexpected token in JSON";
     JSON_stringify_config := fun _ => settings_text;
     bridge := hub;
     deepmerge_table := clone_table;
     extsprintf := fun fmt =>
       inl ("format string " ++ quoted fmt
            ++ ": conversion has no matching argument");
     write_error := fun _ => None |}.

(** A file system with the configuration file at its default place. *)
Definition disk : gmap string node :=
  {[ "/home/hue/.hue.json" := RegularFile (Some settings_text) ]}.

Definition option_j : getopt_option :=
  {| option_name := "j"; optarg := None |}.

End Home.

(** Other bridges for the same household, and the process as it is once the
    configuration of the household is loaded. *)
Module Lab.

Definition platform_with (b : list request -> request -> response) : platform :=
  {| homedir := homedir Home.pf;
     pkg_version := pkg_version Home.pf;
     css_color_names := css_color_names Home.pf;
     JSON_parse_config := JSON_parse_config Home.pf;
     JSON_parse := JSON_parse Home.pf;
     JSON_stringify_config := JSON_stringify_config Home.pf;
     bridge := b;
     deepmerge_table := deepmerge_table Home.pf;
     extsprintf := extsprintf Home.pf;
     write_error := write_error Home.pf |}.

Definition unregistered : bridge_error :=
  {| type := 1; description := "unauthorized user" |}.

(** A bridge that knows no user. *)
Definition locked (sent : list request) (r : request) : response :=
  Reply (Some unregistered) Undefined.

Definition ready (cfg : Config) (argv : list string) (input : option string)
    (j : bool) : proc :=
  {| files := Home.disk; stdin := input; config := cfg;
     configfile := Some "/home/hue/.hue.json"; json := j; args := argv;
     csscolors := css_color_names Home.pf; out := [];
     issued := []; pending := [] |}.

End Lab.

(** ** Decimal strings *)

Lemma digits_acc_app a s t :
  digits_acc a (s ++ t) =
  match digits_acc a s with Some v => digits_acc v t | None => None end.
Proof.
  revert a. induction s as [|c s IH]; intros a; simpl; [done|].
  destruct (is_digit c); [apply IH | done].
Qed.

Lemma digits_acc_value a s :
  all_digits s = true ->
  exists v, digits_acc 0 s = Some v /\ 0 <= v /\
            digits_acc a s = Some (a * 10 ^ Z.of_nat (String.length s) + v).
Proof.
  revert a. induction s as [|c s IH]; intros a Hd.
  - exists 0. simpl. split; [|split]; [reflexivity | lia | f_equal; lia].
  - simpl in Hd. apply andb_prop in Hd as [Hc Hs].
    cbn [digits_acc String.length]. rewrite Hc.
    destruct (IH (10 * 0 + digit_value c) Hs) as (v & Hv & Hpos & Hacc).
    destruct (IH (10 * a + digit_value c) Hs) as (v' & Hv' & _ & Hacc').
    assert (v' = v) by congruence. subst v'.
    assert (0 <= digit_value c).
    { unfold is_digit in Hc. unfold digit_value. lia. }
    exists (digit_value c * 10 ^ Z.of_nat (String.length s) + v).
    rewrite Hacc, Hacc'. split; [|split].
    + f_equal; lia.
    + assert (0 <= 10 ^ Z.of_nat (String.length s)) by (apply Z.pow_nonneg; lia).
      apply Z.add_nonneg_nonneg; [apply Z.mul_nonneg_nonneg|]; lia.
    + f_equal. rewrite Nat2Z.inj_succ, Z.pow_succ_r by lia. lia.
Qed.

Lemma string_of_uint_digits d : all_digits (NilEmpty.string_of_uint d) = true.
Proof. induction d; simpl; auto. Qed.

Lemma digits_acc_of_uint_acc d acc :
  digits_acc (Z.pos acc) (NilEmpty.string_of_uint d)
  = Some (Z.pos (Pos.of_uint_acc d acc)).
Proof.
  revert acc. induction d; intros acc; cbn [NilEmpty.string_of_uint digits_acc Pos.of_uint_acc];
    [reflexivity | ..];
    match goal with
    | |- context [is_digit ?c] => change (is_digit c) with true; cbv iota
    end; rewrite <- IHd; f_equal; unfold digit_value, char_code; simpl; lia.
Qed.

Lemma digits_acc_of_uint d :
  digits_acc 0 (NilEmpty.string_of_uint d) = Some (Z.of_N (Pos.of_uint d)).
Proof.
  induction d; cbn [NilEmpty.string_of_uint digits_acc Pos.of_uint];
    [reflexivity | ..];
    match goal with
    | |- context [is_digit ?c] => change (is_digit c) with true; cbv iota
    end.
  - exact IHd.
  - apply (digits_acc_of_uint_acc d 1).
  - apply (digits_acc_of_uint_acc d 2).
  - apply (digits_acc_of_uint_acc d 3).
  - apply (digits_acc_of_uint_acc d 4).
  - apply (digits_acc_of_uint_acc d 5).
  - apply (digits_acc_of_uint_acc d 6).
  - apply (digits_acc_of_uint_acc d 7).
  - apply (digits_acc_of_uint_acc d 8).
  - apply (digits_acc_of_uint_acc d 9).
Qed.

Lemma digit_not_minus c : is_digit c = true -> Ascii.eqb c "-" = false.
Proof.
  intros H. destruct (Ascii.eqb_spec c "-") as [->|]; [discriminate H | reflexivity].
Qed.

Lemma StringToNumber_digits s v :
  all_digits s = true -> digits_acc 0 s = Some v -> StringToNumber s = Int v.
Proof.
  destruct s as [|c r]; intros Hd Hv.
  - simpl in Hv. injection Hv as <-. reflexivity.
  - unfold StringToNumber. simpl in Hd. apply andb_prop in Hd as [Hc _].
    rewrite (digit_not_minus c Hc), Hv. reflexivity.
Qed.

Lemma ToString_pos p :
  ToString (Z.pos p) = NilEmpty.string_of_uint (Pos.to_uint p).
Proof.
  unfold ToString. simpl. unfold NilZero.string_of_uint.
  pose proof (DecimalPos.Unsigned.to_uint_nonnil p) as Hn.
  destruct (Pos.to_uint p); [congruence | reflexivity ..].
Qed.

Lemma ToString_neg p : ToString (Z.neg p) = String "-" (ToString (Z.pos p)).
Proof. reflexivity. Qed.

Lemma ToString_nonneg z :
  0 <= z ->
  all_digits (ToString z) = true /\ digits_acc 0 (ToString z) = Some z.
Proof.
  destruct z as [|p|p]; intros Hz; [split; reflexivity | | lia].
  rewrite ToString_pos. split; [apply string_of_uint_digits|].
  rewrite digits_acc_of_uint, DecimalPos.Unsigned.of_to. reflexivity.
Qed.

Lemma ToString_pos_nonempty p : ToString (Z.pos p) <> EmptyString.
Proof.
  rewrite ToString_pos.
  pose proof (DecimalPos.Unsigned.to_uint_nonnil p) as Hn.
  destruct (Pos.to_uint p); [congruence | discriminate ..].
Qed.

Lemma all_digits_app s t :
  all_digits (s ++ t) = all_digits s && all_digits t.
Proof.
  induction s as [|c s IH]; simpl; [reflexivity|].
  rewrite IH. apply andb_assoc.
Qed.

(** A printed natural number followed by digits reads as the number shifted
    left by as many decimal places, plus the digits. *)
Lemma StringToNumber_concat z ds n :
  0 <= z -> all_digits ds = true -> digits_acc 0 ds = Some n ->
  StringToNumber (ToString z ++ ds)
  = Int (z * 10 ^ Z.of_nat (String.length ds) + n).
Proof.
  intros Hz Hd Hn. destruct (ToString_nonneg z Hz) as [Hdz Hvz].
  apply StringToNumber_digits.
  - rewrite all_digits_app, Hdz, Hd. reflexivity.
  - rewrite digits_acc_app, Hvz.
    destruct (digits_acc_value z ds Hd) as (v & Hv & _ & Hacc).
    rewrite Hacc. congruence.
Qed.

(** Concatenating digits to any printed integer reads as an integer. *)
Lemma StringToNumber_concat_int z ds :
  all_digits ds = true ->
  exists w, StringToNumber (ToString z ++ ds) = Int w.
Proof.
  intros Hd. destruct (digits_acc_value 0 ds Hd) as (n & Hn & _ & _).
  destruct z as [|p|p].
  - eexists. apply (StringToNumber_concat 0 ds n); [lia | done | done].
  - eexists. apply (StringToNumber_concat (Z.pos p) ds n); [lia | done | done].
  - rewrite ToString_neg.
    destruct (ToString_nonneg (Z.pos p) ltac:(lia)) as [Hdz Hvz].
    destruct (digits_acc_value (Z.pos p) ds Hd) as (v & Hv & _ & Hacc).
    assert (Hall : digits_acc 0 (ToString (Z.pos p) ++ ds)
                   = Some (Z.pos p * 10 ^ Z.of_nat (String.length ds) + v)).
    { rewrite digits_acc_app, Hvz. exact Hacc. }
    assert (Hne : ToString (Z.pos p) ++ ds <> EmptyString).
    { destruct (ToString (Z.pos p)) eqn:E2;
        [elim (ToString_pos_nonempty p E2) | discriminate]. }
    change (String "-" (ToString (Z.pos p)) ++ ds)
      with (String "-" (ToString (Z.pos p) ++ ds)).
    destruct (ToString (Z.pos p) ++ ds) as [|c r] eqn:E; [congruence|].
    unfold StringToNumber. change (Ascii.eqb "-" "-") with true. cbv iota.
    rewrite Hall. eexists. reflexivity.
Qed.

Lemma span_digits_spec r d t :
  span_digits r = (d, t) -> all_digits d = true /\ r = d ++ t.
Proof.
  revert d t. induction r as [|c r IH]; intros d t H; simpl in H.
  - injection H as <- <-. split; reflexivity.
  - destruct (is_digit c) eqn:Hc.
    + destruct (span_digits r) as [d' t'] eqn:E. injection H as <- <-.
      destruct (IH d' t' eq_refl) as [Hd ->]. simpl. rewrite Hc, Hd. split; reflexivity.
    + injection H as <- <-. split; reflexivity.
Qed.

Lemma brightness_match_spec s op num perc :
  brightness_match s = Some (op, num, perc) ->
  (op = "=" \/ op = "+" \/ op = "-") /\
  all_digits num = true /\ num <> EmptyString /\
  (perc = EmptyString \/ perc = "%") /\
  s = op ++ num ++ perc.
Proof.
  unfold brightness_match. destruct s as [|c r]; [discriminate|].
  destruct (Ascii.eqb c "-" || Ascii.eqb c "+" || Ascii.eqb c "=") eqn:Hop;
    [|discriminate].
  destruct (span_digits r) as [d t] eqn:E.
  destruct (truthy d && (String.eqb t EmptyString || String.eqb t "%")) eqn:Hc;
    [|discriminate].
  intros H. injection H as <- <- <-.
  apply andb_prop in Hc as [Hd Ht].
  destruct (span_digits_spec r d t E) as [Hall ->].
  split; [|split; [|split; [|split]]].
  - apply orb_prop in Hop as [Hop|Hop]; [apply orb_prop in Hop as [Hop|Hop]|];
      apply Ascii.eqb_eq in Hop; subst c; auto.
  - exact Hall.
  - destruct d; [discriminate Hd | discriminate].
  - apply orb_prop in Ht as [Ht|Ht]; apply String.eqb_eq in Ht; auto.
  - reflexivity.
Qed.

Lemma clampZ_range z : 1 <= clampZ z <= 254.
Proof. unfold clampZ. lia. Qed.

Lemma clamp_VNum z : clamp (VNum (Int z)) = Int (clampZ z).
Proof. reflexivity. Qed.

Lemma clamp_VStr s z : StringToNumber s = Int z -> clamp (VStr s) = Int (clampZ z).
Proof. intros H. unfold clamp. simpl. rewrite H. reflexivity. Qed.

Lemma percent_digits num n :
  all_digits num = true -> digits_acc 0 num = Some n ->
  percent num = Int (round_hundredths (n * 254)).
Proof.
  intros Hd Hn. unfold percent. rewrite (StringToNumber_digits num n Hd Hn).
  reflexivity.
Qed.

(** Every branch of the switch but the plain [+] computes what the
    specification describes. *)
Lemma new_brightness_spec op num perc n current :
  (op = "=" \/ op = "+" \/ op = "-") ->
  all_digits num = true -> digits_acc 0 num = Some n ->
  (perc = EmptyString \/ perc = "%") ->
  (op = "+" -> perc = "%") ->
  new_brightness op num perc current
  = Int (Spec.brightness op n (truthy perc) current).
Proof.
  intros Hop Hd Hn Hperc Hplus. unfold new_brightness, apply_op, Spec.brightness, Spec.magnitude.
  pose proof (percent_digits num n Hd Hn) as Hp.
  pose proof (StringToNumber_digits num n Hd Hn) as Hs.
  destruct Hop as [-> | [-> | ->]]; destruct Hperc as [-> | ->]; simpl;
    try (specialize (Hplus eq_refl); discriminate Hplus);
    rewrite ?Hp; unfold minus; simpl; rewrite ?Hs; try reflexivity.
  apply clamp_VStr. exact Hs.
Qed.

(** The plain [+] appends the digits to the printed brightness. *)
Lemma new_brightness_plus_plain num n current :
  0 <= current -> all_digits num = true -> digits_acc 0 num = Some n ->
  new_brightness "+" num EmptyString current
  = Int (clampZ (current * 10 ^ Z.of_nat (String.length num) + n)).
Proof.
  intros Hc Hd Hn. unfold new_brightness, apply_op. simpl.
  apply clamp_VStr. apply StringToNumber_concat; assumption.
Qed.

Lemma new_brightness_range op num perc current :
  (op = "=" \/ op = "+" \/ op = "-") ->
  all_digits num = true ->
  (perc = EmptyString \/ perc = "%") ->
  exists v, new_brightness op num perc current = Int v /\ 1 <= v <= 254.
Proof.
  intros Hop Hd Hperc.
  destruct (digits_acc_value 0 num Hd) as (n & Hn & _ & _).
  destruct (String.eqb_spec op "+") as [-> | Hne];
    [destruct Hperc as [-> | ->] |].
  - destruct (StringToNumber_concat_int current num Hd) as [w Hw].
    exists (clampZ w). split; [|apply clampZ_range].
    unfold new_brightness, apply_op. simpl. apply clamp_VStr. exact Hw.
  - eexists. split; [|apply clampZ_range].
    apply (new_brightness_spec "+" num "%" n); auto.
  - eexists. split; [|apply clampZ_range].
    apply (new_brightness_spec op num perc n); auto. intros ->. congruence.
Qed.

(** On the magnitudes up to 1000, ten times the one that already reaches the
    upper bound, the double-precision product rounds to the integer [percent]
    computes. *)
Lemma percent_agrees_with_binary64 :
  forallb Binary64.agrees (map Z.of_nat (seq 0 1001)) = true.
Proof. vm_compute. reflexivity. Qed.

(** ** Hexadecimal colors *)

Lemma hex_digit_plain c :
  is_hex_digit c = true ->
  is_space c = false /\ Ascii.eqb c "-" = false /\ Ascii.eqb c "+" = false /\
  Ascii.eqb c "x" = false /\ Ascii.eqb c "X" = false /\
  Ascii.eqb c "#" = false.
Proof.
  destruct c as [[] [] [] [] [] [] [] []]; intros H; try discriminate H;
    repeat split; reflexivity.
Qed.

(** Two hexadecimal digits are read as the byte they spell. *)
Lemma todec_hex h i :
  is_hex_digit h = true -> is_hex_digit i = true ->
  exists dh di, hex_digit h = Some dh /\ hex_digit i = Some di /\
                todec (Some h) (Some i) = Int (16 * dh + di).
Proof.
  intros Hh Hi.
  destruct (hex_digit_plain h Hh) as (Hsp & Hm & Hp & _).
  destruct (hex_digit_plain i Hi) as (_ & _ & _ & Hx & HX & _).
  unfold is_hex_digit in Hh, Hi.
  destruct (hex_digit h) as [dh|] eqn:Eh; [|discriminate].
  destruct (hex_digit i) as [di|] eqn:Ei; [|discriminate].
  exists dh, di. split; [reflexivity|]. split; [reflexivity|].
  unfold todec, parseInt16.
  change (char_text (Some h) ++ char_text (Some i))
    with (String h (String i EmptyString)).
  cbn [trim_start].
  rewrite Hsp, Hm, Hp, Hx, HX, andb_false_r.
  unfold is_hex_digit. cbn [hex_prefix]. rewrite Eh, Ei.
  f_equal. lia.
Qed.

(** C7: a three-character hexadecimal string [abc] is parsed to the same
    triple as its expansion [aabbcc], each channel being the byte its digit
    spells twice, and a leading [#] is dropped first in both forms. *)
Theorem hex2rgb_shorthand a b c :
  is_hex_digit a = true -> is_hex_digit b = true -> is_hex_digit c = true ->
  let short := String a (String b (String c EmptyString)) in
  let long :=
    String a (String a (String b (String b (String c (String c EmptyString))))) in
  hex2rgb short = hex2rgb long /\
  hex2rgb (String "#" short) = hex2rgb short /\
  hex2rgb (String "#" long) = hex2rgb long /\
  exists r g bl,
    hex_digit a = Some r /\ hex_digit b = Some g /\ hex_digit c = Some bl /\
    hex2rgb long = (Int (16 * r + r), Int (16 * g + g), Int (16 * bl + bl)).
Proof.
  intros Ha Hb Hc short long.
  destruct (hex_digit_plain a Ha) as (_ & _ & _ & _ & _ & Hsharp).
  assert (Hshort : hex2rgb short
                   = (todec (Some a) (Some a), todec (Some b) (Some b),
                      todec (Some c) (Some c))).
  { unfold hex2rgb, short. cbn [char_at String.get]. rewrite Hsharp. reflexivity. }
  assert (Hlong : hex2rgb long
                  = (todec (Some a) (Some a), todec (Some b) (Some b),
                     todec (Some c) (Some c))).
  { unfold hex2rgb, long. cbn [char_at String.get]. rewrite Hsharp. reflexivity. }
  split; [congruence|]. split; [|split].
  - rewrite Hshort. reflexivity.
  - rewrite Hlong. reflexivity.
  - destruct (todec_hex a a Ha Ha) as (r & r' & Hr & Hr' & Ea).
    destruct (todec_hex b b Hb Hb) as (g & g' & Hg & Hg' & Eb).
    destruct (todec_hex c c Hc Hc) as (bl & bl' & Hbl & Hbl' & Ec).
    assert (r' = r) by congruence. assert (g' = g) by congruence.
    assert (bl' = bl) by congruence. subst r' g' bl'.
    exists r, g, bl. rewrite Hlong, Ea, Eb, Ec. auto.
Qed.

Lemma hex2rgb_shorthand_witness :
  hex2rgb "f0a" = hex2rgb "ff00aa" /\
  hex2rgb "#f0a" = hex2rgb "f0a" /\
  hex2rgb "#ff00aa" = hex2rgb "ff00aa" /\
  exists r g bl,
    hex_digit "f" = Some r /\ hex_digit "0" = Some g /\ hex_digit "a" = Some bl /\
    hex2rgb "ff00aa" = (Int (16 * r + r), Int (16 * g + g), Int (16 * bl + bl)).
Proof.
  apply (hex2rgb_shorthand "f" "0" "a"); reflexivity.
Defined.

(** ** What the callbacks send *)

Lemma sent_of_app_send p r evs :
  out p = (evs ++ [Send r])%list ->
  sent_of p = (omap (fun e => match e with Send r => Some r | _ => None end) evs
               ++ [r])%list.
Proof. intros H. unfold sent_of. rewrite H, omap_app. reflexivity. Qed.

Lemma call_out pf r k p :
  fst (call pf r k p) = Ok tt /\
  out (snd (call pf r k p)) = (out p ++ [Send r])%list /\
  files (snd (call pf r k p)) = files p /\
  args (snd (call pf r k p)) = args p /\
  json (snd (call pf r k p)) = json p /\
  csscolors (snd (call pf r k p)) = csscolors p /\
  pending (snd (call pf r k p))
  = (pending p ++ [(k, bridge pf (issued p) r)])%list.
Proof. repeat split; reflexivity. Qed.

Lemma call_sent pf r k p :
  sent_of (snd (call pf r k p)) = (sent_of p ++ [r])%list.
Proof.
  unfold sent_of. destruct (call_out pf r k p) as (_ & -> & _).
  rewrite omap_app. reflexivity.
Qed.

(** The callback of [client.light] in the brightness branch sends the new
    brightness of the light it is answered with. *)
Lemma KBriLight_calls pf id op num perc l p :
  handle pf (KBriLight id op num perc) (Reply None (LightData l)) p
  = call pf
      (ClientState id (patch_bri (new_brightness op num perc (bri (state l)))))
      (KBriState id (bri (state l))
                 (new_brightness op num perc (bri (state l)))) p.
Proof. reflexivity. Qed.

(** A brightness expression makes the action switch ask each selected light
    for its state, the three groups of the match going to the callback. *)
Lemma action_switch_brightness pf l s op num perc :
  brightness_match s = Some (op, num, perc) ->
  action_switch pf l s
  = forEach l (fun id => call pf (ClientLight id) (KBriLight id op num perc)).
Proof.
  intros H. destruct (brightness_match_spec s op num perc H)
    as (Hop & _ & _ & _ & ->).
  unfold action_switch.
  assert (Hm : brightness_match (op ++ num ++ perc) = Some (op, num, perc))
    by exact H.
  destruct Hop as [-> | [-> | ->]]; cbn [append String.eqb Ascii.eqb Bool.eqb];
    cbn [append] in Hm; rewrite Hm; reflexivity.
Qed.




(** C2: the plain increment does not add.  On a light of brightness 5, [+1]
    sends 51, the digits appended to the printed brightness, where the
    specification and the usage text describe 6; the decrement on the same
    light subtracts. *)
Theorem plus_appends_digits :
  brightness_match "+1" = Some ("+", "1", EmptyString) /\
  apply_op "+" "1" EmptyString (VNum (Int 5)) = VStr "51" /\
  new_brightness "+" "1" EmptyString 5 = Int 51 /\
  Spec.brightness "+" 1 false 5 = 6 /\
  new_brightness "-" "1" EmptyString 5 = Int (Spec.brightness "-" 1 false 5) /\
  sent_of (snd (hue Home.pf [] ["lights"; "1"; "+1"] Home.disk None))
  = [ClientLights; ClientLight "1"; ClientState "1" (patch_bri (Int 51));
     ClientLights].
Proof. repeat apply conj; vm_compute; reflexivity. Qed.

(** ** Selection *)

Lemma split_cons sep s : exists h t, split sep s = h :: t.
Proof.
  destruct s as [|c s]; simpl; [eauto|].
  destruct (Ascii.eqb c sep); [eauto|].
  destruct (split sep s); eauto.
Qed.

Lemma join_cons_char sep c h t :
  join sep (String c h :: t) = String c (join sep (h :: t)).
Proof. destruct t; reflexivity. Qed.

(** An array of pieces printed with commas is the string it was split from:
    the key [config.alias[l]] reads is the selector as typed. *)
Lemma join_split sep s : join sep (split sep s) = s.
Proof.
  induction s as [|c s IH]; [reflexivity|].
  cbn [split]. destruct (Ascii.eqb_spec c sep) as [-> | Hne].
  - destruct (split_cons sep s) as (h & t & E). rewrite E in *.
    change (join sep (EmptyString :: h :: t))
      with (String sep (join sep (h :: t))).
    rewrite IH. reflexivity.
  - destruct (split_cons sep s) as (h & t & E). rewrite E in *.
    rewrite join_cons_char, IH. reflexivity.
Qed.

(** A shortcut keyword as first element selects every light and, but for
    [all], becomes the action. *)
Lemma shortcut_switch_keyword keys l args cfg kw :
  l !! 0%nat = Some kw -> is_shortcut kw = true ->
  shortcut_switch keys l args cfg
  = inr (keys, if String.eqb kw "all" then args else array_set args 2 kw).
Proof.
  intros Hl Hk. unfold shortcut_switch. rewrite Hl. cbn [is_case].
  unfold is_shortcut, shortcuts in Hk. cbn [existsb] in Hk.
  repeat match goal with
  | |- context [String.eqb kw ?k] =>
      destruct (String.eqb_spec kw k) as [-> | ?]; [reflexivity|]
  end.
  discriminate Hk.
Qed.

(** When the first element is no shortcut, the switch takes its default
    case. *)
Lemma shortcut_switch_default keys l args cfg kw :
  l !! 0%nat = Some kw -> is_shortcut kw = false ->
  shortcut_switch keys l args cfg
  = match alias cfg with
    | Some a =>
        match get_member a (join "," l) with
        | Own ids => inr (if truthy ids then split "," ids else l, args)
        | Inherited => inl split_is_not_a_function
        | Absent => inr (l, args)
        end
    | None => inr (l, args)
    end.
Proof.
  intros Hl Hk. unfold is_shortcut, shortcuts in Hk. cbn [existsb] in Hk.
  rewrite !orb_false_iff in Hk.
  destruct Hk as (H1 & H2 & H3 & H4 & H5 & H6 & H7 & H8 & _).
  unfold shortcut_switch. rewrite Hl. cbn [is_case].
  rewrite H1, H2, H3, H4, H5, H6, H7, H8.
  destruct (alias cfg) as [a|]; [|reflexivity].
  destruct (get_member a (join "," l)) as [ids| |]; [|reflexivity..].
  destruct (truthy ids); reflexivity.
Qed.

(** C4, as the code has it: the selector is expanded exactly when the first
    element of its comma list is a shortcut keyword, whatever follows it; the
    selection is then every known light and, except for [all], the action
    becomes the keyword.  Otherwise the action is left alone, and the
    selector as a whole is looked up in the alias table: an alias with a list
    that is not empty gives the selection; a name the table does not define
    but inherits from [Object.prototype] ends the switch with a [TypeError];
    in every other case the selection is the comma list itself. *)
Theorem shortcut_switch_first_element keys selector args cfg :
  exists kw rest,
    split "," selector = kw :: rest /\
    (is_shortcut kw = true ->
     shortcut_switch keys (split "," selector) args cfg
     = inr (keys, if String.eqb kw "all" then args else array_set args 2 kw)) /\
    (is_shortcut kw = false ->
     (forall ids,
         aliases cfg !! selector = Some ids -> truthy ids = true ->
         shortcut_switch keys (split "," selector) args cfg
         = inr (split "," ids, args)) /\
     (alias cfg <> None -> aliases cfg !! selector = None ->
      is_prototype_member selector = true ->
      shortcut_switch keys (split "," selector) args cfg
      = inl split_is_not_a_function) /\
     (aliases cfg !! selector = Some EmptyString \/
      aliases cfg !! selector = None /\
      (alias cfg = None \/ is_prototype_member selector = false) ->
      shortcut_switch keys (split "," selector) args cfg
      = inr (split "," selector, args))).
Proof.
  destruct (split_cons "," selector) as (kw & rest & E).
  exists kw, rest. split; [exact E|]. split.
  - intros Hk. apply shortcut_switch_keyword; [rewrite E; reflexivity | exact Hk].
  - intros Hk.
    rewrite (shortcut_switch_default keys (split "," selector) args cfg kw)
      by (rewrite ?E; auto).
    rewrite join_split. unfold aliases, get_member.
    destruct (alias cfg) as [a|].
    + split; [|split].
      * intros ids -> Ht. rewrite Ht. reflexivity.
      * intros _ -> ->. reflexivity.
      * intros [-> | [-> [H | ->]]]; [reflexivity | congruence | reflexivity].
    + split; [|split].
      * intros ids H. rewrite lookup_empty in H. discriminate H.
      * intros H. congruence.
      * intros _. reflexivity.
Qed.

(** C4, as the specification has it, fails: in [off,5] the first element is
    a shortcut followed by another element, and the list is expanded to every
    light with the action [off] instead of being used as the ids [off] and
    [5]. *)
Lemma shortcut_with_further_elements :
  split "," "off,5" = ["off"; "5"] /\
  shortcut_switch ["1"; "2"] (split "," "off,5") ["lights"; "off,5"] empty_config
  = inr (["1"; "2"], ["lights"; "off,5"; "off"]) /\
  shortcut_switch ["1"; "2"] (split "," "off,5") ["lights"; "off,5"] empty_config
  <> inr (split "," "off,5", ["lights"; "off,5"]) /\
  sent_of (snd (hue Home.pf [] ["lights"; "off,5"] Home.disk None))
  = [ClientLights; ClientOff "1"; ClientOff "2"; ClientLights; ClientLights].
Proof.
  split; [reflexivity|]. split; [reflexivity|]. split; [|vm_compute; reflexivity].
  intros H. discriminate H.
Qed.

(** ** The color branch *)

Lemma bind_ok {A B} (m : M A) (f : A -> M B) p a p1 :
  m p = (Ok a, p1) -> bind m f p = f a p1.
Proof. intros H. unfold bind. rewrite H. reflexivity. Qed.

Lemma bind_exit {A B} (m : M A) (f : A -> M B) p c p1 :
  m p = (Exit c, p1) -> bind m f p = (Exit c, p1).
Proof. intros H. unfold bind. rewrite H. reflexivity. Qed.

Lemma forEach_call pf (l : list string) (req : string -> request)
    (k : string -> kont) p :
  fst (forEach l (fun id => call pf (req id) (k id)) p) = Ok tt /\
  out (snd (forEach l (fun id => call pf (req id) (k id)) p))
  = (out p ++ map (fun id => Send (req id)) l)%list.
Proof.
  revert p. induction l as [|id l IH]; intros p.
  - split; [reflexivity|]. simpl. rewrite app_nil_r. reflexivity.
  - cbn [forEach].
    destruct (call pf (req id) (k id) p) as [r p1] eqn:E.
    pose proof (call_out pf (req id) (k id) p) as (Hr & Ho & _).
    rewrite E in Hr, Ho. simpl in Hr, Ho. subst r.
    rewrite (bind_ok _ _ p tt p1 E).
    destruct (IH p1) as [H1 H2]. split; [exact H1|].
    rewrite H2, Ho, <- app_assoc. reflexivity.
Qed.

(** The color branch sends each selected light the channels of the member
    of the color table the token names, or of the token. *)
Lemma action_switch_color pf l s p :
  is_action_keyword s = false ->
  brightness_match s = None ->
  fst (action_switch pf l s p) = Ok tt /\
  out (snd (action_switch pf l s p))
  = (out p
     ++ rgb_requests
          match get_member (csscolors p) s with
          | Own hex => hex2rgb (if truthy hex then hex else s)
          | Inherited => hex2rgb_inherited
          | Absent => hex2rgb s
          end l)%list.
Proof.
  intros Hk Hb. unfold is_action_keyword, action_keywords in Hk.
  cbn [existsb] in Hk. rewrite !orb_false_iff in Hk.
  destruct Hk as (H1 & H2 & H3 & H4 & H5 & H6 & H7 & _).
  unfold action_switch. rewrite H1, H2, H3, H4, H5, H6, H7, Hb.
  unfold bind, get, rgb_requests. cbn [fst snd].
  destruct (get_member (csscolors p) s) as [hex| |];
    [ destruct (hex2rgb (if truthy hex then hex else s)) as [[r g] b]
    | destruct hex2rgb_inherited as [[r g] b]
    | destruct (hex2rgb s) as [[r g] b] ];
    apply (forEach_call pf l (fun id => ClientRgb id r g b) KCallback).
Qed.

(** C10, as the code has it: a token (of code units below 256) that is no
    action keyword and no brightness expression is never rejected.  The
    action switch returns normally, writes nothing, and sends one RGB request
    per selected light, all with the same channels: those [hex2rgb] reads
    from the token itself when the color table has no member of that name,
    [NaN] three times when the name is one the table inherits from
    [Object.prototype], and those of the color when the table defines the
    name. *)
Theorem color_token_is_always_sent pf l s p :
  is_action_keyword s = false ->
  brightness_match s = None ->
  fst (action_switch pf l s p) = Ok tt /\
  exists rgb,
    out (snd (action_switch pf l s p)) = (out p ++ rgb_requests rgb l)%list /\
    (csscolors p !! s = None -> is_prototype_member s = false ->
     rgb = hex2rgb s) /\
    (csscolors p !! s = None -> is_prototype_member s = true ->
     rgb = (NaN, NaN, NaN)) /\
    (forall hex, csscolors p !! s = Some hex ->
                 rgb = hex2rgb (if truthy hex then hex else s)).
Proof.
  intros Hk Hb. destruct (action_switch_color pf l s p Hk Hb) as [H1 H2].
  split; [exact H1|]. eexists. split; [exact H2|].
  unfold get_member. destruct (csscolors p !! s) as [hex|].
  - split; [discriminate|]. split; [discriminate|].
    intros hex' [= <-]. reflexivity.
  - split; [intros _ ->; reflexivity|].
    split; [intros _ ->; reflexivity | discriminate].
Qed.

Lemma color_token_is_always_sent_witness :
  let p := start Home.pf Home.disk None ["lights"; "1,2"; "xyz"] in
  fst (action_switch Home.pf ["1"; "2"] "xyz" p) = Ok tt /\
  exists rgb,
    out (snd (action_switch Home.pf ["1"; "2"] "xyz" p))
    = (out p ++ rgb_requests rgb ["1"; "2"])%list /\
    (csscolors p !! "xyz" = None -> is_prototype_member "xyz" = false ->
     rgb = hex2rgb "xyz") /\
    (csscolors p !! "xyz" = None -> is_prototype_member "xyz" = true ->
     rgb = (NaN, NaN, NaN)) /\
    (forall hex, csscolors p !! "xyz" = Some hex ->
                 rgb = hex2rgb (if truthy hex then hex else "xyz")).
Proof.
  apply (color_token_is_always_sent Home.pf ["1"; "2"] "xyz"); reflexivity.
Defined.

(** C10, as the specification has it, fails: [zzzzzz] is no brightness
    expression and no color name and has no hexadecimal digit at all, yet the
    run ends normally, nothing is written to standard error, and light 1 is
    sent the channels [NaN]; in [fg0000] the red channel silently becomes
    15. *)
Lemma malformed_hex_is_sent :
  brightness_match "zzzzzz" = None /\
  css_color_names Home.pf !! "zzzzzz" = None /\
  hex2rgb "zzzzzz" = (NaN, NaN, NaN) /\
  hex2rgb "fg0000" = (Int 15, Int 0, Int 0) /\
  fst (hue Home.pf [] ["lights"; "1"; "zzzzzz"] Home.disk None) = Ok tt /\
  stderr_of (snd (hue Home.pf [] ["lights"; "1"; "zzzzzz"] Home.disk None)) = [] /\
  sent_of (snd (hue Home.pf [] ["lights"; "1"; "zzzzzz"] Home.disk None))
  = [ClientLights; ClientRgb "1" NaN NaN NaN; ClientLights].
Proof. repeat apply conj; vm_compute; reflexivity. Qed.

(** ** Invariants of computations *)

Section Keeps.

Context (R : proc -> proc -> Prop).
Hypothesis R_refl : forall p, R p p.
Hypothesis R_trans : forall p q r, R p q -> R q r -> R p r.

Lemma keeps_ret {A} (a : A) : keeps R (ret a).
Proof. intros p. apply R_refl. Qed.

Lemma keeps_get {A} (f : proc -> A) : keeps R (get f).
Proof. intros p. apply R_refl. Qed.

Lemma keeps_exit {A} c : keeps R (@process_exit A c).
Proof. intros p. apply R_refl. Qed.

Lemma keeps_throw {A} e : keeps R (@throw A e).
Proof. intros p. apply R_refl. Qed.

Lemma keeps_not_an_object {A} what : keeps R (@not_an_object A what).
Proof. intros p. apply R_refl. Qed.

Lemma keeps_bind {A B} (m : M A) (f : A -> M B) :
  keeps R m -> (forall a, keeps R (f a)) -> keeps R (bind m f).
Proof.
  intros Hm Hf p. unfold bind. specialize (Hm p).
  destruct (m p) as [[a|c|e] p']; simpl in *; [|assumption..].
  eapply R_trans; [exact Hm | apply Hf].
Qed.

Lemma keeps_try_catch {A} (m : M A) (h : exn -> M A) :
  keeps R m -> (forall e, keeps R (h e)) -> keeps R (try_catch m h).
Proof.
  intros Hm Hh p. unfold try_catch. specialize (Hm p).
  destruct (m p) as [[a|c|e] p']; simpl in *; [assumption..|].
  eapply R_trans; [exact Hm | apply Hh].
Qed.

Lemma keeps_forEach {A} (l : list A) (f : A -> M unit) :
  (forall x, keeps R (f x)) -> keeps R (forEach l f).
Proof.
  intros Hf. induction l as [|x l IH]; simpl.
  - apply keeps_ret.
  - apply keeps_bind; [apply Hf | intros _; exact IH].
Qed.

End Keeps.

(** Decompose a computation along its binds and case distinctions, leaving
    the primitive effects. *)
Ltac keeps_step refl trans :=
  match goal with
  | |- keeps _ (bind _ _) => apply (keeps_bind _ trans); [| intros ?]
  | |- keeps _ (try_catch _ _) => apply (keeps_try_catch _ trans); [| intros ?]
  | |- keeps _ (forEach _ _) => apply (keeps_forEach _ refl trans); intros ?
  | |- keeps _ (ret _) => apply (keeps_ret _ refl)
  | |- keeps _ (get _) => apply (keeps_get _ refl)
  | |- keeps _ (process_exit _) => apply (keeps_exit _ refl)
  | |- keeps _ (throw _) => apply (keeps_throw _ refl)
  | |- keeps _ (not_an_object _) => apply (keeps_not_an_object _ refl)
  | |- keeps _ (if ?b then _ else _) => destruct b
  | |- keeps _ (match ?x with _ => _ end) => destruct x
  | |- keeps _ (let '(_, _) := ?x in _) => destruct x
  end.

(** *** Files, operands and network are untouched before the command *)

Lemma untouched_refl p : untouched p p.
Proof. repeat split. Qed.

Lemma untouched_trans p q r : untouched p q -> untouched q r -> untouched p r.
Proof. intros (A & B & C) (D & E & F). repeat split; congruence. Qed.

Ltac untouched_steps :=
  repeat keeps_step untouched_refl untouched_trans; auto.

Lemma network_of_app_quiet p e q :
  out q = (out p ++ [e])%list -> is_network e = false ->
  network_of q = network_of p.
Proof.
  intros H He. unfold network_of. rewrite H, List.filter_app. simpl.
  rewrite He. apply app_nil_r.
Qed.

Lemma untouched_console_log o : keeps untouched (console_log o).
Proof.
  intros p. repeat split. simpl.
  apply (network_of_app_quiet p (Stdout o)); reflexivity.
Qed.

Lemma untouched_console_error o : keeps untouched (console_error o).
Proof.
  intros p. repeat split. simpl.
  apply (network_of_app_quiet p (Stderr o)); reflexivity.
Qed.

Lemma untouched_set_config c : keeps untouched (set_config c).
Proof. intros p. repeat split. Qed.

Lemma untouched_set_configfile c : keeps untouched (set_configfile c).
Proof. intros p. repeat split. Qed.

Lemma untouched_set_json b : keeps untouched (set_json b).
Proof. intros p. repeat split. Qed.

Lemma untouched_set_csscolors c : keeps untouched (set_csscolors c).
Proof. intros p. repeat split. Qed.

Lemma untouched_enqueue k r : keeps untouched (enqueue k r).
Proof. intros p. repeat split. Qed.

#[local] Hint Resolve untouched_console_log untouched_console_error
  untouched_set_config untouched_set_configfile untouched_set_json
  untouched_set_csscolors untouched_enqueue : core.

Lemma untouched_readFileSync file : keeps untouched (readFileSync file).
Proof. unfold readFileSync. untouched_steps. Qed.

Lemma untouched_parse_config pf text : keeps untouched (parse_config pf text).
Proof. unfold parse_config. untouched_steps. Qed.

Lemma untouched_statPath path : keeps untouched (statPath path).
Proof. unfold statPath. untouched_steps. Qed.

#[local] Hint Resolve untouched_readFileSync untouched_parse_config
  untouched_statPath : core.

Lemma untouched_parse_options pf opts : keeps untouched (parse_options pf opts).
Proof.
  induction opts as [|o opts IH]; cbn [parse_options]; untouched_steps.
Qed.

Lemma untouched_load_config pf : keeps untouched (load_config pf).
Proof. unfold load_config. untouched_steps. Qed.

Lemma untouched_load_colors : keeps untouched load_colors.
Proof. unfold load_colors. untouched_steps. Qed.

(** ** Loading the configuration *)

Lemma truthy_app_r a b : truthy b = true -> truthy (a ++ b) = true.
Proof. destruct a; [trivial | reflexivity]. Qed.

(** A normalized path is never the empty string. *)
Lemma truthy_path_normalize path : truthy (path_normalize path) = true.
Proof.
  unfold path_normalize. destruct path as [|c r]; [reflexivity|].
  destruct (join "/" _) as [|c' body];
    destruct (Ascii.eqb c "/"); try destruct (ends_with_slash _); reflexivity.
Qed.

Lemma truthy_defaultconfigfile pf : truthy (defaultconfigfile pf) = true.
Proof. apply truthy_path_normalize. Qed.

Lemma truthy_or_else a b : truthy b = true -> truthy (or_else a b) = true.
Proof.
  intros Hb. destruct a as [s|]; [|exact Hb].
  simpl. destruct (truthy s) eqn:E; [exact E | exact Hb].
Qed.

(** Whatever the path and wherever it comes from, a configuration that
    cannot be read or parsed ends the process: the path is stored in
    [configfile] before the file is read, so the test of the [catch] block
    always succeeds. *)
Lemma load_config_eq pf p :
  let file := or_else (configfile p) (defaultconfigfile pf) in
  let p1 := snd (set_configfile (Some file) p) in
  load_config pf p
  = match config_at pf (files p) file with
    | inr c => set_config (deepmerge pf c (config p)) p1
    | inl msg =>
        (console_error (Text ("failed to read config " ++ file ++ ": " ++ msg)) ;;
         process_exit 1) p1
    end.
Proof.
  intros file p1. subst p1.
  assert (Ht : truthy file = true)
    by apply truthy_or_else, truthy_defaultconfigfile.
  unfold load_config, config_at, readFileSync, parse_config, console_error,
    emit, set_config, set_configfile, process_exit, throw, ret, try_catch,
    bind, get.
  simpl. fold file. clearbody file.
  destruct (files p !! file) as [[[text|]| |[text|]]|]; simpl; rewrite ?Ht;
    try reflexivity;
    destruct (JSON_parse_config pf text) as [msg|c]; simpl; rewrite ?Ht;
    reflexivity.
Qed.

(** A configuration that cannot be loaded ends the run with status 1 and one
    line on standard error, whether its path was given with [-c] or is the
    default one. *)
Lemma unloadable_config_is_fatal pf opts argv fs input p0 msg :
  parse_options pf opts (start pf fs input argv) = (Ok tt, p0) ->
  config_at pf fs (or_else (configfile p0) (defaultconfigfile pf)) = inl msg ->
  fst (hue pf opts argv fs input) = Exit 1 /\
  out (snd (hue pf opts argv fs input))
  = (out p0
     ++ [Stderr (Text ("failed to read config "
                       ++ or_else (configfile p0) (defaultconfigfile pf)
                       ++ ": " ++ msg))])%list.
Proof.
  intros Hopts Hat.
  pose proof (untouched_parse_options pf opts (start pf fs input argv))
    as (Hf0 & _ & _).
  rewrite Hopts in Hf0. simpl in Hf0.
  pose proof (load_config_eq pf p0) as Hload. cbv zeta in Hload.
  rewrite Hf0, Hat in Hload.
  unfold hue, main.
  rewrite (bind_exit _ _ _ 1 _
             (eq_trans (bind_ok _ _ _ tt p0 Hopts) (bind_exit _ _ _ 1 _ Hload))).
  split; reflexivity.
Qed.

(** C1: with no [-c] option and no file at the default path, the run does
    not go on with an empty configuration: it ends with status 1 after
    reporting the default path on standard error, before any command. *)
Theorem missing_default_config_is_fatal pf argv input :
  fst (hue pf [] argv ∅ input) = Exit 1 /\
  out (snd (hue pf [] argv ∅ input))
  = [Stderr (Text ("failed to read config " ++ defaultconfigfile pf
                   ++ ": ENOENT: no such file or directory, open '"
                   ++ defaultconfigfile pf ++ "'"))].
Proof.
  apply (unloadable_config_is_fatal pf [] argv ∅ input
           (start pf ∅ input argv)); [reflexivity|].
  unfold config_at. rewrite lookup_empty. reflexivity.
Qed.

(** ** Registration *)

Lemma load_colors_ok p :
  fst (load_colors p) = Ok tt /\
  files (snd (load_colors p)) = files p /\
  args (snd (load_colors p)) = args p /\
  configfile (snd (load_colors p)) = configfile p /\
  out (snd (load_colors p)) = out p.
Proof.
  unfold load_colors, bind, get. simpl.
  destruct (colors (config p)); repeat split; reflexivity.
Qed.

(** With a regular file at the path of the configuration, [register] stops
    after two lines on standard output. *)
Lemma command_register_refuses pf p file content :
  configfile p = Some file ->
  files p !! file = Some (RegularFile content) ->
  fst (command_register pf p) = Exit 1 /\
  files (snd (command_register pf p)) = files p /\
  out (snd (command_register pf p))
  = (out p
     ++ [Stdout (Text ("A config file already exists at " ++ file));
         Stdout (Text "please remove it before attempting to register a new hub")])%list.
Proof.
  intros Hc Hf.
  unfold command_register, statPath, try_catch, console_log, emit, process_exit,
    ret, bind, get.
  rewrite Hc. simpl. rewrite Hf. simpl.
  rewrite <- app_assoc. repeat split; reflexivity.
Qed.

Lemma command_is_register pf p :
  args p !! 0%nat = Some "register" ->
  command pf p = command_register pf p.
Proof.
  intros H. unfold command. unfold bind at 1. unfold get at 1.
  rewrite H. reflexivity.
Qed.

(** Once the options are read, and unless the configuration is read from
    something that is no regular file, [register] ends the script with
    status 1 before the client is created: either the configuration cannot be
    loaded, or it exists and registration is refused. *)
Lemma main_register pf opts argv fs input p0 :
  parse_options pf opts (start pf fs input argv) = (Ok tt, p0) ->
  argv !! 0%nat = Some "register" ->
  (forall content,
      fs !! or_else (configfile p0) (defaultconfigfile pf)
      <> Some (Special content)) ->
  exists p',
    main pf opts (start pf fs input argv) = (Exit 1, p') /\
    files p' = fs /\
    out p'
    = (out p0
       ++ register_lines pf fs (or_else (configfile p0) (defaultconfigfile pf)))%list.
Proof.
  intros Hopts Hcmd Hreg.
  pose proof (untouched_parse_options pf opts (start pf fs input argv))
    as (Hf0 & Ha0 & _).
  rewrite Hopts in Hf0, Ha0. simpl in Hf0, Ha0.
  set (file := or_else (configfile p0) (defaultconfigfile pf)) in *.
  unfold main. rewrite (bind_ok _ _ _ tt p0 Hopts).
  pose proof (load_config_eq pf p0) as Hload. cbv zeta in Hload.
  fold file in Hload. rewrite Hf0 in Hload. unfold register_lines.
  destruct (config_at pf fs file) as [msg|c] eqn:Hat.
  - (* the configuration cannot be loaded *)
    eexists. split; [apply bind_exit; rewrite Hload; reflexivity|].
    split; [exact Hf0 | reflexivity].
  - (* the configuration is loaded, so its file exists *)
    assert (Hfile : exists text, fs !! file = Some (RegularFile (Some text))).
    { unfold config_at in Hat.
      destruct (fs !! file) as [[[text|]| |content]|] eqn:Hnode;
        try discriminate Hat; [eauto|].
      exfalso. exact (Hreg content eq_refl). }
    destruct Hfile as [text Hfile].
    set (p1 := snd (set_config (deepmerge pf c (config p0))
                      (snd (set_configfile (Some file) p0)))).
    assert (Hload' : load_config pf p0 = (Ok tt, p1))
      by (rewrite Hload; reflexivity).
    rewrite (bind_ok _ _ _ tt p1 Hload').
    destruct (load_colors_ok p1) as (Hr & Hf2 & Ha2 & Hc2 & Ho2).
    destruct (load_colors p1) as [r p2] eqn:Hcolors. simpl in *. subst r.
    rewrite (bind_ok _ _ _ tt p2 Hcolors).
    rewrite command_is_register by (rewrite Ha2, Ha0; exact Hcmd).
    destruct (command_register_refuses pf p2 file (Some text))
      as (Hx & Hfx & Hox); [exact Hc2 | rewrite Hf2, Hf0; exact Hfile |].
    destruct (command_register pf p2) as [r p3] eqn:Hcommand. simpl in *.
    subst r. exists p3. split; [reflexivity|]. split; [congruence|].
    rewrite Hox, Ho2. reflexivity.
Qed.

Lemma network_of_register_lines pf fs file :
  List.filter is_network (register_lines pf fs file) = [].
Proof. unfold register_lines. destruct (config_at pf fs file); reflexivity. Qed.

(** C8: when a regular file exists at the path of the configuration,
    [register] ends with status 1, the files are what they were, and neither
    a client was created nor a request sent; what was written is the refusal
    or, if the file is no configuration, the failure to read it. *)
Theorem register_refuses_existing_config pf opts argv fs input p0 content :
  parse_options pf opts (start pf fs input argv) = (Ok tt, p0) ->
  argv !! 0%nat = Some "register" ->
  fs !! or_else (configfile p0) (defaultconfigfile pf)
  = Some (RegularFile content) ->
  fst (hue pf opts argv fs input) = Exit 1 /\
  files (snd (hue pf opts argv fs input)) = fs /\
  network_of (snd (hue pf opts argv fs input)) = [] /\
  out (snd (hue pf opts argv fs input))
  = (out p0
     ++ register_lines pf fs (or_else (configfile p0) (defaultconfigfile pf)))%list.
Proof.
  intros Hopts Hcmd Hfile.
  pose proof (untouched_parse_options pf opts (start pf fs input argv))
    as (_ & _ & Hn0).
  rewrite Hopts in Hn0. simpl in Hn0.
  change (network_of (start pf fs input argv)) with (@nil event) in Hn0.
  destruct (main_register pf opts argv fs input p0 Hopts Hcmd)
    as (p' & Hm & Hf & Ho); [intros c; rewrite Hfile; discriminate|].
  unfold hue. rewrite (bind_exit _ _ _ 1 p' Hm). simpl.
  split; [reflexivity|]. split; [exact Hf|]. split; [|exact Ho].
  unfold network_of in *.
  rewrite Ho, List.filter_app, network_of_register_lines, app_nil_r.
  exact Hn0.
Qed.

Lemma register_refuses_existing_config_witness :
  fst (hue Home.pf [Home.option_j] ["register"] Home.disk None) = Exit 1 /\
  files (snd (hue Home.pf [Home.option_j] ["register"] Home.disk None))
  = Home.disk /\
  network_of (snd (hue Home.pf [Home.option_j] ["register"] Home.disk None)) = [] /\
  out (snd (hue Home.pf [Home.option_j] ["register"] Home.disk None))
  = (out (snd (parse_options Home.pf [Home.option_j]
                 (start Home.pf Home.disk None ["register"])))
     ++ register_lines Home.pf Home.disk
          (or_else
             (configfile
                (snd (parse_options Home.pf [Home.option_j]
                        (start Home.pf Home.disk None ["register"]))))
             (defaultconfigfile Home.pf)))%list.
Proof.
  apply (register_refuses_existing_config Home.pf [Home.option_j] ["register"]
           Home.disk None
           (snd (parse_options Home.pf [Home.option_j]
                   (start Home.pf Home.disk None ["register"])))
           (Some Home.settings_text)); reflexivity.
Defined.

(** ** Output *)

Lemma appends_refl p : appends p p.
Proof. exists []. symmetry. apply app_nil_r. Qed.

Lemma appends_trans p q r : appends p q -> appends q r -> appends p r.
Proof.
  intros [a Ha] [b Hb]. exists (a ++ b)%list.
  rewrite Hb, Ha, app_assoc. reflexivity.
Qed.

Lemma appends_emit e : keeps appends (emit e).
Proof. intros p. exists [e]. reflexivity. Qed.

Lemma appends_console_log o : keeps appends (console_log o).
Proof. apply appends_emit. Qed.

Lemma appends_console_error o : keeps appends (console_error o).
Proof. apply appends_emit. Qed.

Lemma appends_call pf r k : keeps appends (call pf r k).
Proof. intros p. exists [Send r]. reflexivity. Qed.

Lemma appends_set_files f : keeps appends (set_files f).
Proof. intros p. exists []. simpl. symmetry. apply app_nil_r. Qed.

Lemma appends_set_config c : keeps appends (set_config c).
Proof. intros p. exists []. simpl. symmetry. apply app_nil_r. Qed.

Lemma appends_set_args a : keeps appends (set_args a).
Proof. intros p. exists []. simpl. symmetry. apply app_nil_r. Qed.

#[local] Hint Resolve appends_emit appends_console_log appends_console_error
  appends_call appends_set_files appends_set_config appends_set_args : core.

Ltac appends_steps :=
  repeat keeps_step appends_refl appends_trans; auto.

Lemma appends_readStdin : keeps appends readStdin.
Proof. unfold readStdin. appends_steps. Qed.

Lemma appends_parse_json pf text : keeps appends (parse_json pf text).
Proof. unfold parse_json. appends_steps. Qed.

#[local] Hint Resolve appends_readStdin appends_parse_json : core.

(** Whatever the output mode, the [state] action starts by writing a line of
    plain text on standard output. *)
Lemma state_action_writes_text pf l p :
  exists rest,
    out (snd (action_switch pf l "state" p))
    = (out p ++ Stdout (Text "Reading state data from stdin...") :: rest)%list.
Proof.
  unfold action_switch. cbn [String.eqb Ascii.eqb Bool.eqb].
  match goal with
  | |- context [try_catch (bind (console_log ?t) ?m) ?h] =>
      assert (H : keeps appends (try_catch (m tt) h));
      [ appends_steps
      | specialize (H (snd (console_log t p))); destruct H as [rest H];
        exists rest;
        change (try_catch (bind (console_log t) m) h p)
          with (try_catch (m tt) h (snd (console_log t p))) ]
  end.
  cbv beta in H |- *. rewrite H. cbn [console_log emit snd out].
  rewrite <- app_assoc. reflexivity.
Qed.

(** C9: with [-j], the [state] action still writes plain text.  On every
    platform and selection, and in either output mode, the first thing the
    action writes to standard output is the line announcing the read; in the
    run [hue -j lights 1 state] three of the four lines written are no JSON
    documents. *)
Theorem json_mode_state_writes_text :
  (forall pf l p,
      exists rest,
        out (snd (action_switch pf l "state" p))
        = (out p ++ Stdout (Text "Reading state data from stdin...") :: rest)%list) /\
  starts_json_value "Reading state data from stdin..." = false /\
  json (snd (parse_options Home.pf [Home.option_j]
               (start Home.pf Home.disk (Some Home.power_on_text)
                      ["lights"; "1"; "state"]))) = true /\
  stdout_of (snd (hue Home.pf [Home.option_j] ["lights"; "1"; "state"]
                      Home.disk (Some Home.power_on_text)))
  = [Text "Reading state data from stdin...";
     Inspect "State data read from stdin:" (JObject [("on", JBool true)]);
     Inspect "Setting state for light 1 with data:"
             (JObject [("on", JBool true)]);
     Dump JNull] /\
  map may_be_json
      (stdout_of (snd (hue Home.pf [Home.option_j] ["lights"; "1"; "state"]
                           Home.disk (Some Home.power_on_text))))
  = [false; false; false; true].
Proof.
  split; [intros pf l p; apply state_action_writes_text|].
  repeat apply conj; vm_compute; reflexivity.
Qed.

(** ** Errors of single lights *)

(** The callback of an operation on a light does not look at the error it
    is called with: it asks for the lights. *)
Lemma callback_ignores_its_argument pf id r p :
  handle pf (KCallback id) r p = call pf ClientLights (KCallbackLights id) p.
Proof. reflexivity. Qed.

(** Once the lights are listed, the line written for a light is the one of
    success: the branch that reports a failure tests the error of the
    listing, which has just been found absent. *)
Lemma callback_reports_success pf id lights p :
  json p = false ->
  lightState_on lights id <> None ->
  exists line,
    handle pf (KCallbackLights id) (Reply None (LightsData lights)) p
    = console_log (Text line) p.
Proof.
  intros Hj Hs. unfold handle. cbn [err_of data_of].
  unfold bind at 1. cbn [ret]. unfold bind, get. rewrite Hj.
  destruct (lightState_on lights id) as [lit|]; [|congruence].
  repeat match goal with
  | |- context [if ?b then _ else _] => destruct b
  end; eexists; reflexivity.
Qed.

(** C5: the error of an operation on one light is not reported.  The bridge
    answers [off] for light 1 with an error; the run still ends normally,
    standard error stays empty, and the only line written says the light was
    turned on.  With [-j] the line is [null]. *)
Theorem operation_error_is_not_reported :
  (forall pf id r r' p,
      handle pf (KCallback id) r p = handle pf (KCallback id) r' p) /\
  Home.hub [ClientLights] (ClientOff "1")
  = Reply (Some Home.unreachable) Undefined /\
  fst (hue Home.pf [] ["lights"; "1"; "off"] Home.disk None) = Ok tt /\
  sent_of (snd (hue Home.pf [] ["lights"; "1"; "off"] Home.disk None))
  = [ClientLights; ClientOff "1"; ClientLights] /\
  stderr_of (snd (hue Home.pf [] ["lights"; "1"; "off"] Home.disk None)) = [] /\
  stdout_of (snd (hue Home.pf [] ["lights"; "1"; "off"] Home.disk None))
  = [Text "💡 desk was turned on"] /\
  stdout_of (snd (hue Home.pf [Home.option_j] ["lights"; "1"; "off"]
                      Home.disk None))
  = [Dump JNull].
Proof.
  split; [intros; rewrite !callback_ignores_its_argument; reflexivity|].
  repeat apply conj; vm_compute; reflexivity.
Qed.

(** ** The event loop runs every callback *)

Lemma below_refl n p : queues_below n p p.
Proof. exists []. split; [symmetry; apply app_nil_r | constructor]. Qed.

Lemma below_trans n p q r :
  queues_below n p q -> queues_below n q r -> queues_below n p r.
Proof.
  intros (a & Ha & Fa) (b & Hb & Fb). exists (a ++ b)%list. split.
  - rewrite Hb, Ha, app_assoc. reflexivity.
  - apply Forall_app. split; assumption.
Qed.

Lemma below_mono n m p q :
  (n <= m)%nat -> queues_below n p q -> queues_below m p q.
Proof.
  intros Hnm (a & Ha & Fa). exists a. split; [exact Ha|].
  eapply Forall_impl; [exact Fa|]. intros x Hx. simpl in *. lia.
Qed.

Lemma below_same n p q : pending q = pending p -> queues_below n p q.
Proof.
  intros H. exists []. split; [rewrite H; symmetry; apply app_nil_r | constructor].
Qed.

Lemma below_emit n e : keeps (queues_below n) (emit e).
Proof. intros p. apply below_same. reflexivity. Qed.

Lemma below_console_log n o : keeps (queues_below n) (console_log o).
Proof. apply below_emit. Qed.

Lemma below_console_error n o : keeps (queues_below n) (console_error o).
Proof. apply below_emit. Qed.

Lemma below_console_info n o : keeps (queues_below n) (console_info o).
Proof. apply below_emit. Qed.

Lemma below_printf pf n s : keeps (queues_below n) (printf pf s).
Proof.
  unfold printf. destruct (sprintf pf s);
    [apply (keeps_throw _ (below_refl n)) | apply below_emit].
Qed.

Lemma below_set_files n f : keeps (queues_below n) (set_files f).
Proof. intros p. apply below_same. reflexivity. Qed.

Lemma below_set_config n c : keeps (queues_below n) (set_config c).
Proof. intros p. apply below_same. reflexivity. Qed.

Lemma below_set_configfile n c : keeps (queues_below n) (set_configfile c).
Proof. intros p. apply below_same. reflexivity. Qed.

Lemma below_set_json n b : keeps (queues_below n) (set_json b).
Proof. intros p. apply below_same. reflexivity. Qed.

Lemma below_set_args n a : keeps (queues_below n) (set_args a).
Proof. intros p. apply below_same. reflexivity. Qed.

Lemma below_set_csscolors n c : keeps (queues_below n) (set_csscolors c).
Proof. intros p. apply below_same. reflexivity. Qed.

Lemma below_enqueue n k r :
  (rank k < n)%nat -> keeps (queues_below n) (enqueue k r).
Proof.
  intros H p. exists [(k, r)]. split; [reflexivity|].
  constructor; [exact H | constructor].
Qed.

Lemma below_call pf n r k :
  (rank k < n)%nat -> keeps (queues_below n) (call pf r k).
Proof.
  intros H p. exists [(k, bridge pf (issued p) r)]. split; [reflexivity|].
  constructor; [exact H | constructor].
Qed.

Lemma below_log_json n v : keeps (queues_below n) (log_json v).
Proof. destruct v; apply below_console_log. Qed.

#[local] Hint Resolve below_emit below_console_log below_console_error
  below_console_info below_printf below_set_files below_set_config
  below_set_configfile below_set_json below_set_args below_set_csscolors
  below_log_json : core.

Ltac below_steps n :=
  repeat keeps_step (below_refl n) (below_trans n);
  auto;
  try (first [apply below_call | apply below_enqueue]; simpl; lia).

Lemma below_readFileSync n file : keeps (queues_below n) (readFileSync file).
Proof. unfold readFileSync. below_steps n. Qed.

Lemma below_readStdin n : keeps (queues_below n) readStdin.
Proof. unfold readStdin. below_steps n. Qed.

Lemma below_writeFileSync pf n file data :
  keeps (queues_below n) (writeFileSync pf file data).
Proof. unfold writeFileSync. below_steps n. Qed.

Lemma below_statPath n path : keeps (queues_below n) (statPath path).
Proof. unfold statPath. below_steps n. Qed.

Lemma below_parse_config pf n text :
  keeps (queues_below n) (parse_config pf text).
Proof. unfold parse_config. below_steps n. Qed.

Lemma below_parse_json pf n text : keeps (queues_below n) (parse_json pf text).
Proof. unfold parse_json. below_steps n. Qed.

Lemma below_getclient n : keeps (queues_below n) getclient.
Proof. unfold getclient. below_steps n. Qed.

#[local] Hint Resolve below_readFileSync below_readStdin below_writeFileSync
  below_statPath below_parse_config below_parse_json below_getclient : core.

Lemma below_action_switch pf l action :
  keeps (queues_below 3) (action_switch pf l action).
Proof. unfold action_switch. below_steps 3%nat. Qed.

Lemma below_lights_command pf lights :
  keeps (queues_below 3) (lights_command pf lights).
Proof.
  unfold lights_command. below_steps 3%nat. apply below_action_switch.
Qed.

(** A callback only queues callbacks of a lower rank. *)
Lemma below_handle pf k r : keeps (queues_below (rank k)) (handle pf k r).
Proof.
  destruct k; unfold handle; cbn [rank];
    try (below_steps 0%nat; fail);
    try (below_steps 1%nat; fail);
    try (below_steps 2%nat; fail).
  below_steps 3%nat. apply below_lights_command.
Qed.

Lemma below_parse_options pf opts : keeps (queues_below 4) (parse_options pf opts).
Proof. induction opts as [|o opts IH]; cbn [parse_options]; below_steps 4%nat. Qed.

Lemma below_main pf opts : keeps (queues_below 4) (main pf opts).
Proof.
  unfold main, load_config, load_colors, command, command_register,
    command_alias, getlights.
  below_steps 4%nat. apply below_parse_options.
Qed.

Lemma below_run_callbacks pf n q :
  Forall (fun kr => (rank (fst kr) < S n)%nat) q ->
  keeps (queues_below n) (run_callbacks pf q).
Proof.
  induction 1 as [|[k r] q Hk Hq IH]; cbn [run_callbacks].
  - apply (keeps_ret _ (below_refl n)).
  - apply (keeps_bind _ (below_trans n)); [|intros _; exact IH].
    intros p. apply (below_mono (rank k) n); [simpl in Hk; lia|].
    apply below_handle.
Qed.

(** With callbacks of rank below [n] waiting, [n + 1] rounds leave none. *)
Lemma event_loop_drains pf n p :
  Forall (fun kr => (rank (fst kr) < n)%nat) (pending p) ->
  fst (event_loop pf (S n) p) = Ok tt ->
  pending (snd (event_loop pf (S n) p)) = [].
Proof.
  revert p. induction n as [|n IH]; intros p Hp Hok.
  - destruct (pending p) as [|[k r] q] eqn:E.
    + cbn [event_loop]. unfold bind, take_pending. rewrite E. reflexivity.
    + inversion Hp; subst. simpl in *. lia.
  - remember (S n) as m. cbn [event_loop] in *.
    unfold bind at 1 in Hok. unfold bind at 1. unfold take_pending in *.
    destruct (pending p) as [|kr q] eqn:E; [reflexivity|].
    set (p0 := {| files := files p; stdin := stdin p; config := config p;
                  configfile := configfile p; json := json p; args := args p;
                  csscolors := csscolors p; out := out p;
                  issued := issued p; pending := [] |}) in *.
    pose proof (below_run_callbacks pf n (kr :: q)) as Hrun.
    rewrite Heqm in Hp. specialize (Hrun Hp p0).
    unfold bind in Hok |- *.
    destruct (run_callbacks pf (kr :: q) p0) as [[[]|c|e] p1];
      [|discriminate Hok..].
    destruct Hrun as (added & Ha & Fa). simpl in Ha.
    subst m. apply IH; [rewrite Ha; exact Fa | exact Hok].
Qed.

(** A run that ends normally has run every callback it queued: the rounds
    of [max_rounds] are enough. *)
Lemma hue_drains pf opts argv fs input :
  fst (hue pf opts argv fs input) = Ok tt ->
  pending (snd (hue pf opts argv fs input)) = [].
Proof.
  unfold hue, max_rounds. intros Hok.
  pose proof (below_main pf opts (start pf fs input argv)) as (added & Ha & Fa).
  unfold bind in Hok |- *.
  destruct (main pf opts (start pf fs input argv)) as [[[]|c|e] p1];
    [|discriminate Hok..].
  simpl in Ha. apply event_loop_drains; [rewrite Ha; exact Fa | exact Hok].
Qed.

(** * Further properties of the script *)

(** ** [hex2rgb] (lines 479-499) *)

Lemma hex_digit_range c d : hex_digit c = Some d -> 0 <= d <= 15.
Proof.
  unfold hex_digit. intros H.
  repeat match type of H with
  | (if ?b then _ else _) = _ => destruct b eqn:?
  end; try discriminate H; injection H as <-; lia.
Qed.

(** One leading [#] is dropped. *)
Lemma hex2rgb_sharp c s :
  Ascii.eqb c "#" = false ->
  hex2rgb (String "#" (String c s)) = hex2rgb (String c s).
Proof.
  intros H. unfold hex2rgb. cbn [char_at String.get slice1].
  change (Ascii.eqb "#" "#") with true. rewrite H. reflexivity.
Qed.

(** X1: six hexadecimal digits are read as three bytes, two digits each,
    with or without a leading [#]. *)
Theorem hex2rgb_six_digits a b c d e f :
  is_hex_digit a = true -> is_hex_digit b = true -> is_hex_digit c = true ->
  is_hex_digit d = true -> is_hex_digit e = true -> is_hex_digit f = true ->
  exists da db dc dd de df,
    hex_digit a = Some da /\ hex_digit b = Some db /\ hex_digit c = Some dc /\
    hex_digit d = Some dd /\ hex_digit e = Some de /\ hex_digit f = Some df /\
    hex2rgb (six a b c d e f)
    = (Int (16 * da + db), Int (16 * dc + dd), Int (16 * de + df)) /\
    hex2rgb (String "#" (six a b c d e f)) = hex2rgb (six a b c d e f) /\
    is_byte (Int (16 * da + db)) /\ is_byte (Int (16 * dc + dd)) /\
    is_byte (Int (16 * de + df)).
Proof.
  intros Ha Hb Hc Hd He Hf.
  destruct (hex_digit_plain a Ha) as (_ & _ & _ & _ & _ & Hsharp).
  destruct (todec_hex a b Ha Hb) as (da & db & Hda & Hdb & E1).
  destruct (todec_hex c d Hc Hd) as (dc & dd & Hdc & Hdd & E2).
  destruct (todec_hex e f He Hf) as (de & df & Hde & Hdf & E3).
  exists da, db, dc, dd, de, df.
  assert (Hplain : hex2rgb (six a b c d e f)
                   = (Int (16 * da + db), Int (16 * dc + dd), Int (16 * de + df))).
  { unfold hex2rgb, six. cbn [char_at String.get]. rewrite Hsharp.
    rewrite <- E1, <- E2, <- E3. reflexivity. }
  pose proof (hex_digit_range a da Hda). pose proof (hex_digit_range b db Hdb).
  pose proof (hex_digit_range c dc Hdc). pose proof (hex_digit_range d dd Hdd).
  pose proof (hex_digit_range e de Hde). pose proof (hex_digit_range f df Hdf).
  repeat apply conj; try assumption; try (simpl; lia).
  apply hex2rgb_sharp. exact Hsharp.
Qed.

Lemma hex2rgb_six_digits_witness :
  exists da db dc dd de df,
    hex_digit "1" = Some da /\ hex_digit "e" = Some db /\
    hex_digit "9" = Some dc /\ hex_digit "0" = Some dd /\
    hex_digit "F" = Some de /\ hex_digit "f" = Some df /\
    hex2rgb (six "1" "e" "9" "0" "F" "f")
    = (Int (16 * da + db), Int (16 * dc + dd), Int (16 * de + df)) /\
    hex2rgb (String "#" (six "1" "e" "9" "0" "F" "f"))
    = hex2rgb (six "1" "e" "9" "0" "F" "f") /\
    is_byte (Int (16 * da + db)) /\ is_byte (Int (16 * dc + dd)) /\
    is_byte (Int (16 * de + df)).
Proof.
  apply (hex2rgb_six_digits "1" "e" "9" "0" "F" "f"); reflexivity.
Defined.

(** Without a leading [#] the string is read as it is. *)
Lemma hex2rgb_plain hex :
  starts_with_sharp hex = false ->
  hex2rgb hex
  = if Nat.eqb (String.length hex) 3 then
      (todec (char_at hex 0) (char_at hex 0),
       todec (char_at hex 1) (char_at hex 1),
       todec (char_at hex 2) (char_at hex 2))
    else
      (todec (char_at hex 0) (char_at hex 1),
       todec (char_at hex 2) (char_at hex 3),
       todec (char_at hex 4) (char_at hex 5)).
Proof.
  unfold starts_with_sharp, hex2rgb. intros H.
  destruct (char_at hex 0) as [c|] eqn:E; [rewrite H|]; cbv beta iota zeta;
    rewrite ?E; reflexivity.
Qed.

(** X2: only the first six characters of a string are read: what follows
    them changes no channel. *)
Theorem hex2rgb_ignores_tail a b c d e f tail :
  Ascii.eqb a "#" = false ->
  hex2rgb (six a b c d e f ++ tail) = hex2rgb (six a b c d e f).
Proof.
  intros H. rewrite !hex2rgb_plain by exact H. reflexivity.
Qed.

Lemma hex2rgb_ignores_tail_witness :
  hex2rgb (six "f" "f" "8" "0" "0" "0" ++ "ff") = hex2rgb (six "f" "f" "8" "0" "0" "0").
Proof. apply (hex2rgb_ignores_tail "f" "f" "8" "0" "0" "0" "ff"). reflexivity. Defined.

(** X3: a string too short is not rejected: with fewer than three
    characters, or with four, the blue channel is [NaN], and with fewer than
    three so is the green one. *)
Theorem hex2rgb_short_string hex :
  starts_with_sharp hex = false ->
  (String.length hex < 3 \/ String.length hex = 4)%nat ->
  blue (hex2rgb hex) = NaN /\
  ((String.length hex < 3)%nat -> green (hex2rgb hex) = NaN).
Proof.
  intros Hs Hl. rewrite (hex2rgb_plain hex Hs).
  destruct hex as [|a [|b [|c [|d [|e hex]]]]]; cbn [String.length] in Hl |- *;
    try lia; (split; [reflexivity | intros H; try lia; reflexivity]).
Qed.

Lemma hex2rgb_short_string_witness :
  blue (hex2rgb "ff") = NaN /\
  ((String.length "ff" < 3)%nat -> green (hex2rgb "ff") = NaN).
Proof. apply (hex2rgb_short_string "ff"); [reflexivity | left; simpl; lia]. Defined.

(** ** Brightness expressions (lines 282-310) *)

Lemma span_digits_app num perc :
  all_digits num = true -> (perc = EmptyString \/ perc = "%") ->
  span_digits (num ++ perc) = (num, perc).
Proof.
  intros Hd Hp. induction num as [|c num IH].
  - destruct Hp as [-> | ->]; reflexivity.
  - simpl in Hd. apply andb_prop in Hd as [Hc Hd].
    change (String c num ++ perc) with (String c (num ++ perc)).
    cbn [span_digits]. rewrite Hc, (IH Hd). reflexivity.
Qed.

(** X4: the pattern accepts exactly an operator among [=], [+] and [-], then
    at least one decimal digit, then at most one [%]; the three groups are
    these three parts. *)
Theorem brightness_match_language s op num perc :
  brightness_match s = Some (op, num, perc) <->
  (op = "=" \/ op = "+" \/ op = "-") /\
  all_digits num = true /\ num <> EmptyString /\
  (perc = EmptyString \/ perc = "%") /\
  s = op ++ num ++ perc.
Proof.
  split; [apply brightness_match_spec|].
  intros (Hop & Hd & Hne & Hp & ->).
  assert (Ht : truthy num = true) by (destruct num; [congruence | reflexivity]).
  assert (Hperc : (String.eqb perc EmptyString || String.eqb perc "%") = true)
    by (destruct Hp as [-> | ->]; reflexivity).
  destruct Hop as [-> | [-> | ->]];
    match goal with
    | |- brightness_match (String ?o EmptyString ++ ?r) = _ =>
        change (String o EmptyString ++ r) with (String o r)
    end;
    unfold brightness_match; cbn [Ascii.eqb Bool.eqb orb andb];
    rewrite (span_digits_app num perc Hd Hp), Ht, Hperc; reflexivity.
Qed.

(** X5: on a light whose brightness is within range, an increment never
    lowers the brightness sent, a decrement never raises it, and an absolute
    value does not depend on the current one. *)
Theorem brightness_direction s op num perc current :
  brightness_match s = Some (op, num, perc) ->
  1 <= current <= 254 ->
  exists v,
    new_brightness op num perc current = Int v /\
    (op = "+" -> current <= v) /\
    (op = "-" -> v <= current) /\
    (op = "=" -> forall other, new_brightness op num perc other = Int v).
Proof.
  intros Hm Hc.
  destruct (brightness_match_spec s op num perc Hm) as (Hop & Hd & Hne & Hp & _).
  destruct (digits_acc_value 0 num Hd) as (n & Hn & Hn0 & _).
  assert (Hround : 0 <= round_hundredths (n * 254)).
  { unfold round_hundredths. apply Z.div_pos; lia. }
  destruct Hop as [-> | [-> | ->]].
  - eexists. split; [apply (new_brightness_spec "=" num perc n); auto; discriminate|].
    split; [discriminate|]. split; [discriminate|]. intros _ other.
    rewrite (new_brightness_spec "=" num perc n other) by (auto; discriminate).
    reflexivity.
  - destruct Hp as [-> | ->].
    + eexists. split; [apply (new_brightness_plus_plain num n); auto; lia|].
      split; [|split; discriminate]. intros _.
      assert (1 <= 10 ^ Z.of_nat (String.length num))
        by (apply Z.lt_pred_le, Z.pow_pos_nonneg; lia).
      unfold clampZ. nia.
    + eexists. split; [apply (new_brightness_spec "+" num "%" n); auto|].
      split; [|split; discriminate]. intros _.
      unfold Spec.brightness, Spec.magnitude, clampZ. simpl. lia.
  - eexists. split; [apply (new_brightness_spec "-" num perc n); auto; discriminate|].
    split; [discriminate|]. split; [|discriminate]. intros _.
    unfold Spec.brightness, Spec.magnitude, clampZ.
    destruct Hp as [-> | ->]; simpl; lia.
Qed.

Lemma brightness_direction_witness :
  exists v,
    new_brightness "+" "7" EmptyString 20 = Int v /\
    ("+" = "+" -> 20 <= v) /\
    ("+" = "-" -> v <= 20) /\
    ("+" = "=" -> forall other, new_brightness "+" "7" EmptyString other = Int v).
Proof. apply (brightness_direction "+7"); [reflexivity | lia]. Defined.

(** ** The command switch (lines 143-435) and the clients (lines 437-477) *)

(** X6: without a host, from [-H] or from the configuration, every command
    that needs a client ends the process with status 1 after one message on
    standard error: no client is created and no request is sent or queued. *)
Theorem host_not_set_is_fatal pf p c :
  args p !! 0%nat = Some c ->
  In c client_commands ->
  truthy_opt (host (config p)) = false ->
  fst (command pf p) = Exit 1 /\
  out (snd (command pf p)) = (out p ++ [host_not_set])%list /\
  pending (snd (command pf p)) = pending p /\
  files (snd (command pf p)) = files p.
Proof.
  intros Ha Hc Hh.
  assert (Hg : getclient p = (Exit 1, snd (emit host_not_set p))).
  { unfold getclient, bind, get. rewrite Hh. reflexivity. }
  assert (E : command pf p = (Exit 1, snd (emit host_not_set p))).
  { unfold command, bind at 1, get at 1. rewrite Ha. simpl in Hc.
    destruct Hc as [<- | [<- | [<- | [<- | [<- | []]]]]];
      cbn [is_case String.eqb Ascii.eqb Bool.eqb orb];
      apply bind_exit; exact Hg. }
  rewrite E. repeat apply conj; reflexivity.
Qed.

Lemma host_not_set_is_fatal_witness :
  fst (command Home.pf (start Home.pf ∅ None ["lights"; "1"; "on"])) = Exit 1 /\
  out (snd (command Home.pf (start Home.pf ∅ None ["lights"; "1"; "on"])))
  = (out (start Home.pf ∅ None ["lights"; "1"; "on"]) ++ [host_not_set])%list /\
  pending (snd (command Home.pf (start Home.pf ∅ None ["lights"; "1"; "on"])))
  = pending (start Home.pf ∅ None ["lights"; "1"; "on"]) /\
  files (snd (command Home.pf (start Home.pf ∅ None ["lights"; "1"; "on"])))
  = files (start Home.pf ∅ None ["lights"; "1"; "on"]).
Proof.
  apply (host_not_set_is_fatal Home.pf _ "lights");
    [reflexivity | simpl; auto | reflexivity].
Defined.

(** X7: a first operand that names no command, or no operand at all, ends
    the process with status 1 after one message on standard error; nothing
    is sent, queued or written. *)
Theorem unknown_command_is_fatal pf p :
  known_command (args p !! 0%nat) = false ->
  fst (command pf p) = Exit 1 /\
  out (snd (command pf p)) = (out p ++ [unknown_command])%list /\
  pending (snd (command pf p)) = pending p /\
  files (snd (command pf p)) = files p.
Proof.
  intros Hk.
  assert (E : command pf p = (Exit 1, snd (emit unknown_command p))).
  { unfold command, bind at 1, get at 1.
    destruct (args p !! 0%nat) as [c|]; [|reflexivity].
    unfold known_command, commands in Hk. cbn [existsb] in Hk.
    rewrite !orb_false_iff in Hk.
    destruct Hk as (H1 & H2 & H3 & H4 & H5 & H6 & H7 & H8 & H9 & _).
    cbn [is_case]. rewrite H1, H2, H3, H4, H5, H6, H7, H8, H9. reflexivity. }
  rewrite E. repeat apply conj; reflexivity.
Qed.

Lemma unknown_command_is_fatal_witness :
  fst (command Home.pf (start Home.pf Home.disk None ["lamps"])) = Exit 1 /\
  out (snd (command Home.pf (start Home.pf Home.disk None ["lamps"])))
  = (out (start Home.pf Home.disk None ["lamps"]) ++ [unknown_command])%list /\
  pending (snd (command Home.pf (start Home.pf Home.disk None ["lamps"])))
  = pending (start Home.pf Home.disk None ["lamps"]) /\
  files (snd (command Home.pf (start Home.pf Home.disk None ["lamps"])))
  = files (start Home.pf Home.disk None ["lamps"]).
Proof. apply (unknown_command_is_fatal Home.pf); reflexivity. Defined.

Lemma getclient_ok p :
  truthy_opt (host (config p)) = true ->
  getclient p
  = emit (CreateClient (opt_text (host (config p))) (username (config p))) p.
Proof. intros H. unfold getclient, bind, get. rewrite H. reflexivity. Qed.

(** With a host, the lights commands create the client and ask the bridge
    for its lights. *)
Lemma command_lights pf p c :
  args p !! 0%nat = Some c ->
  In c ["lights"; "light"; "list"] ->
  truthy_opt (host (config p)) = true ->
  command pf p
  = call pf ClientLights KGetLights
      (snd (emit (CreateClient (opt_text (host (config p)))
                               (username (config p))) p)).
Proof.
  intros Ha Hc Hh. unfold command, bind at 1, get at 1. rewrite Ha.
  simpl in Hc.
  destruct Hc as [<- | [<- | [<- | []]]];
    cbn [is_case String.eqb Ascii.eqb Bool.eqb orb];
    unfold getlights;
    apply (bind_ok getclient (fun _ => call pf ClientLights KGetLights) p tt
             (snd (emit (CreateClient (opt_text (host (config p)))
                                      (username (config p))) p)));
    rewrite getclient_ok by exact Hh; reflexivity.
Qed.

(** X8: when the bridge answers the listing of the lights with an error,
    the lights command stops there: the process ends with status 1 after one
    line, which names the registration when the error is of type 1, and no
    light is asked or changed. *)
Theorem listing_error_is_fatal pf p c e d :
  args p !! 0%nat = Some c ->
  In c ["lights"; "light"; "list"] ->
  truthy_opt (host (config p)) = true ->
  pending p = [] ->
  bridge pf (issued p) ClientLights = Reply (Some e) d ->
  fst (run pf (command pf) p) = Exit 1 /\
  out (snd (run pf (command pf) p))
  = (out p
     ++ [CreateClient (opt_text (host (config p))) (username (config p));
         Send ClientLights;
         listing_failure e])%list.
Proof.
  intros Ha Hc Hh Hq Hb. unfold run.
  erewrite bind_ok; [|rewrite (command_lights pf p c Ha Hc Hh); reflexivity].
  unfold max_rounds. cbn [event_loop]. unfold bind at 1 3, take_pending.
  cbn [call bind get record_request enqueue ret emit fst snd pending issued].
  rewrite Hq, Hb. cbn [app run_callbacks handle err_of data_of].
  unfold listing_failure, run_callbacks, handle, bind. simpl.
  destruct (type e =? 1);
    unfold bind, console_error, console_info, emit, process_exit, ret; simpl;
    rewrite <- ?app_assoc; split; reflexivity.
Qed.

Lemma listing_error_is_fatal_witness :
  fst (run (Lab.platform_with Lab.locked) (command (Lab.platform_with Lab.locked))
         (Lab.ready Home.settings ["lights"; "1"; "on"] None false)) = Exit 1 /\
  out (snd (run (Lab.platform_with Lab.locked)
              (command (Lab.platform_with Lab.locked))
              (Lab.ready Home.settings ["lights"; "1"; "on"] None false)))
  = (out (Lab.ready Home.settings ["lights"; "1"; "on"] None false)
     ++ [CreateClient
           (opt_text (host (config (Lab.ready Home.settings
                                       ["lights"; "1"; "on"] None false))))
           (username (config (Lab.ready Home.settings
                                ["lights"; "1"; "on"] None false)));
         Send ClientLights;
         listing_failure Lab.unregistered])%list.
Proof.
  apply (listing_error_is_fatal (Lab.platform_with Lab.locked) _ "lights"
           Lab.unregistered Undefined);
    [reflexivity | simpl; auto | reflexivity | reflexivity | reflexivity].
Defined.

(** ** Aliases (lines 205-209 and 392-406) *)

Lemma set_member_insert (o : gmap string string) key v :
  key <> "__proto__" -> set_member o key v = <[key := v]> o.
Proof.
  intros H. unfold set_member. destruct (o !! key); [reflexivity|].
  destruct (String.eqb_spec key "__proto__"); [contradiction | reflexivity].
Qed.

(** X9: when the configuration file is a regular file that can be written,
    [hue alias name ids], for a name other than [__proto__], records the
    alias, keeps the other aliases, and writes the configuration, followed by
    a newline, to the configuration file; with the configuration it leaves,
    the selector [name] stands for the ids of the comma list [ids], provided
    [name] does not begin with a shortcut keyword. *)
Theorem alias_defines_selection pf p cmd name ids cf content keys args' :
  args p = [cmd; name; ids] ->
  configfile p = Some cf ->
  files p !! cf = Some (RegularFile content) ->
  write_error pf cf = None ->
  name <> "__proto__" ->
  truthy ids = true ->
  selector_is_shortcut name = false ->
  fst (command_alias pf p) = Ok tt /\
  aliases (config (snd (command_alias pf p))) = <[name := ids]> (aliases (config p)) /\
  files (snd (command_alias pf p))
  = <[cf := RegularFile
              (Some (JSON_stringify_config pf (config (snd (command_alias pf p)))
                     ++ newline))]> (files p) /\
  shortcut_switch keys (split "," name) args' (config (snd (command_alias pf p)))
  = inr (split "," ids, args').
Proof.
  intros Ha Hcf Hfile Hwrite Hproto Hids Hname.
  set (c' := {| host := host (config p); username := username (config p);
                colors := colors (config p);
                alias := Some (<[name := ids]> (aliases (config p))) |}).
  assert (E : command_alias pf p
              = (console_log (Text ("config in " ++ cf ++ " updated")))
                  (snd (set_files
                          (<[cf := RegularFile
                                     (Some (JSON_stringify_config pf c' ++ newline))]>
                             (files p))
                          (snd (set_config c' p))))).
  { unfold command_alias, bind, get, writeFileSync, set_config, set_files, bind,
      get, throw. simpl. rewrite Ha, Hcf. simpl.
    rewrite (set_member_insert _ name ids Hproto). fold (aliases (config p)).
    rewrite Hfile, Hwrite. reflexivity. }
  rewrite E. cbn [console_log emit set_files set_config fst snd config files].
  split; [reflexivity|]. split; [reflexivity|]. split; [reflexivity|].
  unfold selector_is_shortcut in Hname.
  destruct (split_cons "," name) as (kw & rest & Hs). rewrite Hs in Hname.
  rewrite (shortcut_switch_default keys (split "," name) args' c' kw)
    by (rewrite ?Hs; auto).
  unfold c', get_member. cbn [alias].
  rewrite join_split, lookup_insert_eq, Hids. reflexivity.
Qed.

Lemma alias_defines_selection_witness :
  let p := Lab.ready Home.settings ["alias"; "bedroom"; "2,3"] None false in
  fst (command_alias Home.pf p) = Ok tt /\
  aliases (config (snd (command_alias Home.pf p)))
  = <["bedroom" := "2,3"]> (aliases (config p)) /\
  files (snd (command_alias Home.pf p))
  = <["/home/hue/.hue.json" :=
        RegularFile
          (Some (JSON_stringify_config Home.pf
                   (config (snd (command_alias Home.pf p)))
                 ++ newline))]>
      (files p) /\
  shortcut_switch ["1"; "2"; "3"] (split "," "bedroom") ["lights"; "bedroom"; "on"]
    (config (snd (command_alias Home.pf p)))
  = inr (split "," "2,3", ["lights"; "bedroom"; "on"]).
Proof.
  apply (alias_defines_selection Home.pf _ "alias" "bedroom" "2,3"
           "/home/hue/.hue.json" (Some Home.settings_text));
    [reflexivity | reflexivity | vm_compute; reflexivity | reflexivity
    | discriminate | reflexivity | reflexivity].
Defined.

(** X10: [alias] writes no file unless it has exactly two operands after
    its name: alone it prints the aliases as JSON, an empty object when none
    is configured, and with any other number of operands it ends the process
    with status 1 after a message on standard error. *)
Theorem alias_writes_only_when_defining pf p :
  length (args p) <> 3%nat ->
  files (snd (command_alias pf p)) = files p /\
  (length (args p) = 1%nat ->
   fst (command_alias pf p) = Ok tt /\
   out (snd (command_alias pf p))
   = (out p ++ [Stdout (Dump (json_of_strings (aliases (config p))))])%list) /\
  (length (args p) <> 1%nat ->
   fst (command_alias pf p) = Exit 1 /\
   out (snd (command_alias pf p))
   = (out p ++ [Stderr (Text "wrong usage of alias, run `hue help`")])%list).
Proof.
  intros H3. unfold command_alias, bind, get, set_config, console_log,
    console_error, emit, process_exit. simpl. fold (aliases (config p)).
  destruct (Nat.eqb_spec (length (args p)) 1) as [H1 | H1].
  - repeat apply conj; try reflexivity; intros; [split; reflexivity | lia].
  - destruct (Nat.eqb_spec (length (args p)) 3) as [? | _]; [lia|].
    repeat apply conj; try reflexivity; intros; [lia | split; reflexivity].
Qed.

Lemma alias_writes_only_when_defining_witness :
  files (snd (command_alias Home.pf (Lab.ready Home.settings ["alias"] None false)))
  = files (Lab.ready Home.settings ["alias"] None false) /\
  (length (args (Lab.ready Home.settings ["alias"] None false)) = 1%nat ->
   fst (command_alias Home.pf (Lab.ready Home.settings ["alias"] None false))
   = Ok tt /\
   out (snd (command_alias Home.pf (Lab.ready Home.settings ["alias"] None false)))
   = (out (Lab.ready Home.settings ["alias"] None false)
      ++ [Stdout (Dump (json_of_strings
                          (aliases (config (Lab.ready Home.settings ["alias"]
                                                      None false)))))])%list) /\
  (length (args (Lab.ready Home.settings ["alias"] None false)) <> 1%nat ->
   fst (command_alias Home.pf (Lab.ready Home.settings ["alias"] None false))
   = Exit 1 /\
   out (snd (command_alias Home.pf (Lab.ready Home.settings ["alias"] None false)))
   = (out (Lab.ready Home.settings ["alias"] None false)
      ++ [Stderr (Text "wrong usage of alias, run `hue help`")])%list).
Proof.
  apply (alias_writes_only_when_defining Home.pf). simpl. lia.
Defined.

(** ** Color names (lines 136-141 and 327-332) *)

(** Assigning the colors of the configuration one after the other leaves,
    under every name but [__proto__], the color of the configuration if it
    has one, and else what the table had. *)
Lemma assigned_colors_lookup (table cs : gmap string string) name :
  name <> "__proto__" ->
  map_fold (fun key hex t => set_member t key hex) table cs !! name
  = match cs !! name with
    | Some hex => Some hex
    | None => table !! name
    end.
Proof.
  intros Hproto.
  apply (map_fold_weak_ind
           (fun (r : gmap string string) (m : gmap string string) =>
              r !! name = match m !! name with
                          | Some hex => Some hex
                          | None => table !! name
                          end)).
  - rewrite lookup_empty. reflexivity.
  - intros i x m r _ IH. destruct (decide (i = name)) as [-> | Hne].
    + rewrite (set_member_insert _ name x Hproto), !lookup_insert_eq.
      reflexivity.
    + rewrite (lookup_insert_ne m i name x Hne), <- IH.
      unfold set_member. destruct (r !! i);
        [apply lookup_insert_ne; exact Hne|].
      destruct (String.eqb i "__proto__");
        [reflexivity | apply lookup_insert_ne; exact Hne].
Qed.

(** X11: a color of the configuration takes precedence over the color of
    the same name in the built-in table, and a name the configuration does
    not define keeps its built-in color: once the colors are loaded, the
    color action sends each selected light the channels of the color found
    in that order, for every name but [__proto__] and every color that is
    not the empty string. *)
Theorem config_color_takes_precedence pf p l name cs hex :
  colors (config p) = Some cs ->
  is_action_keyword name = false ->
  brightness_match name = None ->
  name <> "__proto__" ->
  truthy hex = true ->
  cs !! name = Some hex \/ cs !! name = None /\ csscolors p !! name = Some hex ->
  fst (bind load_colors (fun _ => action_switch pf l name) p) = Ok tt /\
  out (snd (bind load_colors (fun _ => action_switch pf l name) p))
  = (out p ++ rgb_requests (hex2rgb hex) l)%list.
Proof.
  intros Hc Hk Hb Hproto Hhex Hfound.
  set (table := map_fold (fun key hex t => set_member t key hex) (csscolors p) cs).
  assert (E : load_colors p = (Ok tt, snd (set_csscolors table p))).
  { unfold load_colors, bind, get. rewrite Hc. reflexivity. }
  rewrite (bind_ok _ _ _ tt _ E).
  destruct (action_switch_color pf l name (snd (set_csscolors table p)) Hk Hb)
    as [H1 H2].
  split; [exact H1|]. rewrite H2. cbn [set_csscolors snd out csscolors].
  assert (Hl : table !! name = Some hex).
  { unfold table. rewrite (assigned_colors_lookup _ _ _ Hproto).
    destruct Hfound as [-> | [-> ->]]; reflexivity. }
  unfold get_member. rewrite Hl, Hhex. reflexivity.
Qed.

Lemma config_color_takes_precedence_witness :
  let p := Lab.ready {| host := Some "192.168.1.2"; username := None;
                        colors := Some {[ "red" := "#ee0000" ]};
                        alias := None |}
                     ["lights"; "1"; "red"] None false in
  fst (bind load_colors (fun _ => action_switch Home.pf ["1"] "red") p) = Ok tt /\
  out (snd (bind load_colors (fun _ => action_switch Home.pf ["1"] "red") p))
  = (out p ++ rgb_requests (hex2rgb "#ee0000") ["1"])%list.
Proof.
  apply (config_color_takes_precedence Home.pf _ ["1"] "red"
           {[ "red" := "#ee0000" ]} "#ee0000");
    [reflexivity | reflexivity | reflexivity | discriminate | reflexivity
    | left; reflexivity].
Defined.

(** ** Listing and information (lines 159-227) *)

(** X12: with a selector and no action, the lights command changes nothing.
    When the selector is looked up without an exception, all the command
    does is ask the bridge for each selected light once, in the order of the
    selection, which is every known light for [all] and otherwise the alias
    or the comma list.  When the selector is a name the alias table inherits
    and does not define, the command throws before any light is asked. *)
Theorem info_query_asks_each_light pf lights p cmd selector kw rest :
  args p = [cmd; selector] ->
  truthy selector = true ->
  split "," selector = kw :: rest ->
  (is_shortcut kw = false \/ kw = "all") ->
  let selection :=
    if String.eqb kw "all" then keys lights
    else selection_of (config p) selector in
  (kw = "all" \/ looked_up (config p) selector ->
   fst (lights_command pf lights p) = Ok tt /\
   out (snd (lights_command pf lights p))
   = (out p ++ map (fun id => Send (ClientLight id)) selection)%list) /\
  (kw <> "all" -> ~ looked_up (config p) selector ->
   fst (lights_command pf lights p) = Throw split_is_not_a_function /\
   out (snd (lights_command pf lights p)) = out p).
Proof.
  intros Ha Ht Hs Hk selection.
  assert (E : lights_command pf lights p
              = match shortcut_switch (keys lights) (kw :: rest) (args p)
                        (config p) with
                | inl e => throw e p
                | inr (l, a') =>
                    (set_args a' ;;
                     if negb (truthy_opt (a' !! 2%nat)) then
                       forEach l (fun id => call pf (ClientLight id) (KInfo id))
                     else action_switch pf l (opt_text (a' !! 2%nat))) p
                end).
  { unfold lights_command, bind at 1 2, get at 1 2. rewrite Ha.
    cbn [lookup list_lookup truthy_opt opt_text]. rewrite Ht. cbn [negb].
    unfold bind at 1, get at 1. rewrite Hs, <- Ha.
    destruct (shortcut_switch _ _ _ _) as [e|[l a']]; reflexivity. }
  assert (Hok : forall l,
             shortcut_switch (keys lights) (kw :: rest) (args p) (config p)
             = inr (l, args p) ->
             fst (lights_command pf lights p) = Ok tt /\
             out (snd (lights_command pf lights p))
             = (out p ++ map (fun id => Send (ClientLight id)) l)%list).
  { intros l Hsw. rewrite E, Hsw.
    rewrite (bind_ok _ _ p tt (snd (set_args (args p) p))) by reflexivity.
    rewrite Ha. cbn [lookup list_lookup truthy_opt negb].
    apply (forEach_call pf l ClientLight KInfo (snd (set_args _ p))). }
  assert (Hdef : is_shortcut kw = false ->
             shortcut_switch (keys lights) (kw :: rest) (args p) (config p)
             = match alias (config p) with
               | Some a =>
                   match get_member a selector with
                   | Own ids =>
                       inr (if truthy ids then split "," ids else kw :: rest,
                            args p)
                   | Inherited => inl split_is_not_a_function
                   | Absent => inr (kw :: rest, args p)
                   end
               | None => inr (kw :: rest, args p)
               end).
  { intros Hn.
    rewrite (shortcut_switch_default (keys lights) (kw :: rest) (args p)
               (config p) kw eq_refl Hn), <- Hs, join_split.
    reflexivity. }
  split.
  - intros Hl. apply Hok. unfold selection.
    destruct Hk as [Hn | ->]; [|reflexivity].
    destruct (String.eqb_spec kw "all") as [-> | _]; [discriminate Hn|].
    destruct Hl as [-> | Hl]; [discriminate Hn|].
    rewrite (Hdef Hn). unfold selection_of, aliases, looked_up, aliases in *.
    unfold get_member. rewrite Hs.
    destruct (alias (config p)) as [a|]; [|rewrite lookup_empty; reflexivity].
    destruct (a !! selector) as [ids|]; [destruct (truthy ids); reflexivity|].
    destruct Hl as [Hl | [Hl | ->]]; [discriminate Hl | congruence | reflexivity].
  - intros Hall Hl. destruct Hk as [Hn | ->]; [|contradiction].
    rewrite E, (Hdef Hn). unfold looked_up, aliases in Hl. unfold get_member.
    destruct (alias (config p)) as [a|]; [|exfalso; apply Hl; left; reflexivity].
    destruct (a !! selector) as [ids|];
      [exfalso; apply Hl; right; left; discriminate|].
    destruct (is_prototype_member selector);
      [split; reflexivity | exfalso; apply Hl; right; right; reflexivity].
Qed.

Lemma info_query_asks_each_light_witness :
  let p := Lab.ready Home.settings ["lights"; "2,1"] None false in
  let selection :=
    if String.eqb "2" "all" then keys Home.lamps
    else selection_of (config p) "2,1" in
  ("2" = "all" \/ looked_up (config p) "2,1" ->
   fst (lights_command Home.pf Home.lamps p) = Ok tt /\
   out (snd (lights_command Home.pf Home.lamps p))
   = (out p ++ map (fun id => Send (ClientLight id)) selection)%list) /\
  ("2" <> "all" -> ~ looked_up (config p) "2,1" ->
   fst (lights_command Home.pf Home.lamps p) = Throw split_is_not_a_function /\
   out (snd (lights_command Home.pf Home.lamps p)) = out p).
Proof.
  apply (info_query_asks_each_light Home.pf Home.lamps _ "lights" "2,1" "2" ["1"]);
    [reflexivity | reflexivity | reflexivity | left; reflexivity].
Defined.

Lemma lookup_light_in lights k l :
  NoDup (keys lights) -> In (k, l) lights -> lookup_light lights k = Some l.
Proof.
  induction lights as [|[k' l'] lights IH]; intros Hnd Hin; [destruct Hin|].
  cbn [keys map fst] in Hnd. apply NoDup_cons in Hnd as [Hk' Hnd].
  cbn [lookup_light]. destruct Hin as [[= -> ->] | Hin].
  - rewrite String.eqb_refl. reflexivity.
  - destruct (String.eqb_spec k' k) as [-> | _]; [|apply IH; assumption].
    exfalso. apply Hk'. apply list_elem_of_In.
    change k with (fst (k, l)). apply in_map. exact Hin.
Qed.

(** A text without [%] is printed as it is. *)
Lemma printf_plain pf s p :
  has_percent s = false -> printf pf s p = console_log (Text s) p.
Proof. intros H. unfold printf, sprintf. rewrite H. reflexivity. Qed.

Lemma untouched_printf pf s : keeps untouched (printf pf s).
Proof.
  unfold printf. destruct (sprintf pf s);
    [apply (keeps_throw _ untouched_refl) | apply untouched_console_log].
Qed.

Lemma forEach_listing pf (all lights : LightMap) p :
  (forall k l, In (k, l) lights -> lookup_light all k = Some l) ->
  Forall (fun kl => has_percent (listing_line kl) = false) lights ->
  fst (forEach (keys lights) (fun key =>
         match lookup_light all key with
         | Some light => printf pf (key ++ ", " ++ name light)
         | None => not_an_object "name"
         end) p) = Ok tt /\
  out (snd (forEach (keys lights) (fun key =>
         match lookup_light all key with
         | Some light => printf pf (key ++ ", " ++ name light)
         | None => not_an_object "name"
         end) p))
  = (out p ++ map (fun kl => Stdout (Text (listing_line kl))) lights)%list.
Proof.
  revert p. induction lights as [|[k l] lights IH]; intros p Hall Hplain.
  - split; [reflexivity|]. simpl. rewrite app_nil_r. reflexivity.
  - change (keys ((k, l) :: lights)) with (k :: keys lights). cbn [forEach].
    apply Forall_cons in Hplain as [Hkl Hplain].
    rewrite (bind_ok _ _ p tt (snd (console_log (Text (listing_line (k, l))) p)))
      by (rewrite (Hall k l (or_introl eq_refl));
          apply (printf_plain pf _ p Hkl)).
    destruct (IH (snd (console_log (Text (listing_line (k, l))) p))
                 (fun k' l' H => Hall k' l' (or_intror H)) Hplain) as [H1 H2].
    split; [exact H1|]. rewrite H2. cbn [console_log emit snd out map].
    rewrite <- app_assoc. reflexivity.
Qed.



(** ** The [state] action (lines 264-277) *)

Lemma forEach_state pf data (l : list string) p :
  fst (forEach l (fun id =>
         bind (console_log
                 (Inspect ("Setting state for light " ++ id ++ " with data:") data))
              (fun _ => call pf (ClientState id data) (KCallback id))) p) = Ok tt /\
  out (snd (forEach l (fun id =>
         bind (console_log
                 (Inspect ("Setting state for light " ++ id ++ " with data:") data))
              (fun _ => call pf (ClientState id data) (KCallback id))) p))
  = (out p ++ flat_map (state_events data) l)%list.
Proof.
  revert p. induction l as [|id l IH]; intros p.
  - split; [reflexivity|]. simpl. rewrite app_nil_r. reflexivity.
  - cbn [forEach flat_map].
    set (p1 := snd (call pf (ClientState id data) (KCallback id)
                      (snd (console_log
                              (Inspect ("Setting state for light " ++ id
                                        ++ " with data:") data) p)))).
    rewrite (bind_ok _ _ p tt p1) by reflexivity.
    destruct (IH p1) as [H1 H2]. split; [exact H1|]. rewrite H2.
    unfold p1, state_events. cbn [call bind get record_request enqueue
      console_log emit fst snd out]. rewrite <- !app_assoc. reflexivity.
Qed.

(** X14: when standard input cannot be read or is no JSON document, the
    [state] action changes no light: after announcing the read it reports the
    failure on standard error and ends the process with status 1, without a
    request sent or queued. *)
Theorem state_action_rejects_bad_input pf l p msg :
  document_at pf (stdin p) = inl msg ->
  fst (action_switch pf l "state" p) = Exit 1 /\
  out (snd (action_switch pf l "state" p))
  = (out p
     ++ [Stdout (Text "Reading state data from stdin...");
         Stderr (Text ("Failed to read or parse state data from stdin: " ++ msg))])%list /\
  pending (snd (action_switch pf l "state" p)) = pending p.
Proof.
  intros Hd. unfold document_at in Hd.
  unfold action_switch. cbn [String.eqb Ascii.eqb Bool.eqb].
  unfold try_catch, bind, readStdin, parse_json, get, throw, console_log,
    console_error, emit, process_exit. simpl.
  destruct (stdin p) as [text|]; simpl.
  - rewrite Hd. simpl. rewrite <- app_assoc. repeat apply conj; reflexivity.
  - injection Hd as <-. rewrite <- app_assoc. repeat apply conj; reflexivity.
Qed.

Lemma state_action_rejects_bad_input_witness :
  let p := Lab.ready Home.settings ["lights"; "1"; "state"] (Some "{on") false in
  fst (action_switch Home.pf ["1"] "state" p) = Exit 1 /\
  out (snd (action_switch Home.pf ["1"] "state" p))
  = (out p
     ++ [Stdout (Text "Reading state data from stdin...");
         Stderr (Text ("Failed to read or parse state data from stdin: "
                       ++ "Unexpected token in JSON"))])%list /\
  pending (snd (action_switch Home.pf ["1"] "state" p)) = pending p.
Proof.
  apply (state_action_rejects_bad_input Home.pf ["1"]). reflexivity.
Defined.

(** X15: a JSON document on standard input is sent as it is, as the state
    of each selected light, once per light and in the order of the selection;
    the action announces the read, the document and each light on standard
    output. *)
Theorem state_action_sends_document pf l p data :
  document_at pf (stdin p) = inr data ->
  fst (action_switch pf l "state" p) = Ok tt /\
  out (snd (action_switch pf l "state" p))
  = (out p
     ++ [Stdout (Text "Reading state data from stdin...");
         Stdout (Inspect "State data read from stdin:" data)]
     ++ flat_map (state_events data) l)%list /\
  sent_of (snd (action_switch pf l "state" p))
  = (sent_of p ++ map (fun id => ClientState id data) l)%list.
Proof.
  intros Hd. unfold document_at in Hd.
  destruct (stdin p) as [text|] eqn:Hin; [|discriminate Hd].
  set (p2 := snd (console_log (Inspect "State data read from stdin:" data)
                    (snd (console_log (Text "Reading state data from stdin...") p)))).
  destruct (forEach_state pf data l p2) as [H1 H2].
  assert (E : action_switch pf l "state" p
              = forEach l (fun id =>
                  bind (console_log
                          (Inspect ("Setting state for light " ++ id
                                    ++ " with data:") data))
                       (fun _ => call pf (ClientState id data) (KCallback id))) p2).
  { unfold action_switch. cbn [String.eqb Ascii.eqb Bool.eqb].
    unfold try_catch.
    rewrite (bind_ok _ _ p tt
               (snd (console_log (Text "Reading state data from stdin...") p)))
      by reflexivity.
    rewrite (bind_ok readStdin _ _ text
               (snd (console_log (Text "Reading state data from stdin...") p)))
      by (unfold readStdin, bind, get; cbn [console_log emit snd stdin];
          rewrite Hin; reflexivity).
    rewrite (bind_ok (parse_json pf text) _ _ data
               (snd (console_log (Text "Reading state data from stdin...") p)))
      by (unfold parse_json; rewrite Hd; reflexivity).
    rewrite (bind_ok _ _ _ tt p2) by reflexivity.
    destruct (forEach l _ p2) as [[[]|c|e] q]; simpl in H1;
      [reflexivity | discriminate H1 | discriminate H1]. }
  rewrite E. split; [exact H1|].
  assert (Hout : out p2
                 = (out p ++ [Stdout (Text "Reading state data from stdin...");
                              Stdout (Inspect "State data read from stdin:" data)])%list).
  { unfold p2. cbn [console_log emit snd out]. rewrite <- app_assoc. reflexivity. }
  split.
  - rewrite H2, Hout, <- app_assoc. reflexivity.
  - unfold sent_of. rewrite H2, Hout, !omap_app. cbn [omap].
    rewrite app_nil_r. f_equal.
    clear. induction l as [|id l IH]; [reflexivity|].
    simpl. f_equal. exact IH.
Qed.

Lemma state_action_sends_document_witness :
  let p := Lab.ready Home.settings ["lights"; "1,2"; "state"]
             (Some Home.power_on_text) false in
  fst (action_switch Home.pf ["1"; "2"] "state" p) = Ok tt /\
  out (snd (action_switch Home.pf ["1"; "2"] "state" p))
  = (out p
     ++ [Stdout (Text "Reading state data from stdin...");
         Stdout (Inspect "State data read from stdin:"
                         (JObject [("on", JBool true)]))]
     ++ flat_map (state_events (JObject [("on", JBool true)])) ["1"; "2"])%list /\
  sent_of (snd (action_switch Home.pf ["1"; "2"] "state" p))
  = (sent_of p
     ++ map (fun id => ClientState id (JObject [("on", JBool true)])) ["1"; "2"])%list.
Proof.
  apply (state_action_sends_document Home.pf ["1"; "2"]). reflexivity.
Defined.

(** ** Options and configuration together (lines 91-141) *)

(** Once the options are read and the configuration is loaded, the script
    goes on with the colors and the command. *)
Lemma main_loaded pf opts p p0 c :
  parse_options pf opts p = (Ok tt, p0) ->
  config_at pf (files p0) (or_else (configfile p0) (defaultconfigfile pf)) = inr c ->
  main pf opts p
  = bind load_colors (fun _ => command pf)
      (snd (set_config (deepmerge pf c (config p0))
              (snd (set_configfile
                      (Some (or_else (configfile p0) (defaultconfigfile pf))) p0)))).
Proof.
  intros Hopts Hat. unfold main. rewrite (bind_ok _ _ _ tt p0 Hopts).
  pose proof (load_config_eq pf p0) as Hload. cbv zeta in Hload.
  rewrite Hat in Hload.
  rewrite (bind_ok (load_config pf) _ p0 tt
             (snd (set_config (deepmerge pf c (config p0))
                     (snd (set_configfile
                             (Some (or_else (configfile p0)
                                            (defaultconfigfile pf))) p0)))))
    by (rewrite Hload; reflexivity).
  reflexivity.
Qed.

Lemma load_colors_keeps p :
  fst (load_colors p) = Ok tt /\
  config (snd (load_colors p)) = config p /\
  args (snd (load_colors p)) = args p /\
  out (snd (load_colors p)) = out p /\
  issued (snd (load_colors p)) = issued p /\
  pending (snd (load_colors p)) = pending p.
Proof.
  unfold load_colors, bind, get. simpl.
  destruct (colors (config p)); repeat apply conj; reflexivity.
Qed.

Lemma command_config pf p :
  args p !! 0%nat = Some "config" ->
  truthy_opt (host (config p)) = true ->
  command pf p
  = call pf ClientConfig KConfig
      (snd (emit (CreateClient (opt_text (host (config p)))
                               (username (config p))) p)).
Proof.
  intros Ha Hh. unfold command, bind at 1, get at 1. rewrite Ha.
  cbn [is_case String.eqb Ascii.eqb Bool.eqb].
  apply (bind_ok getclient (fun _ => call pf ClientConfig KConfig) p tt
           (snd (emit (CreateClient (opt_text (host (config p)))
                                    (username (config p))) p))).
  rewrite getclient_ok by exact Hh. reflexivity.
Qed.

(** X16: the host given with [-H] is the one the client is created for,
    whatever host the configuration file names; the user name still comes
    from the file. *)
Theorem host_option_overrides_file pf argv fs input h c0 :
  config_at pf fs (defaultconfigfile pf) = inr c0 ->
  truthy h = true ->
  argv !! 0%nat = Some "config" ->
  fst (main pf [option_H h] (start pf fs input argv)) = Ok tt /\
  out (snd (main pf [option_H h] (start pf fs input argv)))
  = [CreateClient h (username c0); Send ClientConfig].
Proof.
  intros Hat Hh Hcmd.
  rewrite (main_loaded pf [option_H h] (start pf fs input argv)
             (snd (parse_options pf [option_H h] (start pf fs input argv))) c0)
    by (try reflexivity; exact Hat).
  match goal with
  | |- context [bind load_colors _ ?q] => set (p1 := q)
  end.
  destruct (load_colors_keeps p1) as (Hr & Hc & Ha & Ho & _).
  destruct (load_colors p1) as [r p2] eqn:E. cbn [fst snd] in Hr, Hc, Ha, Ho.
  subst r. rewrite (bind_ok _ _ _ tt p2 E).
  assert (Hhost : host (config p2) = Some h) by (rewrite Hc; reflexivity).
  assert (Huser : username (config p2) = username c0) by (rewrite Hc; reflexivity).
  rewrite command_config
    by first [rewrite Ha; exact Hcmd | rewrite Hhost; exact Hh].
  cbn [call bind get record_request enqueue emit fst snd out].
  rewrite Ho, Hhost, Huser. split; reflexivity.
Qed.

Lemma host_option_overrides_file_witness :
  fst (main Home.pf [option_H "10.0.0.7"]
         (start Home.pf Home.disk None ["config"])) = Ok tt /\
  out (snd (main Home.pf [option_H "10.0.0.7"]
              (start Home.pf Home.disk None ["config"])))
  = [CreateClient "10.0.0.7" (username Home.settings); Send ClientConfig].
Proof.
  apply (host_option_overrides_file Home.pf ["config"] Home.disk None
           "10.0.0.7" Home.settings); reflexivity.
Defined.

(** X17: a configuration path given with [-c] that cannot be read or parsed
    ends the run with status 1 and one line on standard error naming that
    path; an empty path stands for the default one. *)
Theorem requested_config_unloadable pf file argv fs input msg :
  config_at pf fs (or_else (Some file) (defaultconfigfile pf)) = inl msg ->
  fst (hue pf [option_c file] argv fs input) = Exit 1 /\
  out (snd (hue pf [option_c file] argv fs input))
  = [Stderr (Text ("failed to read config "
                   ++ or_else (Some file) (defaultconfigfile pf)
                   ++ ": " ++ msg))].
Proof.
  intros Hat.
  apply (unloadable_config_is_fatal pf [option_c file] argv fs input
           (snd (parse_options pf [option_c file] (start pf fs input argv))));
    [reflexivity | exact Hat].
Qed.

Lemma requested_config_unloadable_witness :
  fst (hue Home.pf [option_c "/etc/hue.json"] ["lights"] Home.disk None) = Exit 1 /\
  out (snd (hue Home.pf [option_c "/etc/hue.json"] ["lights"] Home.disk None))
  = [Stderr (Text ("failed to read config "
                   ++ or_else (Some "/etc/hue.json") (defaultconfigfile Home.pf)
                   ++ ": "
                   ++ "ENOENT: no such file or directory, open '/etc/hue.json'"))].
Proof.
  apply (requested_config_unloadable Home.pf "/etc/hue.json" ["lights"]
           Home.disk None). reflexivity.
Defined.

Lemma parse_options_goes_on pf o rest p :
  goes_on pf o = true ->
  exists p1,
    parse_options pf (o :: rest) p = parse_options pf rest p1 /\
    out p1 = out p /\ files p1 = files p.
Proof.
  unfold goes_on, option_exit. intros H. cbn [parse_options].
  unfold bind at 1. cbv zeta.
  destruct (String.eqb (option_name o) "h") eqn:Eh; [discriminate H|].
  destruct (String.eqb (option_name o) "v") eqn:Ev; [discriminate H|].
  destruct (String.eqb (option_name o) "c") eqn:Ec.
  { exists (snd (set_configfile (optarg o) p)). repeat apply conj; reflexivity. }
  destruct (String.eqb (option_name o) "H") eqn:EH.
  { exists (snd (set_config {| host := optarg o; username := username (config p);
                              colors := colors (config p);
                              alias := alias (config p) |} p)).
    repeat apply conj; reflexivity. }
  destruct (String.eqb (option_name o) "j") eqn:Ej.
  { exists (snd (set_json true p)). repeat apply conj; reflexivity. }
  destruct (String.eqb (option_name o) "u") eqn:Eu; [|discriminate H].
  exists (snd (enqueue KImport Resolved p)). repeat apply conj; reflexivity.
Qed.

(** X18: the first option that ends the process decides the run, whatever
    options follow it and whatever the command: [-h] and [-v] end it with
    status 0 after the usage or the version on standard output, an unknown
    option with status 1 after the usage on standard error.  The
    configuration file is not read and nothing is sent. *)
Theorem first_ending_option_decides pf before o after argv fs input code line :
  forallb (goes_on pf) before = true ->
  option_exit pf o = Some (code, line) ->
  fst (hue pf (before ++ o :: after) argv fs input) = Exit code /\
  out (snd (hue pf (before ++ o :: after) argv fs input)) = [line] /\
  files (snd (hue pf (before ++ o :: after) argv fs input)) = fs.
Proof.
  intros Hb Ho.
  assert (Hp : forall p,
             exists p',
               parse_options pf (before ++ o :: after) p = (Exit code, p') /\
               out p' = (out p ++ [line])%list /\ files p' = files p).
  { induction before as [|b before IH]; intros p.
    - change (([] ++ o :: after)%list) with (o :: after). cbn [parse_options].
      unfold bind at 1. cbv zeta. unfold option_exit in Ho.
      destruct (String.eqb (option_name o) "c") eqn:Ec;
        [apply String.eqb_eq in Ec; rewrite Ec in Ho; discriminate Ho|].
      destruct (String.eqb (option_name o) "h") eqn:Eh.
      { injection Ho as <- <-. eexists. repeat apply conj; reflexivity. }
      destruct (String.eqb (option_name o) "H") eqn:EH;
        [apply String.eqb_eq in EH; rewrite EH in Ho; discriminate Ho|].
      destruct (String.eqb (option_name o) "j") eqn:Ej;
        [apply String.eqb_eq in Ej; rewrite Ej in Ho; discriminate Ho|].
      destruct (String.eqb (option_name o) "u") eqn:Eu;
        [apply String.eqb_eq in Eu; rewrite Eu in Ho; discriminate Ho|].
      destruct (String.eqb (option_name o) "v") eqn:Ev.
      { injection Ho as <- <-. eexists. repeat apply conj; reflexivity. }
      cbn [orb] in Ho. injection Ho as <- <-.
      eexists. repeat apply conj; reflexivity.
    - cbn [forallb] in Hb. apply andb_prop in Hb as [Hgo Hb].
      destruct (parse_options_goes_on pf b (before ++ o :: after) p Hgo)
        as (p1 & E & Ho1 & Hf1).
      destruct (IH Hb p1) as (p' & E' & Ho' & Hf').
      exists p'.
      change (((b :: before) ++ o :: after)%list)
        with (b :: (before ++ o :: after)%list).
      rewrite E, E'. split; [reflexivity|].
      split; congruence. }
  destruct (Hp (start pf fs input argv)) as (p' & E & Hout & Hfiles).
  unfold hue, main.
  rewrite (bind_exit _ _ _ code p' (bind_exit _ _ _ code p' E)).
  repeat apply conj; [reflexivity | exact Hout | exact Hfiles].
Qed.

Lemma first_ending_option_decides_witness :
  fst (hue Home.pf ([Home.option_j] ++ {| option_name := "h"; optarg := None |}
                    :: [option_c "/nowhere"]) ["lights"] ∅ None) = Exit 0 /\
  out (snd (hue Home.pf ([Home.option_j] ++ {| option_name := "h"; optarg := None |}
                         :: [option_c "/nowhere"]) ["lights"] ∅ None))
  = [Stdout (Text usage)] /\
  files (snd (hue Home.pf ([Home.option_j] ++ {| option_name := "h"; optarg := None |}
                           :: [option_c "/nowhere"]) ["lights"] ∅ None)) = ∅.
Proof.
  apply (first_ending_option_decides Home.pf [Home.option_j]
           {| option_name := "h"; optarg := None |} [option_c "/nowhere"]);
    reflexivity.
Defined.

(** ** Commands answered by one callback (lines 146-151 and 407-431) *)

Lemma take_pending_empty p :
  pending p = [] -> take_pending p = (Ok [], p).
Proof.
  intros H. unfold take_pending. rewrite H. destruct p. simpl in *. subst.
  reflexivity.
Qed.

(** A command that queues one callback, which queues none, is followed by
    that callback and nothing else. *)
Lemma run_single pf (m : M unit) p p1 k r :
  m p = (Ok tt, p1) ->
  pending p1 = [(k, r)] ->
  pending (snd (handle pf k r (snd (take_pending p1)))) = [] ->
  run pf m p = handle pf k r (snd (take_pending p1)).
Proof.
  intros Hm Hq Hh. unfold run. rewrite (bind_ok _ _ _ tt p1 Hm).
  unfold max_rounds. cbn [event_loop].
  rewrite (bind_ok take_pending _ p1 [(k, r)] (snd (take_pending p1)))
    by (unfold take_pending; rewrite Hq; reflexivity).
  cbn [run_callbacks]. unfold bind at 1 2.
  destruct (handle pf k r (snd (take_pending p1))) as [[[]|c|e] q];
    try reflexivity.
  cbn [ret snd] in *. unfold bind. rewrite (take_pending_empty q Hh).
  reflexivity.
Qed.

Lemma command_rename pf p :
  args p !! 0%nat = Some "rename" ->
  truthy_opt (host (config p)) = true ->
  command pf p
  = call pf (ClientRename (args p !! 1%nat) (args p !! 2%nat)) KRename
      (snd (emit (CreateClient (opt_text (host (config p)))
                               (username (config p))) p)).
Proof.
  intros Ha Hh. unfold command, bind at 1, get at 1. rewrite Ha.
  cbn [is_case String.eqb Ascii.eqb Bool.eqb orb].
  apply (bind_ok getclient
           (fun _ => call pf (ClientRename (args p !! 1%nat) (args p !! 2%nat))
                          KRename) p tt
           (snd (emit (CreateClient (opt_text (host (config p)))
                                    (username (config p))) p))).
  rewrite getclient_ok by exact Hh. reflexivity.
Qed.

(** X19: [rename] sends one request with its two operands as they are, even
    when they are missing, and prints one line: the description of the problem
    when the bridge reports one, the confirmation otherwise.  The run ends
    normally in both cases. *)
Theorem rename_sends_and_reports pf p reply d :
  args p !! 0%nat = Some "rename" ->
  truthy_opt (host (config p)) = true ->
  pending p = [] ->
  bridge pf (issued p) (ClientRename (args p !! 1%nat) (args p !! 2%nat))
  = Reply reply d ->
  fst (run pf (command pf) p) = Ok tt /\
  out (snd (run pf (command pf) p))
  = (out p
     ++ [CreateClient (opt_text (host (config p))) (username (config p));
         Send (ClientRename (args p !! 1%nat) (args p !! 2%nat));
         Stdout (Text (match reply with
                       | Some e => "problem renaming light: " ++ description e
                       | None =>
                           "light " ++ opt_text (args p !! 1%nat) ++ " renamed"
                       end))])%list.
Proof.
  intros Ha Hh Hq Hb.
  set (p1 := snd (call pf (ClientRename (args p !! 1%nat) (args p !! 2%nat)) KRename
                    (snd (emit (CreateClient (opt_text (host (config p)))
                                             (username (config p))) p)))).
  assert (E : run pf (command pf) p
              = handle pf KRename (Reply reply d) (snd (take_pending p1))).
  { apply run_single.
    - rewrite (command_rename pf p Ha Hh). reflexivity.
    - unfold p1. cbn [call bind get record_request enqueue emit fst snd pending
                        issued]. rewrite Hq, Hb. reflexivity.
    - destruct reply; reflexivity. }
  rewrite E. unfold p1.
  destruct reply; cbn; rewrite <- !app_assoc; split; reflexivity.
Qed.

Lemma rename_sends_and_reports_witness :
  let p := Lab.ready Home.settings ["rename"; "1"; "sofa"] None false in
  fst (run Home.pf (command Home.pf) p) = Ok tt /\
  out (snd (run Home.pf (command Home.pf) p))
  = (out p
     ++ [CreateClient (opt_text (host (config p))) (username (config p));
         Send (ClientRename (args p !! 1%nat) (args p !! 2%nat));
         Stdout (Text (match @None bridge_error with
                       | Some e => "problem renaming light: " ++ description e
                       | None =>
                           "light " ++ opt_text (args p !! 1%nat) ++ " renamed"
                       end))])%list.
Proof.
  apply (rename_sends_and_reports Home.pf _ None Undefined); reflexivity.
Defined.

Lemma command_is_config_answer pf p err d :
  pending (snd (handle pf KConfig (Reply err d) p)) = pending p /\
  fst (handle pf KConfig (Reply err d) p) = Ok tt /\
  out (snd (handle pf KConfig (Reply err d) p))
  = (out p ++ [Stdout (match err_or err (json_of_payload d) with
                       | Some j => Dump j
                       | None => Text "undefined"
                       end)])%list.
Proof.
  unfold handle, log_json. cbn [err_of data_of].
  destruct (err_or err (json_of_payload d)); repeat apply conj; reflexivity.
Qed.

(** X20: [config] sends one request and prints what the bridge answers as
    one JSON document, the error when there is one and the data otherwise;
    an error of the bridge does not change how the run ends. *)
Theorem config_prints_answer pf p err d :
  args p !! 0%nat = Some "config" ->
  truthy_opt (host (config p)) = true ->
  pending p = [] ->
  bridge pf (issued p) ClientConfig = Reply err d ->
  fst (run pf (command pf) p) = Ok tt /\
  out (snd (run pf (command pf) p))
  = (out p
     ++ [CreateClient (opt_text (host (config p))) (username (config p));
         Send ClientConfig;
         Stdout (match err_or err (json_of_payload d) with
                 | Some j => Dump j
                 | None => Text "undefined"
                 end)])%list.
Proof.
  intros Ha Hh Hq Hb.
  set (p1 := snd (call pf ClientConfig KConfig
                    (snd (emit (CreateClient (opt_text (host (config p)))
                                             (username (config p))) p)))).
  destruct (command_is_config_answer pf (snd (take_pending p1)) err d)
    as (Hp & Hr & Ho).
  assert (E : run pf (command pf) p
              = handle pf KConfig (Reply err d) (snd (take_pending p1))).
  { apply run_single.
    - rewrite (command_config pf p Ha Hh). reflexivity.
    - unfold p1. cbn [call bind get record_request enqueue emit fst snd pending
                        issued]. rewrite Hq, Hb. reflexivity.
    - rewrite Hp. reflexivity. }
  rewrite E. split; [exact Hr|]. rewrite Ho. unfold p1.
  cbn [call bind get record_request enqueue emit take_pending fst snd out].
  rewrite <- !app_assoc. reflexivity.
Qed.

Lemma config_prints_answer_witness :
  let p := Lab.ready Home.settings ["config"] None false in
  fst (run (Lab.platform_with Lab.locked) (command (Lab.platform_with Lab.locked)) p)
  = Ok tt /\
  out (snd (run (Lab.platform_with Lab.locked)
              (command (Lab.platform_with Lab.locked)) p))
  = (out p
     ++ [CreateClient (opt_text (host (config p))) (username (config p));
         Send ClientConfig;
         Stdout (match err_or (Some Lab.unregistered) (json_of_payload Undefined) with
                 | Some j => Dump j
                 | None => Text "undefined"
                 end)])%list.
Proof.
  apply (config_prints_answer (Lab.platform_with Lab.locked) _
           (Some Lab.unregistered) Undefined); reflexivity.
Defined.

Lemma forEach_log {A} (l : list A) (f : A -> string) p :
  fst (forEach l (fun x => console_log (Text (f x))) p) = Ok tt /\
  out (snd (forEach l (fun x => console_log (Text (f x))) p))
  = (out p ++ map (fun x => Stdout (Text (f x))) l)%list /\
  pending (snd (forEach l (fun x => console_log (Text (f x))) p)) = pending p.
Proof.
  revert p. induction l as [|x l IH]; intros p.
  - repeat apply conj; try reflexivity. simpl. rewrite app_nil_r. reflexivity.
  - cbn [forEach].
    rewrite (bind_ok _ _ p tt (snd (console_log (Text (f x)) p))) by reflexivity.
    destruct (IH (snd (console_log (Text (f x)) p))) as (H1 & H2 & H3).
    repeat apply conj; [exact H1 | | exact H3].
    rewrite H2. cbn [console_log emit snd out map]. rewrite <- app_assoc.
    reflexivity.
Qed.

Lemma map_imap {A B C} (g : B -> C) (f : nat -> A -> B) l :
  map g (imap f l) = imap (fun i x => g (f i x)) l.
Proof.
  revert f. induction l as [|x l IH]; intros f; [reflexivity|].
  rewrite !imap_cons. cbn [map]. rewrite IH. reflexivity.
Qed.

(** X21: [search] needs no host and creates no client: it asks for the base
    stations once and prints them, as one JSON array with [-j], and otherwise
    as a line saying that none was found, a line naming the only one, or a
    count followed by the stations numbered from 1. *)
Theorem search_prints_stations pf p err stations :
  args p !! 0%nat = Some "search" ->
  pending p = [] ->
  bridge pf (issued p) HueDiscover = Reply err (Stations stations) ->
  fst (run pf (command pf) p) = Ok tt /\
  out (snd (run pf (command pf) p))
  = (out p
     ++ Send HueDiscover
        :: (if json p then [Stdout (Dump (JArray (map JString stations)))]
            else map (fun line => Stdout (Text line)) (search_lines stations)))%list.
Proof.
  intros Ha Hq Hb.
  set (p1 := snd (call pf HueDiscover KSearch p)).
  assert (Hc : command pf p = (Ok tt, p1)).
  { unfold command, bind at 1, get at 1. rewrite Ha. reflexivity. }
  set (q := snd (take_pending p1)).
  assert (Hh : fst (handle pf KSearch (Reply err (Stations stations)) q) = Ok tt /\
               out (snd (handle pf KSearch (Reply err (Stations stations)) q))
               = (out q
                  ++ (if json p then [Stdout (Dump (JArray (map JString stations)))]
                      else map (fun line => Stdout (Text line))
                               (search_lines stations)))%list /\
               pending (snd (handle pf KSearch (Reply err (Stations stations)) q)) = []).
  { assert (Eh : handle pf KSearch (Reply err (Stations stations)) q
                 = (if json p then log_json (json_of_payload (Stations stations))
                    else
                      match stations with
                      | [] =>
                          console_log
                            (Text "No stations found. Check your network connection.")
                      | [station] =>
                          console_log (Text ("1 station found: " ++ station))
                      | _ =>
                          bind (console_log
                                  (Text (ToString (Z.of_nat (length stations))
                                         ++ " stations found: " ++ newline)))
                               (fun _ =>
                                  forEach (imap (fun i nm => (i, nm)) stations)
                                    (fun inm =>
                                       console_log
                                         (Text (ToString (Z.of_nat (fst inm) + 1)
                                                ++ ": " ++ snd inm))))
                      end) q) by reflexivity.
    rewrite Eh. clear Eh. destruct (json p).
    - repeat apply conj; reflexivity.
    - destruct stations as [|s1 [|s2 rest]]; [repeat apply conj; reflexivity..|].
      set (ss := s1 :: s2 :: rest).
      set (hd := ToString (Z.of_nat (length ss)) ++ " stations found: " ++ newline).
      rewrite (bind_ok _ _ q tt (snd (console_log (Text hd) q))) by reflexivity.
      destruct (forEach_log (imap (fun i nm => (i, nm)) ss)
                  (fun inm => ToString (Z.of_nat (fst inm) + 1) ++ ": " ++ snd inm)
                  (snd (console_log (Text hd) q))) as (H1 & H2 & H3).
      repeat apply conj; [exact H1 | | rewrite H3; reflexivity].
      rewrite H2. cbn [console_log emit snd out]. rewrite <- app_assoc.
      f_equal. subst hd ss. unfold search_lines. cbn [map app]. f_equal.
      rewrite !map_imap. apply imap_ext. intros i x _. reflexivity. }
  destruct Hh as (H1 & H2 & H3).
  assert (E : run pf (command pf) p
              = handle pf KSearch (Reply err (Stations stations)) q).
  { apply run_single; [exact Hc | | exact H3].
    unfold p1. cbn [call bind get record_request enqueue fst snd pending issued].
    rewrite Hq, Hb. reflexivity. }
  rewrite E. split; [exact H1|]. rewrite H2. unfold q, p1.
  cbn [call bind get record_request enqueue take_pending fst snd out].
  rewrite <- app_assoc. reflexivity.
Qed.

Lemma search_prints_stations_witness :
  let p := Lab.ready Home.settings ["search"] None false in
  fst (run Home.pf (command Home.pf) p) = Ok tt /\
  out (snd (run Home.pf (command Home.pf) p))
  = (out p
     ++ Send HueDiscover
        :: (if json p then [Stdout (Dump (JArray (map JString ["192.168.1.2"])))]
            else map (fun line => Stdout (Text line))
                     (search_lines ["192.168.1.2"])))%list.
Proof.
  apply (search_prints_stations Home.pf _ None ["192.168.1.2"]); reflexivity.
Defined.

(** ** The brightness callbacks (lines 286-323) *)

Lemma event_loop_step pf n p k r :
  pending p = [(k, r)] ->
  event_loop pf (S n) p
  = bind (handle pf k r) (fun _ => event_loop pf n) (snd (take_pending p)).
Proof.
  intros Hq. cbn [event_loop].
  rewrite (bind_ok take_pending _ p [(k, r)] (snd (take_pending p)))
    by (unfold take_pending; rewrite Hq; reflexivity).
  cbn [run_callbacks]. unfold bind.
  destruct (handle pf k r (snd (take_pending p))) as [[[]|c|e] q]; reflexivity.
Qed.

Lemma event_loop_done pf n p : pending p = [] -> event_loop pf n p = (Ok tt, p).
Proof.
  intros Hq. destruct n; [reflexivity|]. cbn [event_loop].
  unfold bind. rewrite (take_pending_empty p Hq). reflexivity.
Qed.

(** X22: in the brightness branch, the state of the light is set once, with
    the brightness computed from the one the light reported.  With [-j] the
    answer is printed as JSON and the lights are not listed.  Without [-j],
    an error of the bridge is printed with the id of the light (the line
    holding no [%]); a success is followed by one listing of the lights, and
    then by a line with the name of the light, its old brightness and the new
    one, or, when the listing is answered without lights, by the exception of
    reading the light in [undefined], which ends the run. *)
Theorem brightness_update_is_reported pf p id op num perc l err d err' d' :
  let old := bri (state l) in
  let new := new_brightness op num perc old in
  let set := ClientState id (patch_bri new) in
  pending p = [] ->
  bridge pf (issued p) set = Reply err d ->
  bridge pf (issued p ++ [set]) ClientLights = Reply err' d' ->
  listing_answer d' ->
  (json p = false -> forall e, err = Some e ->
                               has_percent (error_line id e) = false) ->
  fst (run pf (handle pf (KBriLight id op num perc) (Reply None (LightData l))) p)
  = (if json p then Ok tt
     else match err, d' with
          | None, Undefined =>
              Throw (Error ("Cannot read properties of undefined (reading '"
                            ++ id ++ "')"))
          | _, _ => Ok tt
          end) /\
  out (snd (run pf (handle pf (KBriLight id op num perc)
                           (Reply None (LightData l))) p))
  = (out p
     ++ Send set
        :: (if json p then
              [Stdout (match err_or err (json_of_payload d) with
                       | Some j => Dump j
                       | None => Text "undefined"
                       end)]
            else
              match err with
              | Some e => [Stdout (Text (error_line id e))]
              | None =>
                  Send ClientLights
                  :: match d' with
                     | LightsData lights =>
                         [Stdout (Text ("💡 " ++ lightName_of lights id
                                        ++ " Brightness Updated: "
                                        ++ ToString old
                                        ++ " → " ++ num_to_string new))]
                     | _ => []
                     end
              end))%list.
Proof.
  intros old new set Hq Hb Hb' Hd Hplain.
  set (p1 := snd (call pf set (KBriState id old new) p)).
  assert (E1 : run pf (handle pf (KBriLight id op num perc)
                              (Reply None (LightData l))) p
               = event_loop pf max_rounds p1).
  { unfold run, bind. rewrite KBriLight_calls. reflexivity. }
  assert (Hq1 : pending p1 = [(KBriState id old new, Reply err d)]).
  { unfold p1. cbn [call bind get record_request enqueue fst snd pending issued].
    rewrite Hq, Hb. reflexivity. }
  rewrite E1. unfold max_rounds. rewrite (event_loop_step pf _ p1 _ _ Hq1).
  set (q1 := snd (take_pending p1)).
  assert (Hj : json q1 = json p) by reflexivity.
  assert (Ho1 : out q1 = (out p ++ [Send set])%list) by reflexivity.
  assert (Hi1 : issued q1 = (issued p ++ [set])%list) by reflexivity.
  assert (Hp1 : pending q1 = []) by reflexivity.
  assert (Eh : forall k : unit -> M unit,
             bind (handle pf (KBriState id old new) (Reply err d)) k q1
             = bind (if json q1 then log_json (err_or err (json_of_payload d))
                     else match err with
                          | Some e => printf pf (error_line id e)
                          | None => call pf ClientLights (KBriLights id old new)
                          end) k q1) by reflexivity.
  rewrite Eh, Hj. clear Eh. destruct (json p).
  - unfold log_json.
    destruct (err_or err (json_of_payload d)) as [j|];
      (erewrite bind_ok; [|reflexivity]);
      rewrite event_loop_done by (cbn; exact Hp1);
      cbn [console_log emit fst snd out]; rewrite Ho1, <- app_assoc;
      split; reflexivity.
  - destruct err as [e|].
    + rewrite (bind_ok _ _ q1 tt
                 (snd (console_log (Text (error_line id e)) q1)))
        by (apply printf_plain, (Hplain eq_refl e eq_refl)).
      rewrite event_loop_done by (cbn; exact Hp1).
      cbn [console_log emit fst snd out]. rewrite Ho1, <- app_assoc.
      split; reflexivity.
    + set (p2 := snd (call pf ClientLights (KBriLights id old new) q1)).
      rewrite (bind_ok _ _ q1 tt p2) by reflexivity.
      assert (Hq2 : pending p2 = [(KBriLights id old new, Reply err' d')]).
      { unfold p2. cbn [call bind get record_request enqueue fst snd pending].
        rewrite Hp1, Hi1, Hb'. reflexivity. }
      rewrite (event_loop_step pf _ p2 _ _ Hq2).
      assert (Ho2 : out (snd (take_pending p2))
                    = (out p ++ [Send set; Send ClientLights])%list).
      { unfold p2. cbn [take_pending call bind get record_request enqueue
                        fst snd out].
        rewrite Ho1, <- app_assoc. reflexivity. }
      destruct d' as [|j|lights|l'|u|names]; try contradiction.
      * unfold handle, data_of, bind, not_an_object, throw.
        cbn [fst snd]. rewrite Ho2. split; reflexivity.
      * erewrite bind_ok; [|reflexivity].
        rewrite event_loop_done by reflexivity.
        cbn [console_log emit fst snd out]. rewrite Ho2, <- !app_assoc.
        split; reflexivity.
Qed.

Lemma brightness_update_is_reported_witness :
  let p := Lab.ready Home.settings ["lights"; "1"; "=50%"] None false in
  let old := bri (state Home.desk) in
  let new := new_brightness "=" "50" "%" old in
  let set := ClientState "1" (patch_bri new) in
  fst (run Home.pf (handle Home.pf (KBriLight "1" "=" "50" "%")
                           (Reply None (LightData Home.desk))) p)
  = (if json p then Ok tt
     else match @None bridge_error, LightsData Home.lamps with
          | None, Undefined =>
              Throw (Error ("Cannot read properties of undefined (reading '"
                            ++ "1" ++ "')"))
          | _, _ => Ok tt
          end) /\
  out (snd (run Home.pf (handle Home.pf (KBriLight "1" "=" "50" "%")
                                (Reply None (LightData Home.desk))) p))
  = (out p
     ++ Send set
        :: (if json p then
              [Stdout (match err_or None (json_of_payload Undefined) with
                       | Some j => Dump j
                       | None => Text "undefined"
                       end)]
            else
              [Send ClientLights;
               Stdout (Text ("💡 " ++ lightName_of Home.lamps "1"
                             ++ " Brightness Updated: " ++ ToString old
                             ++ " → " ++ num_to_string new))]))%list.
Proof.
  apply (brightness_update_is_reported Home.pf _ "1" "=" "50" "%" Home.desk
           None Undefined None (LightsData Home.lamps));
    [reflexivity | reflexivity | reflexivity | exact I | discriminate].
Defined.

(** X23: when the bridge answers the reading of a light with an error, the
    brightness branch leaves the light alone: no state is sent, however the
    run ends.  The error is printed on standard output and the run ends
    normally, with [-j] as JSON, and without as a line with the id of the
    light when that line holds no [%]. *)
Theorem brightness_read_error_changes_nothing pf p id op num perc e d :
  pending p = [] ->
  sent_of (snd (run pf (handle pf (KBriLight id op num perc)
                               (Reply (Some e) d)) p))
  = sent_of p /\
  (json p = true \/ has_percent (error_line id e) = false ->
   fst (run pf (handle pf (KBriLight id op num perc) (Reply (Some e) d)) p)
   = Ok tt /\
   out (snd (run pf (handle pf (KBriLight id op num perc) (Reply (Some e) d)) p))
   = (out p ++ [Stdout (if json p then Dump (json_of_error e)
                        else Text (error_line id e))])%list).
Proof.
  intros Hq. unfold run.
  assert (E : handle pf (KBriLight id op num perc) (Reply (Some e) d) p
              = (if json p then console_log (Dump (json_of_error e))
                 else printf pf (error_line id e)) p).
  { unfold handle, bind, get. cbn [err_of data_of err_or log_json].
    destruct (json p); reflexivity. }
  assert (Hlog : forall o (k : unit -> M unit),
             bind (console_log o) (fun _ => event_loop pf max_rounds) p
             = (Ok tt, snd (console_log o p))).
  { intros o _. rewrite (bind_ok _ _ p tt (snd (console_log o p)))
      by reflexivity.
    apply event_loop_done. exact Hq. }
  assert (Hsent : forall o, sent_of (snd (console_log o p)) = sent_of p).
  { intros o. unfold sent_of. cbn [console_log emit snd out].
    rewrite omap_app. apply app_nil_r. }
  unfold bind at 1 2 3. rewrite E. split.
  - destruct (json p).
    + fold (bind (console_log (Dump (json_of_error e)))
                 (fun _ => event_loop pf max_rounds) p).
      rewrite (Hlog _ (fun _ => ret tt)). apply Hsent.
    + unfold printf. destruct (sprintf pf (error_line id e)) as [msg|text];
        [reflexivity|].
      fold (bind (console_log (Text text))
                 (fun _ => event_loop pf max_rounds) p).
      rewrite (Hlog _ (fun _ => ret tt)). apply Hsent.
  - intros Hplain. destruct (json p).
    + fold (bind (console_log (Dump (json_of_error e)))
                 (fun _ => event_loop pf max_rounds) p).
      rewrite (Hlog _ (fun _ => ret tt)). split; reflexivity.
    + destruct Hplain as [Hj | Hplain]; [discriminate Hj|].
      rewrite (printf_plain pf _ p Hplain).
      fold (bind (console_log (Text (error_line id e)))
                 (fun _ => event_loop pf max_rounds) p).
      rewrite (Hlog _ (fun _ => ret tt)). split; reflexivity.
Qed.

Lemma brightness_read_error_changes_nothing_witness :
  let p := Lab.ready Home.settings ["lights"; "7"; "+10"] None false in
  sent_of (snd (run Home.pf (handle Home.pf (KBriLight "7" "+" "10" EmptyString)
                                    (Reply (Some Lab.unregistered) Undefined)) p))
  = sent_of p /\
  (json p = true \/ has_percent (error_line "7" Lab.unregistered) = false ->
   fst (run Home.pf (handle Home.pf (KBriLight "7" "+" "10" EmptyString)
                            (Reply (Some Lab.unregistered) Undefined)) p)
   = Ok tt /\
   out (snd (run Home.pf (handle Home.pf (KBriLight "7" "+" "10" EmptyString)
                                 (Reply (Some Lab.unregistered) Undefined)) p))
   = (out p ++ [Stdout (if json p then Dump (json_of_error Lab.unregistered)
                        else Text (error_line "7" Lab.unregistered))])%list).
Proof.
  apply (brightness_read_error_changes_nothing Home.pf _ "7" "+" "10" EmptyString
           Lab.unregistered Undefined).
  reflexivity.
Defined.

(** ** Shortcuts as commands (lines 171-262) *)

(** X24: a selector whose first element is one of [on], [off], [colorloop],
    [alert], [clear] and [reset] applies that keyword to every light of the
    listing, in its order: each gets the one request of the keyword, whatever
    the rest of the selector and whatever action follows it on the command
    line, which is replaced by the keyword. *)
Theorem shortcut_reaches_every_light pf lights p cmd selector kw more rest :
  args p = cmd :: selector :: rest ->
  split "," selector = kw :: more ->
  In kw switch_keywords ->
  fst (lights_command pf lights p) = Ok tt /\
  out (snd (lights_command pf lights p))
  = (out p ++ map (fun id => Send (keyword_request kw id)) (keys lights))%list /\
  args (snd (lights_command pf lights p)) !! 2%nat = Some kw.
Proof.
  intros Ha Hs Hk.
  assert (Ht : truthy selector = true).
  { destruct selector; [|reflexivity]. cbv in Hs. injection Hs as <- _.
    simpl in Hk. intuition discriminate. }
  set (a' := array_set (args p) 2 kw).
  assert (Hsw : shortcut_switch (keys lights) (kw :: more) (args p) (config p)
                = inr (keys lights, a')).
  { unfold a'. simpl in Hk.
    destruct Hk as [<- | [<- | [<- | [<- | [<- | [<- | []]]]]]]; reflexivity. }
  assert (Ha2 : a' !! 2%nat = Some kw).
  { unfold a'. rewrite Ha. destruct rest; reflexivity. }
  assert (Hkw : truthy kw = true).
  { simpl in Hk.
    destruct Hk as [<- | [<- | [<- | [<- | [<- | [<- | []]]]]]]; reflexivity. }
  assert (E : lights_command pf lights p
              = action_switch pf (keys lights) kw (snd (set_args a' p))).
  { unfold lights_command, bind at 1 2, get at 1 2. rewrite Ha.
    cbn [lookup list_lookup truthy_opt opt_text]. rewrite Ht. cbn [negb].
    unfold bind at 1, get at 1. rewrite Hs, <- Ha, Hsw.
    unfold bind at 1. cbn [set_args fst snd]. rewrite Ha2.
    cbn [truthy_opt opt_text]. rewrite Hkw. reflexivity. }
  rewrite E.
  assert (Hargs : forall (req : string -> request) (l : list string) q,
             args (snd (forEach l (fun id => call pf (req id) (KCallback id)) q))
             = args q).
  { intros req l. induction l as [|id l IH]; intros q; [reflexivity|].
    cbn [forEach].
    rewrite (bind_ok _ _ q tt (snd (call pf (req id) (KCallback id) q)))
      by reflexivity.
    rewrite IH. reflexivity. }
  simpl in Hk.
  destruct Hk as [<- | [<- | [<- | [<- | [<- | [<- | []]]]]]];
    (split; [|split; [|rewrite <- Ha2; f_equal; apply Hargs]]);
    apply (forEach_call pf (keys lights) _ KCallback (snd (set_args a' p))).
Qed.

Lemma shortcut_reaches_every_light_witness :
  let p := Lab.ready Home.settings ["lights"; "off,5"; "red"] None false in
  fst (lights_command Home.pf Home.lamps p) = Ok tt /\
  out (snd (lights_command Home.pf Home.lamps p))
  = (out p ++ map (fun id => Send (keyword_request "off" id)) (keys Home.lamps))%list /\
  args (snd (lights_command Home.pf Home.lamps p)) !! 2%nat = Some "off".
Proof.
  apply (shortcut_reaches_every_light Home.pf Home.lamps _ "lights" "off,5" "off"
           ["5"] ["red"]);
    [reflexivity | reflexivity | simpl; auto].
Defined.

(** ** Registration (lines 124-134 and 365-391) *)

(** X25: once the options are read without ending the run, [hue register]
    has no effect unless the configuration is read from something that is no
    regular file (a FIFO, a device): whatever else the path of the
    configuration names, or when it names nothing, the run ends with status
    1, no client is created, no request is sent to the bridge, and the files
    are left as they were. *)
Theorem register_is_without_effect pf opts argv fs input p0 :
  parse_options pf opts (start pf fs input argv) = (Ok tt, p0) ->
  argv !! 0%nat = Some "register" ->
  (forall content,
      fs !! or_else (configfile p0) (defaultconfigfile pf)
      <> Some (Special content)) ->
  fst (hue pf opts argv fs input) = Exit 1 /\
  network_of (snd (hue pf opts argv fs input)) = [] /\
  files (snd (hue pf opts argv fs input)) = fs.
Proof.
  intros Hopts Hcmd Hreg. unfold hue.
  pose proof (untouched_parse_options pf opts (start pf fs input argv))
    as (_ & _ & Hn0).
  rewrite Hopts in Hn0.
  change (network_of (start pf fs input argv)) with (@nil event) in Hn0.
  simpl in Hn0.
  destruct (main_register pf opts argv fs input p0 Hopts Hcmd Hreg)
    as (p' & Hm & Hf & Ho).
  rewrite (bind_exit _ _ _ 1 p' Hm). split; [reflexivity|].
  split; [|exact Hf].
  unfold network_of in *. simpl.
  rewrite Ho, List.filter_app, network_of_register_lines, app_nil_r.
  exact Hn0.
Qed.

Lemma register_is_without_effect_witness :
  fst (hue Home.pf [Home.option_j] ["register"] ∅ None) = Exit 1 /\
  network_of (snd (hue Home.pf [Home.option_j] ["register"] ∅ None)) = [] /\
  files (snd (hue Home.pf [Home.option_j] ["register"] ∅ None)) = ∅.
Proof.
  apply (register_is_without_effect Home.pf [Home.option_j] ["register"] ∅ None
           (snd (parse_options Home.pf [Home.option_j]
                   (start Home.pf ∅ None ["register"]))));
    [reflexivity | reflexivity | intros content; vm_compute; discriminate].
Defined.

Lemma brightness_match_language_witness :
  brightness_match "+25%" = Some ("+", "25", "%") <->
  ("+" = "=" \/ "+" = "+" \/ "+" = "-") /\
  all_digits "25" = true /\ "25" <> EmptyString /\
  ("%" = EmptyString \/ "%" = "%") /\
  "+25%" = "+" ++ "25" ++ "%".
Proof. apply (brightness_match_language "+25%" "+" "25" "%"). Defined.
